(** * Task manager backend: authorization-scoped CRUD and status handling

    A shallow embedding of the request handlers of the todo-list backend
    ([convex/endpoints/tasks.ts], the assistant endpoints, the message store
    [convex/db/messages.ts], [convex/helpers/validation.ts] and the shared
    constants), followed by the properties of the handlers.

    Conventions of the embedding:
    - a JavaScript string is the list of its UTF-16 code units, so that
      [length] is the [.length] of the source;
    - [Date.now()] is an integer (epoch milliseconds), and inside one query
      or mutation it is one value, [Ctx.now]; a number received as an
      argument (a due date) is any double, [JsNumber];
    - a table is the list of its documents in creation order; document ids
      are natural numbers handed out by a counter;
    - a handler is a state-and-exception computation over the [World]: it
      returns [Ok v] or [Err e] (the thrown error) and the world it leaves;
      a mutation is a transaction, an action is not;
    - the store keeps a journal of its writes, in the order they are made;
    - the rate limiter, the AI agent and the locale's date printer are
      external services: they are the fields of the class [Platform]. *)

From Stdlib Require Import String Ascii ZArith NArith QArith List Bool Lia.
Import ListNotations.
Close Scope Q_scope.

Set Implicit Arguments.
Set Warnings "-abstract-large-number".

(** ** JavaScript strings *)

Definition JsString := list N.

(** A string literal of the source, as code units. *)
Definition js (s : string) : JsString :=
  map N_of_ascii (list_ascii_of_string s).

Definition UserId := string.
Definition Id := nat.

(** ** JavaScript numbers

    A [v.number()] argument is any double: a finite value, an infinity or
    NaN. A finite double is a rational number and is kept as one, so that the
    comparisons of the source are exact. *)
Inductive JsNumber :=
| Finite (q : Q)
| Infinity (negative : bool)
| NaN.

(** An integer of the source ([0], [Date.now()] and sums of such). *)
Definition ofZ (z : Z) : JsNumber := Finite (inject_Z z).

Module JsNumber.

(** [a <= b]: false as soon as an operand is NaN. *)
Definition leb (a b : JsNumber) : bool :=
  match a, b with
  | NaN, _ | _, NaN => false
  | Infinity true, _ => true
  | _, Infinity false => true
  | Infinity false, _ => false
  | _, Infinity true => false
  | Finite x, Finite y => Qle_bool x y
  end.

(** [a >= b]. *)
Definition geb (a b : JsNumber) : bool := leb b a.

(** The number is [0] or [-0]. *)
Definition isZero (a : JsNumber) : bool :=
  match a with
  | Finite q => Qeq_bool q 0
  | _ => false
  end.

Definition isNaN (a : JsNumber) : bool :=
  match a with
  | NaN => true
  | _ => false
  end.

End JsNumber.

(** JavaScript truthiness of an optional string and of an optional number:
    [undefined], the empty string, [0] and NaN are falsy. *)
Definition truthyString (s : option JsString) : bool :=
  match s with
  | Some (_ :: _) => true
  | _ => false
  end.

Definition truthyNumber (n : option JsNumber) : bool :=
  match n with
  | Some d => negb (JsNumber.isZero d || JsNumber.isNaN d)
  | None => false
  end.

(** ** helpers/validation.ts *)

Module Validation.

Definition isValidTaskTitle (title : JsString) : bool :=
  (0 <? length title) && (length title <=? 200).

Definition isValidTaskDescription (description : JsString) : bool :=
  length description <=? 5000.

Definition isValidDueDate (now : Z) (dueDate : JsNumber) : bool :=
  (* Allow dates from today onwards (within 5 years) *)
  let fiveYearsFromNow := (now + 5 * 365 * 24 * 60 * 60 * 1000)%Z in
  JsNumber.geb dueDate (ofZ (now - 24 * 60 * 60 * 1000))
  && JsNumber.leb dueDate (ofZ fiveYearsFromNow).

Definition isValidThreadTitle (title : JsString) : bool :=
  (0 <? length title) && (length title <=? 100).

Definition isValidMessageContent (content : JsString) : bool :=
  (0 <? length content) && (length content <=? 10000).

(** The code units [String.prototype.trim] strips and the class [\s]
    matches: tab, line feed, vertical tab, form feed, carriage return,
    space, no-break space, U+1680, U+2000..U+200A, U+2028, U+2029, U+202F,
    U+205F, U+3000 and U+FEFF. *)
Definition isWhiteSpace (c : N) : bool :=
  ((9 <=? c) && (c <=? 13) || (c =? 32) || (c =? 160) || (c =? 5760)
   || (8192 <=? c) && (c <=? 8202) || (c =? 8232) || (c =? 8233)
   || (c =? 8239) || (c =? 8287) || (c =? 12288) || (c =? 65279))%N.

Fixpoint trimStart (s : JsString) : JsString :=
  match s with
  | c :: rest => if isWhiteSpace c then trimStart rest else s
  | [] => []
  end.

Definition trim (s : JsString) : JsString :=
  rev (trimStart (rev (trimStart s))).

(** [replace(/\s+/g, " ")]: every maximal run of white space becomes one
    space; [inRun] tells that the previous code unit was white space. *)
Fixpoint replaceWhiteSpaceRuns (inRun : bool) (s : JsString) : JsString :=
  match s with
  | [] => []
  | c :: rest =>
      if isWhiteSpace c
      then (if inRun then replaceWhiteSpaceRuns true rest
            else 32%N :: replaceWhiteSpaceRuns true rest)
      else c :: replaceWhiteSpaceRuns false rest
  end.

Definition sanitizeInput (input : JsString) : JsString :=
  replaceWhiteSpaceRuns false (trim input).

End Validation.

(** ** helpers/constants.ts *)

Inductive TaskStatus := pending | in_progress | completed.
Inductive Priority := low | medium | high.
Inductive ThreadStatus := active | archived.
Inductive Role := user | assistant.

Definition TaskStatus_eqb (a b : TaskStatus) : bool :=
  match a, b with
  | pending, pending | in_progress, in_progress | completed, completed => true
  | _, _ => false
  end.

Module Constants.

Definition MAX_TASKS_PER_USER : nat := 1000.
Definition MAX_TITLE_LENGTH : nat := 200.
Definition MAX_DESCRIPTION_LENGTH : nat := 5000.
Definition MAX_THREADS_PER_USER : nat := 50.
Definition MAX_THREAD_TITLE_LENGTH : nat := 100.
Definition MAX_MESSAGE_LENGTH : nat := 10000.
Definition MAX_MESSAGES_PER_THREAD : nat := 1000.
Definition DEFAULT_PAGE_SIZE : nat := 50.
Definition MAX_PAGE_SIZE : nat := 100.

Definition VALID_STATUS_TRANSITIONS (from : TaskStatus) : list TaskStatus :=
  match from with
  | pending => [pending; in_progress; completed]
  | in_progress => [in_progress; completed; pending]
  | completed => [completed; pending]
  end.

End Constants.

(** Membership test on a row of the transition table
    ([VALID_STATUS_TRANSITIONS[from].includes(to)]). *)
Definition transitionAllowed (from to : TaskStatus) : bool :=
  existsb (TaskStatus_eqb to) (Constants.VALID_STATUS_TRANSITIONS from).

(** ** Documents (the schema of the three tables) *)

Module Task.
Record t := mk {
  _id : Id;
  userId : UserId;
  title : JsString;
  description : option JsString;
  status : TaskStatus;
  priority : option Priority;
  dueDate : option JsNumber;
  completedAt : option Z;
  createdAt : Z;
  updatedAt : Z
}.
End Task.

Module Thread.
Record t := mk {
  _id : Id;
  userId : UserId;
  title : option JsString;
  status : ThreadStatus;
  createdAt : Z;
  updatedAt : Z
}.
End Thread.

Module Message.
Record t := mk {
  _id : Id;
  threadId : Id;
  userId : UserId;
  role : Role;
  content : JsString;
  createdAt : Z
}.
End Message.

(** One turn of the conversation handed to the agent. *)
Record Turn := { turnRole : Role; turnContent : JsString }.

(** ** Errors

    The handlers throw [Error] objects that differ by their message; the
    constructors name the classes of the error taxonomy:
    - [Unauthenticated]: "Not authenticated";
    - [RateLimited s]: "Rate limit exceeded. Please try again in s seconds.";
    - [NotFound]: "Task not found", "Thread not found";
    - [Forbidden]: "Not authorized to ... this task/thread";
    - [InvalidInput c]: the message naming the violated constraint [c];
    - [QuotaExceeded]: "Maximum N ... reached".

    Two more are thrown by the platform, not by the handlers:
    - [NotAFunctionReference]: "... is not a functionReference", of
      [ctx.runQuery] and [ctx.runMutation];
    - [AgentError]: whatever a rejected [generate] carries. *)

Inductive Constraint :=
| TaskTitleLength
| TaskDescriptionLength
| DueDateRange
| ThreadTitleLength
| MessageContentLength.

Inductive Error :=
| Unauthenticated
| RateLimited (retrySeconds : Z)
| NotFound
| Forbidden
| InvalidInput (c : Constraint)
| QuotaExceeded
| NotAFunctionReference
| AgentError.

Inductive Result (A : Type) :=
| Ok (a : A)
| Err (e : Error).

Arguments Ok {A} a.
Arguments Err {A} e.

Definition isOk {A} (r : Result A) : bool :=
  match r with Ok _ => true | Err _ => false end.

Definition isInvalidInput {A} (r : Result A) : bool :=
  match r with Err (InvalidInput _) => true | _ => false end.

(** ** External collaborators *)

(** What [rateLimiter.limit] resolves to. *)
Record LimitStatus := { ok : bool; retryAfter : Z }.

(** The services the handlers call but the repository does not implement:
    the rate limiter (its state, and [limit] on a named bucket and a key at a
    time), the chat agent (the text it answers, or [None] when the call is
    rejected) and the locale's date formatting. *)
Class Platform : Type := {
  Limiter : Type;
  limit : Limiter -> string -> UserId -> Z -> LimitStatus * Limiter;
  generate : list Turn -> option JsString;
  toLocaleDateString : JsNumber -> JsString
}.

(** [Math.ceil(x / 1000)] on integers. *)
Definition ceilSeconds (x : Z) : Z := (- ((- x) / 1000))%Z.

(** A write of [ctx.db]: an [insert], a [patch] or a [delete], with the table
    and the id of the document. *)
Inductive Write :=
| Inserted (table : string) (id : Id)
| Patched (table : string) (id : Id)
| Deleted (table : string) (id : Id).

(** The request context: who [authComponent.getAuthUser] finds, and the clock. *)
Module Ctx.
Record t := mk { auth : option UserId; now : Z }.
End Ctx.

(** ** The world a request runs in, and the handler monad *)

Section WorldAndMonad.
Context {P : Platform}.

(** The three tables, the id counter of the store, the state of the rate
    limiter, the prompts sent to the agent so far (latest first), and the
    journal of the writes of [ctx.db] (oldest first). *)
Record World := mkWorld {
  tasks : list Task.t;
  threads : list Thread.t;
  messages : list Message.t;
  nextId : Id;
  limiter : Limiter;
  agentCalls : list (list Turn);
  journal : list Write
}.

Definition withTasks (w : World) (ts : list Task.t) : World :=
  mkWorld ts (threads w) (messages w) (nextId w) (limiter w) (agentCalls w) (journal w).

Definition withThreads (w : World) (ths : list Thread.t) : World :=
  mkWorld (tasks w) ths (messages w) (nextId w) (limiter w) (agentCalls w) (journal w).

Definition withMessages (w : World) (ms : list Message.t) : World :=
  mkWorld (tasks w) (threads w) ms (nextId w) (limiter w) (agentCalls w) (journal w).

Definition withNextId (w : World) (n : Id) : World :=
  mkWorld (tasks w) (threads w) (messages w) n (limiter w) (agentCalls w) (journal w).

Definition withLimiter (w : World) (l : Limiter) : World :=
  mkWorld (tasks w) (threads w) (messages w) (nextId w) l (agentCalls w) (journal w).

Definition withAgentCalls (w : World) (cs : list (list Turn)) : World :=
  mkWorld (tasks w) (threads w) (messages w) (nextId w) (limiter w) cs (journal w).

Definition withJournal (w : World) (j : list Write) : World :=
  mkWorld (tasks w) (threads w) (messages w) (nextId w) (limiter w) (agentCalls w) j.

(** The write [x] is made: it goes to the end of the journal. *)
Definition logged (w : World) (x : Write) : World :=
  withJournal w (journal w ++ [x]).

(** A handler: from the world to its result and the world it leaves. *)
Definition M (A : Type) : Type := World -> Result A * World.

Definition ret {A} (a : A) : M A := fun w => (Ok a, w).

Definition throw {A} (e : Error) : M A := fun w => (Err e, w).

Definition bind {A B} (c : M A) (k : A -> M B) : M B :=
  fun w =>
    match c w with
    | (Ok a, w') => k a w'
    | (Err e, w') => (Err e, w')
    end.

(** [if (cond) throw e]. *)
Definition throwIf (cond : bool) (e : Error) : M unit :=
  if cond then throw e else ret tt.

(** [if (!x) throw e], for a value that may be [null]. *)
Definition orThrow {A} (x : option A) (e : Error) : M A :=
  match x with
  | Some a => ret a
  | None => throw e
  end.

(** [authComponent.getAuthUser(ctx)] followed by the check for [null]. *)
Definition getAuthUser (ctx : Ctx.t) : M UserId :=
  orThrow (Ctx.auth ctx) Unauthenticated.

(** [rateLimiter.limit(ctx, name, { key })] followed by the check of [ok]. *)
Definition rateLimit (name : string) (key : UserId) (now : Z) : M unit :=
  fun w =>
    let (rateLimitStatus, l) := limit (limiter w) name key now in
    if ok rateLimitStatus
    then (Ok tt, withLimiter w l)
    else (Err (RateLimited (ceilSeconds (retryAfter rateLimitStatus))), withLimiter w l).

(** [taskAssistant.generate(ctx, { messages })] and the [text] of what it
    resolves to; a rejected call throws. *)
Definition callAgent (prompt : list Turn) : M JsString :=
  fun w =>
    let w' := withAgentCalls w (prompt :: agentCalls w) in
    match generate prompt with
    | Some text => (Ok text, w')
    | None => (Err AgentError, w')
    end.

(** [mutation({ handler })]: a mutation runs as one transaction. When the
    handler throws, nothing it wrote is kept: no document, and no token of the
    rate limiter either, which writes in the same transaction. *)
Definition mutation {A} (handler : M A) : M A :=
  fun w =>
    match handler w with
    | (Ok a, w') => (Ok a, w')
    | (Err e, _) => (Err e, w)
    end.

(** What [query({ args, handler })] and [mutation({ args, handler })] return:
    the registered function, whose handler reads the clock of its own run. *)
Record Registered (Args A : Type) := registered {
  handlerOf : Z -> Args -> M A
}.

(** [ctx.runQuery(f, args)] and [ctx.runMutation(f, args)] of an action take
    a function reference, an entry of the generated [api] or [internal]
    object, and resolve it to the path of an exported function. Handed a
    registered function itself, which carries no such path, they throw
    before anything is run. *)
Definition runQuery {Args A} (f : Registered Args A) (args : Args) : M A :=
  throw NotAFunctionReference.

Definition runMutation {Args A} (f : Registered Args A) (args : Args) : M A :=
  throw NotAFunctionReference.

End WorldAndMonad.

Declare Scope handler_scope.
Delimit Scope handler_scope with handler.
Notation "x <- c ;; k" := (bind c (fun x => k))
  (at level 61, c at next level, right associativity) : handler_scope.
Notation "c ;; k" := (bind c (fun _ => k))
  (at level 61, right associativity) : handler_scope.
Open Scope handler_scope.

(** ** The store primitives ([ctx.db]) on one table *)

Section Table.
Variable Doc : Type.
Variable idOf : Doc -> Id.

Definition dbGet (id : Id) (table : list Doc) : option Doc :=
  find (fun d => Nat.eqb (idOf d) id) table.

Definition dbDelete (id : Id) (table : list Doc) : list Doc :=
  filter (fun d => negb (Nat.eqb (idOf d) id)) table.

Definition dbPatch (id : Id) (f : Doc -> Doc) (table : list Doc) : list Doc :=
  map (fun d => if Nat.eqb (idOf d) id then f d else d) table.

End Table.

(** ** db/messages.ts *)

Module Messages.
Section Messages.
Context {P : Platform}.

Record NewMessage := {
  threadId : Id;
  userId : UserId;
  role : Role;
  content : JsString
}.

Definition createMessage (now : Z) (args : NewMessage) : M Id :=
  fun w =>
    let id := nextId w in
    let doc := Message.mk id (threadId args) (userId args) (role args) (content args) now in
    (Ok id, logged (withNextId (withMessages w (messages w ++ [doc])) (S id))
              (Inserted "messages" id)).

Definition getMessageById (id : Id) : M (option Message.t) :=
  fun w => (Ok (dbGet Message._id id (messages w)), w).

(** The index [by_thread], ascending: the thread's messages, oldest first. *)
Definition byThread (thread : Id) (table : list Message.t) : list Message.t :=
  filter (fun m => Nat.eqb (Message.threadId m) thread) table.

Definition getMessagesByThread (thread : Id) : M (list Message.t) :=
  fun w => (Ok (byThread thread (messages w)), w).

Definition getRecentMessagesByThread (thread : Id) (limit : nat) : M (list Message.t) :=
  fun w => (Ok (rev (firstn limit (rev (byThread thread (messages w))))), w).

Definition countMessagesInThread (thread : Id) : M nat :=
  messages <- getMessagesByThread thread ;;
  ret (length messages).

Definition deleteMessage (id : Id) : M unit :=
  fun w => (Ok tt, logged (withMessages w (dbDelete Message._id id (messages w)))
                     (Deleted "messages" id)).

(** The loop [for (const message of messages) await ctx.db.delete(message._id)]. *)
Fixpoint deleteEach (batch : list Message.t) : M unit :=
  match batch with
  | [] => ret tt
  | message :: rest => deleteMessage (Message._id message) ;; deleteEach rest
  end.

Definition deleteMessagesByThread (thread : Id) : M nat :=
  fun w =>
    let messages := byThread thread (messages w) in
    (deleteEach messages ;; ret (length messages)) w.

End Messages.
End Messages.


(** ** db/tasks.ts and db/threads.ts

    The task and thread stores are not among the sources at hand; their
    operations are modelled from the specification of the entity store:
    [create(fields) -> id], [getById(id) -> entity | not-found],
    [listByOwner(ownerId)], [update(id, partialFields) -> updated entity] and
    [delete(id) -> void], with no authorization or validation logic, and
    creation and last-update timestamps kept by the store. *)

(** The partial fields a task update carries (the object [updates] of the
    handler). A key that is absent is [None]; [completedAt] may also be
    present with the value [undefined], which removes the field. *)
Module TaskUpdates.
Record t := mk {
  title : option JsString;
  description : option JsString;
  status : option TaskStatus;
  priority : option Priority;
  dueDate : option JsNumber;
  completedAt : option (option Z)
}.
End TaskUpdates.

Module ThreadUpdates.
Record t := mk {
  title : option JsString;
  status : option ThreadStatus
}.
End ThreadUpdates.

Definition orElse {A} (x : option A) (d : A) : A :=
  match x with
  | Some a => a
  | None => d
  end.

Module Tasks.
Section Tasks.
Context {P : Platform}.

Record NewTask := {
  userId : UserId;
  title : JsString;
  description : option JsString;
  status : TaskStatus;
  priority : option Priority;
  dueDate : option JsNumber
}.

(** Modelled from the spec: [createTask] of db/tasks.ts, the store's
    [create(fields) -> id]; the document holds the fields given and the two
    timestamps, and no completion timestamp. *)
Definition createTask (now : Z) (args : NewTask) : M Id :=
  fun w =>
    let id := nextId w in
    let doc := Task.mk id (userId args) (title args) (description args) (status args)
                 (priority args) (dueDate args) None now now in
    (Ok id, logged (withNextId (withTasks w (tasks w ++ [doc])) (S id))
              (Inserted "tasks" id)).

(** Modelled from the spec: [getTaskById] of db/tasks.ts, [getById]. *)
Definition getTaskById (id : Id) : M (option Task.t) :=
  fun w => (Ok (dbGet Task._id id (tasks w)), w).

(** Modelled from the spec: [getTasksByUser] of db/tasks.ts, [listByOwner]. *)
Definition getTasksByUser (owner : UserId) : M (list Task.t) :=
  fun w => (Ok (filter (fun t => String.eqb (Task.userId t) owner) (tasks w)), w).

(** A patch of the store: every key present replaces the field. *)
Definition applyUpdates (now : Z) (u : TaskUpdates.t) (t : Task.t) : Task.t :=
  Task.mk (Task._id t) (Task.userId t)
    (orElse (TaskUpdates.title u) (Task.title t))
    (match TaskUpdates.description u with Some d => Some d | None => Task.description t end)
    (orElse (TaskUpdates.status u) (Task.status t))
    (match TaskUpdates.priority u with Some p => Some p | None => Task.priority t end)
    (match TaskUpdates.dueDate u with Some d => Some d | None => Task.dueDate t end)
    (orElse (TaskUpdates.completedAt u) (Task.completedAt t))
    (Task.createdAt t) now.

(** Modelled from the spec: [updateTask] of db/tasks.ts,
    [update(id, partialFields) -> updated entity]. *)
Definition updateTask (now : Z) (id : Id) (updates : TaskUpdates.t) : M (option Task.t) :=
  fun w =>
    let w' := logged (withTasks w (dbPatch Task._id id (applyUpdates now updates) (tasks w)))
                (Patched "tasks" id) in
    (Ok (dbGet Task._id id (tasks w')), w').

(** Modelled from the spec: [markTaskCompleted] of db/tasks.ts; the task
    becomes [completed] and its completion time is stamped, as the spec
    requires of the complete operation. *)
Definition markTaskCompleted (now : Z) (id : Id) : M (option Task.t) :=
  updateTask now id
    (TaskUpdates.mk None None (Some completed) None None (Some (Some now))).

(** Modelled from the spec: [deleteTask] of db/tasks.ts, [delete(id) -> void]. *)
Definition deleteTask (id : Id) : M unit :=
  fun w => (Ok tt, logged (withTasks w (dbDelete Task._id id (tasks w)))
                     (Deleted "tasks" id)).

End Tasks.
End Tasks.

Module Threads.
Section Threads.
Context {P : Platform}.

Record NewThread := {
  userId : UserId;
  title : option JsString;
  status : ThreadStatus
}.

(** Modelled from the spec: [createThread] of db/threads.ts. *)
Definition createThread (now : Z) (args : NewThread) : M Id :=
  fun w =>
    let id := nextId w in
    let doc := Thread.mk id (userId args) (title args) (status args) now now in
    (Ok id, logged (withNextId (withThreads w (threads w ++ [doc])) (S id))
              (Inserted "threads" id)).

(** Modelled from the spec: [getThreadById] of db/threads.ts. *)
Definition getThreadById (id : Id) : M (option Thread.t) :=
  fun w => (Ok (dbGet Thread._id id (threads w)), w).

(** Modelled from the spec: [getThreadsByUser] of db/threads.ts. *)
Definition getThreadsByUser (owner : UserId) : M (list Thread.t) :=
  fun w => (Ok (filter (fun t => String.eqb (Thread.userId t) owner) (threads w)), w).

Definition applyUpdates (now : Z) (u : ThreadUpdates.t) (t : Thread.t) : Thread.t :=
  Thread.mk (Thread._id t) (Thread.userId t)
    (match ThreadUpdates.title u with Some x => Some x | None => Thread.title t end)
    (orElse (ThreadUpdates.status u) (Thread.status t))
    (Thread.createdAt t) now.

(** Modelled from the spec: [updateThread] of db/threads.ts. *)
Definition updateThread (now : Z) (id : Id) (updates : ThreadUpdates.t) : M (option Thread.t) :=
  fun w =>
    let w' := logged (withThreads w
                        (dbPatch Thread._id id (applyUpdates now updates) (threads w)))
                (Patched "threads" id) in
    (Ok (dbGet Thread._id id (threads w')), w').

(** Modelled from the spec: [deleteThread] of db/threads.ts. *)
Definition deleteThread (id : Id) : M unit :=
  fun w => (Ok tt, logged (withThreads w (dbDelete Thread._id id (threads w)))
                     (Deleted "threads" id)).

End Threads.
End Threads.


(** ** endpoints/tasks.ts *)

Module CreateArgs.
Record t := mk {
  title : JsString;
  description : option JsString;
  priority : option Priority;
  dueDate : option JsNumber
}.
End CreateArgs.

Module UpdateArgs.
Record t := mk {
  id : Id;
  title : option JsString;
  description : option JsString;
  status : option TaskStatus;
  priority : option Priority;
  dueDate : option JsNumber
}.
End UpdateArgs.

Module TaskEndpoints.
Section TaskEndpoints.
Context {P : Platform}.

Import Validation Constants.

Definition create (ctx : Ctx.t) (args : CreateArgs.t) : M Id :=
  mutation (
  (* 1. Authentication *)
  authUser <- getAuthUser ctx ;;
  (* 2. Rate limiting *)
  rateLimit "createTask" authUser (Ctx.now ctx) ;;
  (* 3. Validation *)
  let sanitizedTitle := sanitizeInput (CreateArgs.title args) in
  throwIf (negb (isValidTaskTitle sanitizedTitle)) (InvalidInput TaskTitleLength) ;;
  (if truthyString (CreateArgs.description args)
   then
     let sanitizedDescription := sanitizeInput (orElse (CreateArgs.description args) []) in
     throwIf (negb (isValidTaskDescription sanitizedDescription))
             (InvalidInput TaskDescriptionLength)
   else ret tt) ;;
  throwIf (truthyNumber (CreateArgs.dueDate args)
           && negb (isValidDueDate (Ctx.now ctx) (orElse (CreateArgs.dueDate args) (ofZ 0))))
          (InvalidInput DueDateRange) ;;
  (* 4. Check task limit *)
  existingTasks <- Tasks.getTasksByUser authUser ;;
  throwIf (MAX_TASKS_PER_USER <=? length existingTasks) QuotaExceeded ;;
  (* 5. Create task *)
  Tasks.createTask (Ctx.now ctx)
    {| Tasks.userId := authUser;
       Tasks.title := sanitizedTitle;
       Tasks.description :=
         if truthyString (CreateArgs.description args)
         then Some (sanitizeInput (orElse (CreateArgs.description args) []))
         else None;
       Tasks.status := pending;
       Tasks.priority := CreateArgs.priority args;
       Tasks.dueDate := CreateArgs.dueDate args |}).

Definition list (ctx : Ctx.t) : M (list Task.t) :=
  authUser <- getAuthUser ctx ;;
  Tasks.getTasksByUser authUser.

Definition get (ctx : Ctx.t) (id : Id) : M Task.t :=
  authUser <- getAuthUser ctx ;;
  found <- Tasks.getTaskById id ;;
  task <- orThrow found NotFound ;;
  (* Verify ownership *)
  throwIf (negb (String.eqb (Task.userId task) authUser)) Forbidden ;;
  ret task.

(** The object [updates], empty at first and filled key by key. *)
Definition noUpdates : TaskUpdates.t :=
  TaskUpdates.mk None None None None None None.

Definition setTitle (u : TaskUpdates.t) (x : JsString) : TaskUpdates.t :=
  TaskUpdates.mk (Some x) (TaskUpdates.description u) (TaskUpdates.status u)
    (TaskUpdates.priority u) (TaskUpdates.dueDate u) (TaskUpdates.completedAt u).

Definition setDescription (u : TaskUpdates.t) (x : JsString) : TaskUpdates.t :=
  TaskUpdates.mk (TaskUpdates.title u) (Some x) (TaskUpdates.status u)
    (TaskUpdates.priority u) (TaskUpdates.dueDate u) (TaskUpdates.completedAt u).

Definition setStatus (u : TaskUpdates.t) (x : TaskStatus) : TaskUpdates.t :=
  TaskUpdates.mk (TaskUpdates.title u) (TaskUpdates.description u) (Some x)
    (TaskUpdates.priority u) (TaskUpdates.dueDate u) (TaskUpdates.completedAt u).

Definition setPriority (u : TaskUpdates.t) (x : Priority) : TaskUpdates.t :=
  TaskUpdates.mk (TaskUpdates.title u) (TaskUpdates.description u) (TaskUpdates.status u)
    (Some x) (TaskUpdates.dueDate u) (TaskUpdates.completedAt u).

Definition setDueDate (u : TaskUpdates.t) (x : JsNumber) : TaskUpdates.t :=
  TaskUpdates.mk (TaskUpdates.title u) (TaskUpdates.description u) (TaskUpdates.status u)
    (TaskUpdates.priority u) (Some x) (TaskUpdates.completedAt u).

Definition setCompletedAt (u : TaskUpdates.t) (x : option Z) : TaskUpdates.t :=
  TaskUpdates.mk (TaskUpdates.title u) (TaskUpdates.description u) (TaskUpdates.status u)
    (TaskUpdates.priority u) (TaskUpdates.dueDate u) (Some x).

(** The block [if (args.status !== undefined) { ... }] of [update]: the
    decision about [completedAt] reads [task.status], the stored status. *)
Definition statusUpdates (now : Z) (task : Task.t) (requested : option TaskStatus)
    (updates : TaskUpdates.t) : TaskUpdates.t :=
  match requested with
  | None => updates
  | Some s =>
      let updates := setStatus updates s in
      (* Set completedAt when marking as completed *)
      let updates :=
        if TaskStatus_eqb s completed && negb (TaskStatus_eqb (Task.status task) completed)
        then setCompletedAt updates (Some now) else updates in
      (* Clear completedAt when reopening *)
      if negb (TaskStatus_eqb s completed) && TaskStatus_eqb (Task.status task) completed
      then setCompletedAt updates None else updates
  end.

Definition update (ctx : Ctx.t) (args : UpdateArgs.t) : M (option Task.t) :=
  mutation (
  (* 1. Authentication *)
  authUser <- getAuthUser ctx ;;
  (* 2. Rate limiting *)
  rateLimit "updateTask" authUser (Ctx.now ctx) ;;
  (* 3. Verify ownership *)
  found <- Tasks.getTaskById (UpdateArgs.id args) ;;
  task <- orThrow found NotFound ;;
  throwIf (negb (String.eqb (Task.userId task) authUser)) Forbidden ;;
  (* 4. Validation *)
  let updates := noUpdates in
  updates <- match UpdateArgs.title args with
             | Some title =>
                 let sanitizedTitle := sanitizeInput title in
                 throwIf (negb (isValidTaskTitle sanitizedTitle))
                         (InvalidInput TaskTitleLength) ;;
                 ret (setTitle updates sanitizedTitle)
             | None => ret updates
             end ;;
  updates <- match UpdateArgs.description args with
             | Some description =>
                 let sanitizedDescription := sanitizeInput description in
                 throwIf (negb (isValidTaskDescription sanitizedDescription))
                         (InvalidInput TaskDescriptionLength) ;;
                 ret (setDescription updates sanitizedDescription)
             | None => ret updates
             end ;;
  let updates := statusUpdates (Ctx.now ctx) task (UpdateArgs.status args) updates in
  let updates := match UpdateArgs.priority args with
                 | Some p => setPriority updates p
                 | None => updates
                 end in
  updates <- match UpdateArgs.dueDate args with
             | Some dueDate =>
                 throwIf (negb (isValidDueDate (Ctx.now ctx) dueDate))
                         (InvalidInput DueDateRange) ;;
                 ret (setDueDate updates dueDate)
             | None => ret updates
             end ;;
  (* 5. Update task *)
  Tasks.updateTask (Ctx.now ctx) (UpdateArgs.id args) updates).

Definition complete (ctx : Ctx.t) (id : Id) : M (option Task.t) :=
  mutation (
  authUser <- getAuthUser ctx ;;
  rateLimit "updateTask" authUser (Ctx.now ctx) ;;
  found <- Tasks.getTaskById id ;;
  task <- orThrow found NotFound ;;
  throwIf (negb (String.eqb (Task.userId task) authUser)) Forbidden ;;
  Tasks.markTaskCompleted (Ctx.now ctx) id).

Definition remove (ctx : Ctx.t) (id : Id) : M unit :=
  mutation (
  authUser <- getAuthUser ctx ;;
  rateLimit "deleteTask" authUser (Ctx.now ctx) ;;
  found <- Tasks.getTaskById id ;;
  task <- orThrow found NotFound ;;
  throwIf (negb (String.eqb (Task.userId task) authUser)) Forbidden ;;
  Tasks.deleteTask id).

End TaskEndpoints.
End TaskEndpoints.


(** ** The assistant endpoints (threads, messages, and the AI send) *)

Module UpdateThreadArgs.
Record t := mk {
  threadId : Id;
  title : option JsString;
  status : option ThreadStatus
}.
End UpdateThreadArgs.

Module SendMessageArgs.
Record t := mk {
  threadId : Id;
  content : JsString
}.
End SendMessageArgs.

Module SendMessageResult.
Record t := mk {
  userMessageId : Id;
  assistantMessageId : Id;
  response : JsString
}.
End SendMessageResult.

Module AssistantEndpoints.
Section AssistantEndpoints.
Context {P : Platform}.

Import Validation Constants.

Definition createThread (ctx : Ctx.t) (title : option JsString) : M Id :=
  mutation (
  authUser <- getAuthUser ctx ;;
  rateLimit "createThread" authUser (Ctx.now ctx) ;;
  (* Check thread limit *)
  existingThreads <- Threads.getThreadsByUser authUser ;;
  throwIf (MAX_THREADS_PER_USER <=? length existingThreads) QuotaExceeded ;;
  (* Validate title if provided *)
  sanitizedTitle <- (if truthyString title
                     then
                       let sanitizedTitle := sanitizeInput (orElse title []) in
                       throwIf (negb (isValidThreadTitle sanitizedTitle))
                               (InvalidInput ThreadTitleLength) ;;
                       ret (Some sanitizedTitle)
                     else ret None) ;;
  Threads.createThread (Ctx.now ctx)
    {| Threads.userId := authUser;
       Threads.title := sanitizedTitle;
       Threads.status := active |}).

Definition listThreads (ctx : Ctx.t) : M (list Thread.t) :=
  authUser <- getAuthUser ctx ;;
  Threads.getThreadsByUser authUser.

Definition getThread (ctx : Ctx.t) (threadId : Id) : M (Thread.t * list Message.t) :=
  authUser <- getAuthUser ctx ;;
  found <- Threads.getThreadById threadId ;;
  thread <- orThrow found NotFound ;;
  throwIf (negb (String.eqb (Thread.userId thread) authUser)) Forbidden ;;
  messages <- Messages.getMessagesByThread threadId ;;
  ret (thread, messages).

Definition updateThread (ctx : Ctx.t) (args : UpdateThreadArgs.t) : M (option Thread.t) :=
  mutation (
  authUser <- getAuthUser ctx ;;
  found <- Threads.getThreadById (UpdateThreadArgs.threadId args) ;;
  thread <- orThrow found NotFound ;;
  throwIf (negb (String.eqb (Thread.userId thread) authUser)) Forbidden ;;
  let updates := ThreadUpdates.mk None None in
  updates <- match UpdateThreadArgs.title args with
             | Some title =>
                 let sanitizedTitle := sanitizeInput title in
                 throwIf (negb (isValidThreadTitle sanitizedTitle))
                         (InvalidInput ThreadTitleLength) ;;
                 ret (ThreadUpdates.mk (Some sanitizedTitle) (ThreadUpdates.status updates))
             | None => ret updates
             end ;;
  let updates := match UpdateThreadArgs.status args with
                 | Some s => ThreadUpdates.mk (ThreadUpdates.title updates) (Some s)
                 | None => updates
                 end in
  Threads.updateThread (Ctx.now ctx) (UpdateThreadArgs.threadId args) updates).

Definition deleteThread (ctx : Ctx.t) (threadId : Id) : M unit :=
  mutation (
  authUser <- getAuthUser ctx ;;
  found <- Threads.getThreadById threadId ;;
  thread <- orThrow found NotFound ;;
  throwIf (negb (String.eqb (Thread.userId thread) authUser)) Forbidden ;;
  (* Delete all messages first *)
  Messages.deleteMessagesByThread threadId ;;
  (* Then delete the thread *)
  Threads.deleteThread threadId).

(** The names of the statuses and priorities, as the template prints them. *)
Definition statusName (s : TaskStatus) : JsString :=
  match s with
  | pending => js "pending"
  | in_progress => js "in_progress"
  | completed => js "completed"
  end.

Definition priorityName (p : Priority) : JsString :=
  match p with
  | low => js "low"
  | medium => js "medium"
  | high => js "high"
  end.

(** One bullet of the task summary. *)
Definition taskLine (t : Task.t) : JsString :=
  js "- [" ++ statusName (Task.status t) ++ js "] " ++ Task.title t
  ++ match Task.priority t with
     | Some p => js " (" ++ priorityName p ++ js " priority)"
     | None => []
     end
  ++ (if truthyNumber (Task.dueDate t)
      then js " (due: " ++ toLocaleDateString (orElse (Task.dueDate t) (ofZ 0)) ++ js ")"
      else []).

(** [lines.join("\n")]. *)
Fixpoint joinLines (lines : list JsString) : JsString :=
  match lines with
  | [] => []
  | [l] => l
  | l :: rest => l ++ 10%N :: joinLines rest
  end.

Definition taskContext (tasks : list Task.t) : JsString :=
  if 0 <? length tasks
  then [10%N; 10%N] ++ js "Current user tasks:" ++ [10%N] ++ joinLines (map taskLine tasks)
  else [10%N; 10%N] ++ js "The user has no tasks yet.".

(** The five functions the module registers in local constants, for the use
    of [sendMessage]. *)
Definition internalGetThreadById : Registered Id (option Thread.t) :=
  registered (fun _ threadId => Threads.getThreadById threadId).

Definition internalCountMessagesInThread : Registered Id nat :=
  registered (fun _ threadId => Messages.countMessagesInThread threadId).

Definition internalCreateMessage : Registered Messages.NewMessage Id :=
  registered (fun now args =>
                mutation (Messages.createMessage now
                            {| Messages.threadId := Messages.threadId args;
                               Messages.userId := Messages.userId args;
                               Messages.role := Messages.role args;
                               Messages.content := Messages.content args |})).

Definition internalGetTasksByUser : Registered UserId (list Task.t) :=
  registered (fun _ userId => Tasks.getTasksByUser userId).

Definition internalGetRecentMessagesByThread : Registered (Id * nat) (list Message.t) :=
  registered (fun _ args => Messages.getRecentMessagesByThread (fst args) (snd args)).

(** An action: what it has done when it throws stays done. *)
Definition sendMessage (ctx : Ctx.t) (args : SendMessageArgs.t) : M SendMessageResult.t :=
  let threadId := SendMessageArgs.threadId args in
  (* 1. Get authenticated user *)
  authUser <- getAuthUser ctx ;;
  (* 2. Rate limiting *)
  rateLimit "sendMessage" authUser (Ctx.now ctx) ;;
  (* 3. Validate message content *)
  let sanitizedContent := sanitizeInput (SendMessageArgs.content args) in
  throwIf (negb (isValidMessageContent sanitizedContent))
          (InvalidInput MessageContentLength) ;;
  (* 4. Verify thread ownership *)
  found <- runQuery internalGetThreadById threadId ;;
  thread <- orThrow found NotFound ;;
  throwIf (negb (String.eqb (Thread.userId thread) authUser)) Forbidden ;;
  (* 5. Check message limit *)
  messageCount <- runQuery internalCountMessagesInThread threadId ;;
  throwIf (MAX_MESSAGES_PER_THREAD <=? messageCount) QuotaExceeded ;;
  (* 6. Save user message *)
  userMessageId <- runMutation internalCreateMessage
                     {| Messages.threadId := threadId;
                        Messages.userId := authUser;
                        Messages.role := user;
                        Messages.content := sanitizedContent |} ;;
  (* 7. Get user's current tasks for context *)
  tasks <- runQuery internalGetTasksByUser authUser ;;
  (* 8. Get previous messages for context *)
  previousMessages <- runQuery internalGetRecentMessagesByThread (threadId, 10) ;;
  (* 9. Build conversation history *)
  let conversationHistory :=
    map (fun m => {| turnRole := Message.role m; turnContent := Message.content m |})
        (filter (fun m => negb (Nat.eqb (Message._id m) userMessageId)) previousMessages) in
  (* 10. Call AI agent *)
  aiResponse <- callAgent
                  (conversationHistory
                   ++ [{| turnRole := user;
                          turnContent := sanitizedContent ++ taskContext tasks |}]) ;;
  (* 11. Save AI response *)
  assistantMessageId <- runMutation internalCreateMessage
                          {| Messages.threadId := threadId;
                             Messages.userId := authUser;
                             Messages.role := assistant;
                             Messages.content := aiResponse |} ;;
  ret (SendMessageResult.mk userMessageId assistantMessageId aiResponse).

End AssistantEndpoints.
End AssistantEndpoints.


(** ** What a handler returns and what it leaves *)

Section Outcome.
Context {P : Platform}.

Definition outcome {A} (c : M A) (w : World) : Result A := fst (c w).

Definition after {A} (c : M A) (w : World) : World := snd (c w).

(** The limiter would let this call through. *)
Definition admits (w : World) (name : string) (key : UserId) (now : Z) : bool :=
  ok (fst (limit (limiter w) name key now)).

(** The store proper: the three tables. *)
Definition sameTables (w w' : World) : Prop :=
  tasks w' = tasks w /\ threads w' = threads w /\ messages w' = messages w.

(** How a call by someone who is not the owner must end: with [Forbidden]
    once the limiter has let it through ([admitted]), and in no case with
    [NotFound], with success, or with a change to the tables. *)
Definition refusedAsForbidden {A} (admitted : bool) (c : M A) (w : World) : Prop :=
  (admitted = true -> outcome c w = Err Forbidden)
  /\ outcome c w <> Err NotFound
  /\ isOk (outcome c w) = false
  /\ sameTables w (after c w).

End Outcome.

(** A due date between 24 hours before [now] and 5 years of 365 days after:
    a finite number in that interval. *)
Definition dueDateInRange (now : Z) (dueDate : JsNumber) : Prop :=
  match dueDate with
  | Finite q =>
      (inject_Z (now - 24 * 60 * 60 * 1000) <= q)%Q
      /\ (q <= inject_Z (now + 5 * 365 * 24 * 60 * 60 * 1000))%Q
  | _ => False
  end.

(** What the deleting loop of [deleteMessagesByThread] leaves of the table:
    the documents of [batch] deleted by id, one after the other. *)
Definition withoutBatch (batch table : list Message.t) : list Message.t :=
  fold_left (fun acc m => dbDelete Message._id (Message._id m) acc) batch table.

(** The writes of that loop: one [delete] per document of [batch], in the
    order of [batch]. *)
Definition deletions (batch : list Message.t) : list Write :=
  map (fun m => Deleted "messages" (Message._id m)) batch.

(** No code unit of the string is white space. *)
Definition noWhiteSpace (s : JsString) : Prop :=
  Forall (fun c => Validation.isWhiteSpace c = false) s.

(** ** A platform to run examples on

    A limiter without refill: each (bucket, key) pair listed has that many
    tokens, and a pair that is not listed has none. A refused call is told
    to come back in 1500 ms. The agent answers "ok" to every prompt. *)

Definition Budget := list (string * UserId * nat).

Fixpoint spend (name : string) (key : UserId) (b : Budget) : LimitStatus * Budget :=
  match b with
  | [] => ({| ok := false; retryAfter := 1500 |}, [])
  | (n, k, tokens) :: rest =>
      if String.eqb n name && String.eqb k key
      then match tokens with
           | O => ({| ok := false; retryAfter := 1500 |}, b)
           | S tokens' => ({| ok := true; retryAfter := 0 |}, (n, k, tokens') :: rest)
           end
      else let (st, rest') := spend name key rest in (st, (n, k, tokens) :: rest')
  end.

Definition budgetPlatform : Platform := {|
  Limiter := Budget;
  limit := fun b name key _ => spend name key b;
  generate := fun _ => Some (js "ok");
  toLocaleDateString := fun _ => js "1/1/2030"
|}.


(** ** Requests and the worlds the service can be in *)

Inductive Request :=
| CreateTask (args : CreateArgs.t)
| UpdateTask (args : UpdateArgs.t)
| CompleteTask (id : Id)
| RemoveTask (id : Id)
| CreateThread (title : option JsString)
| UpdateThread (args : UpdateThreadArgs.t)
| DeleteThread (threadId : Id)
| SendMessage (args : SendMessageArgs.t).

Section Service.
Context {P : Platform}.

(** The world after a mutating request is served, whatever it returned. *)
Definition serve (ctx : Ctx.t) (r : Request) (w : World) : World :=
  match r with
  | CreateTask args => after (TaskEndpoints.create ctx args) w
  | UpdateTask args => after (TaskEndpoints.update ctx args) w
  | CompleteTask id => after (TaskEndpoints.complete ctx id) w
  | RemoveTask id => after (TaskEndpoints.remove ctx id) w
  | CreateThread title => after (AssistantEndpoints.createThread ctx title) w
  | UpdateThread args => after (AssistantEndpoints.updateThread ctx args) w
  | DeleteThread threadId => after (AssistantEndpoints.deleteThread ctx threadId) w
  | SendMessage args => after (AssistantEndpoints.sendMessage ctx args) w
  end.

(** The empty store, with the limiter in any state. *)
Definition emptyWorld (l : Limiter) : World := mkWorld [] [] [] 0 l [] [].

(** The worlds reached from the empty store by serving requests. *)
Inductive reachable : World -> Prop :=
| reachable_empty : forall l, reachable (emptyWorld l)
| reachable_serve : forall w ctx r, reachable w -> reachable (serve ctx r w).

(** The completion timestamp is present exactly on completed tasks. *)
Definition completedAtIffCompleted (t : Task.t) : Prop :=
  Task.completedAt t <> None <-> Task.status t = completed.

(** What every reachable world satisfies: the completion time of each task
    agrees with its status, and the ids of the tasks are distinct and below
    the counter of the store. *)
Definition storeInvariant (w : World) : Prop :=
  Forall completedAtIffCompleted (tasks w)
  /\ NoDup (map Task._id (tasks w))
  /\ Forall (fun id => id < nextId w) (map Task._id (tasks w)).

End Service.

(** ** Example data *)

Definition alice : UserId := "alice"%string.
Definition bob : UserId := "bob"%string.

(** A clock value, and the contexts of the two callers at that time. *)
Definition noon : Z := 1700000000000.
Definition asAlice : Ctx.t := Ctx.mk (Some alice) noon.
Definition asBob : Ctx.t := Ctx.mk (Some bob) noon.

Definition doneTask : Task.t :=
  Task.mk 0 alice (js "ship it") None completed None None
    (Some 1699999990000%Z) 1699999000000%Z 1699999990000%Z.

Definition openTask : Task.t :=
  Task.mk 1 alice (js "write tests") None pending (Some high) None
    None 1699999000000%Z 1699999000000%Z.

Definition aliceThread : Thread.t :=
  Thread.mk 2 alice (Some (js "planning")) active 1699999000000%Z 1699999000000%Z.

Definition messageOf (n : nat) : Message.t :=
  Message.mk (3 + n) 2 alice user (js "hello") 1699999000000%Z.

(** Alice's two tasks and her thread holding [count] messages, with the
    limiter's budget [b]. *)
Definition exampleWorld (b : Budget) (count : nat) : @World budgetPlatform :=
  @mkWorld budgetPlatform [doneTask; openTask] [aliceThread]
    (map messageOf (seq 0 count)) (3 + count) b [] [].

(** A budget that lets every bucket of either caller through a few times,
    and one with nothing left. *)
Definition plenty : Budget :=
  [("createTask", alice, 5); ("updateTask", alice, 5); ("deleteTask", alice, 5);
   ("createThread", alice, 2); ("sendMessage", alice, 3);
   ("createTask", bob, 5); ("updateTask", bob, 5); ("deleteTask", bob, 5);
   ("createThread", bob, 2); ("sendMessage", bob, 3)]%string.

Definition exhausted : Budget := [].


(** ** db/dashboard.ts and endpoints/dashboard.ts *)

Module TaskStats.
Record t := mk { pending : nat; in_progress : nat; completed : nat }.
End TaskStats.

(** What [loadSummary] returns; [perTable] lists its keys in the order in
    which the loop sets them. *)
Module Summary.
Record t := mk {
  perTable : list (string * nat);
  totalRecords : nat;
  taskStats : option TaskStats.t
}.
End Summary.

Module Dashboard.
Section Dashboard.
Context {P : Platform}.

Definition TABLES : list string := ["tasks"; "threads"; "messages"]%string.

(** [ctx.db.query(table).collect()]; the loop of [loadSummary] reads only the
    field [userId] of the records, so a record is given by its owner. *)
Definition collectOwners (table : string) (w : World) : list UserId :=
  if String.eqb table "tasks" then map Task.userId (tasks w)
  else if String.eqb table "threads" then map Thread.userId (threads w)
  else if String.eqb table "messages" then map Message.userId (messages w)
  else [].

(** The test [userId ? ... : ...] on an optional string. *)
Definition truthyUser (userId : option UserId) : bool :=
  match userId with
  | Some (String _ _) => true
  | _ => false
  end.

Definition loadSummary (userId : option UserId) : M Summary.t :=
  fun w =>
    let perTable :=
      map (fun table =>
             let records := collectOwners table w in
             let scopedRecords :=
               if truthyUser userId
               then filter (fun owner => String.eqb owner (orElse userId EmptyString)) records
               else records in
             (table, length scopedRecords))
          TABLES in
    (* Get detailed task stats if userId provided *)
    let taskStats :=
      if truthyUser userId
      then
        let tasks :=
          filter (fun t => String.eqb (Task.userId t) (orElse userId EmptyString)) (tasks w) in
        Some (TaskStats.mk
                (length (filter (fun t => TaskStatus_eqb (Task.status t) pending) tasks))
                (length (filter (fun t => TaskStatus_eqb (Task.status t) in_progress) tasks))
                (length (filter (fun t => TaskStatus_eqb (Task.status t) completed) tasks)))
      else None in
    (Ok (Summary.mk perTable (fold_left Nat.add (map snd perTable) 0) taskStats), w).

(** The index [by_user] in descending order, cut after [limit] documents. *)
Definition loadRecent (userId : UserId) (limit : nat) : M (list Task.t) :=
  fun w =>
    (Ok (firstn limit (rev (filter (fun t => String.eqb (Task.userId t) userId) (tasks w)))), w).

End Dashboard.
End Dashboard.

Module DashboardEndpoints.
Section DashboardEndpoints.
Context {P : Platform}.

Definition summary (ctx : Ctx.t) : M Summary.t :=
  authUser <- getAuthUser ctx ;;
  Dashboard.loadSummary (Some authUser).

(** [limit] is a count of documents; [args.limit ?? 5]. *)
Definition recent (ctx : Ctx.t) (limit : option nat) : M (list Task.t) :=
  authUser <- getAuthUser ctx ;;
  Dashboard.loadRecent authUser (orElse limit 5).

End DashboardEndpoints.
End DashboardEndpoints.

(** ** Notions used by the further properties *)

(** The last [n] elements of a list, in the order of the list. *)
Definition lastN {A} (n : nat) (l : list A) : list A := skipn (length l - n) l.

(** Every code unit of the string is white space. *)
Definition allWhiteSpace (s : JsString) : Prop :=
  Forall (fun c => Validation.isWhiteSpace c = true) s.

(** A string is trimmed when neither end of it is white space. *)
Definition trimmed (s : JsString) : Prop :=
  match s with [] => True | c :: _ => Validation.isWhiteSpace c = false end
  /\ match rev s with [] => True | c :: _ => Validation.isWhiteSpace c = false end.

(** No two neighbours in the string are both white space. *)
Fixpoint noAdjacentWhiteSpace (s : JsString) : Prop :=
  match s with
  | c :: (d :: _) as rest =>
      (Validation.isWhiteSpace c && Validation.isWhiteSpace d = false)
      /\ noAdjacentWhiteSpace rest
  | _ => True
  end.

(** The only white space in the string is the space U+0020. *)
Definition onlySpaces (s : JsString) : Prop :=
  Forall (fun c => Validation.isWhiteSpace c = true -> c = 32%N) s.

Section FurtherNotions.
Context {P : Platform}.

(** Document ids are distinct within each table and below the counter. *)
Definition wellFormed (w : World) : Prop :=
  NoDup (map Task._id (tasks w))
  /\ NoDup (map Thread._id (threads w))
  /\ NoDup (map Message._id (messages w))
  /\ Forall (fun id => id < nextId w) (map Task._id (tasks w))
  /\ Forall (fun id => id < nextId w) (map Thread._id (threads w))
  /\ Forall (fun id => id < nextId w) (map Message._id (messages w)).

(** The fields as the handlers validate them before storing. *)
Definition taskFieldsValid (t : Task.t) : Prop :=
  1 <= length (Task.title t) <= 200
  /\ Validation.sanitizeInput (Task.title t) = Task.title t
  /\ (forall d, Task.description t = Some d ->
                length d <= 5000 /\ Validation.sanitizeInput d = d).

Definition threadFieldsValid (t : Thread.t) : Prop :=
  forall title, Thread.title t = Some title ->
                1 <= length title <= 100 /\ Validation.sanitizeInput title = title.

Definition storedFieldsValid (w : World) : Prop :=
  Forall taskFieldsValid (tasks w) /\ Forall threadFieldsValid (threads w).

(** A handler keeps [Inv], and a value it returns satisfies [Q]. *)
Definition keeps {A} (Inv : World -> Prop) (c : M A) (Q : A -> Prop) : Prop :=
  forall w, Inv w -> Inv (after c w) /\ (forall a, outcome c w = Ok a -> Q a).

(** The agent was not called. *)
Definition agentSilent (w w' : World) : Prop := agentCalls w' = agentCalls w.

(** A call the limiter has refused: it is told to wait, and neither a table
    nor the agent has seen it. *)
Definition rateLimitedWith {A} (wait : Z) (c : M A) (w : World) : Prop :=
  outcome c w = Err (RateLimited (ceilSeconds wait))
  /\ sameTables w (after c w)
  /\ agentSilent w (after c w).

(** A call that costs a token of [bucket] exactly when it succeeds: then the
    limiter is in the state its one request on [bucket] produced; a call that
    fails leaves the whole world, the limiter included, as it was. *)
Definition chargedOnSuccess {A} (bucket : string) (key : UserId) (now : Z) (c : M A)
    (w : World) : Prop :=
  (isOk (outcome c w) = true -> limiter (after c w) = snd (limit (limiter w) bucket key now))
  /\ (isOk (outcome c w) = false -> after c w = w).

End FurtherNotions.

(** ** Further example data *)

(** A world the service reaches from the empty store: Alice creates a task
    (id 0) and a thread (id 1), then Bob creates a task (id 2). *)
Definition storyWorld : @World budgetPlatform :=
  @serve budgetPlatform asBob
    (CreateTask (CreateArgs.mk (js "call Alice") None None None))
    (@serve budgetPlatform asAlice (CreateThread (Some (js "planning")))
       (@serve budgetPlatform asAlice
          (CreateTask (CreateArgs.mk (js "draft") None None None))
          (@emptyWorld budgetPlatform plenty))).



(** * Properties *)

(** ** The model at work *)

Example sanitizeInput_collapses :
  Validation.sanitizeInput (js "  a   b  ") = js "a b".
Proof. reflexivity. Qed.

Example sanitizeInput_idempotent_here :
  Validation.sanitizeInput (Validation.sanitizeInput (js "  a   b  ")) = js "a b".
Proof. reflexivity. Qed.

Example rate_limited_message_rounds_up :
  outcome (TaskEndpoints.remove asAlice 1) (exampleWorld exhausted 0) = Err (RateLimited 2).
Proof. reflexivity. Qed.

Example complete_stamps_the_clock :
  option_map Task.completedAt
    (dbGet Task._id 1 (tasks (after (TaskEndpoints.complete asAlice 1) (exampleWorld plenty 0))))
  = Some (Some noon).
Proof. reflexivity. Qed.

Example sendMessage_throws_on_a_plain_call :
  outcome (AssistantEndpoints.sendMessage asAlice (SendMessageArgs.mk 2 (js "hi")))
    (exampleWorld plenty 1)
  = Err NotAFunctionReference.
Proof. reflexivity. Qed.

Example failed_create_gives_the_token_back :
  let blank := CreateArgs.mk (js "   ") None None None in
  outcome (TaskEndpoints.create asAlice blank) (exampleWorld plenty 0)
  = Err (InvalidInput TaskTitleLength)
  /\ after (TaskEndpoints.create asAlice blank) (exampleWorld plenty 0) = exampleWorld plenty 0.
Proof. split; reflexivity. Qed.

Example deleteThread_writes_in_order :
  journal (after (AssistantEndpoints.deleteThread asAlice 2) (exampleWorld plenty 2))
  = [Deleted "messages" 3; Deleted "messages" 4; Deleted "threads" 2].
Proof. reflexivity. Qed.

(** ** Running the common steps *)

Section Running.
Context {P : Platform}.

Lemma rateLimit_run (w : World) (name : string) (key : UserId) (now : Z) :
  rateLimit name key now w =
  (if admits w name key now then Ok tt
   else Err (RateLimited (ceilSeconds (retryAfter (fst (limit (limiter w) name key now))))),
   withLimiter w (snd (limit (limiter w) name key now))).
Proof.
  unfold rateLimit, admits.
  destruct (limit (limiter w) name key now) as [st l]; simpl.
  destruct (ok st); reflexivity.
Qed.

(** A mutation returns what its handler returns, and keeps what the handler
    wrote only when the handler returns. *)
Lemma mutation_run {A} (handler : M A) (w : World) :
  mutation handler w
  = (outcome handler w, if isOk (outcome handler w) then after handler w else w).
Proof.
  unfold mutation, outcome, after.
  destruct (handler w) as [[a | e] w']; reflexivity.
Qed.

Lemma mutation_outcome {A} (handler : M A) (w : World) :
  outcome (mutation handler) w = outcome handler w.
Proof. unfold outcome at 1. now rewrite mutation_run. Qed.

Lemma mutation_after {A} (handler : M A) (w : World) :
  after (mutation handler) w = if isOk (outcome handler w) then after handler w else w.
Proof. unfold after at 1. now rewrite mutation_run. Qed.

Lemma refusedAsForbidden_mutation {A} (admitted : bool) (handler : M A) (w : World) :
  refusedAsForbidden admitted handler w -> refusedAsForbidden admitted (mutation handler) w.
Proof.
  unfold refusedAsForbidden. rewrite mutation_outcome, mutation_after.
  intros [Hforbidden [Hfound [Hfail Hsame]]]. rewrite Hfail.
  repeat split; assumption.
Qed.

(** How [sendMessage] runs: after the caller, the limiter and the content,
    its first [ctx.runQuery] throws; the token taken stays taken. *)
Lemma sendMessage_run (w : World) (ctx : Ctx.t) (args : SendMessageArgs.t) :
  AssistantEndpoints.sendMessage ctx args w
  = match Ctx.auth ctx with
    | None => (Err Unauthenticated, w)
    | Some caller =>
        let status := fst (limit (limiter w) "sendMessage" caller (Ctx.now ctx)) in
        let w' := withLimiter w (snd (limit (limiter w) "sendMessage" caller (Ctx.now ctx))) in
        if ok status
        then if Validation.isValidMessageContent
                  (Validation.sanitizeInput (SendMessageArgs.content args))
             then (Err NotAFunctionReference, w')
             else (Err (InvalidInput MessageContentLength), w')
        else (Err (RateLimited (ceilSeconds (retryAfter status))), w')
    end.
Proof.
  unfold AssistantEndpoints.sendMessage, bind, getAuthUser, orThrow, ret.
  destruct (Ctx.auth ctx) as [caller |]; cbn [throw fst snd]; [| reflexivity].
  rewrite rateLimit_run. unfold admits.
  destruct (ok (fst (limit (limiter w) "sendMessage" caller (Ctx.now ctx))));
    cbn [fst snd]; [| reflexivity].
  destruct (Validation.isValidMessageContent
              (Validation.sanitizeInput (SendMessageArgs.content args)));
    reflexivity.
Qed.

Lemma not_owner_eqb (owner caller : UserId) :
  owner <> caller -> negb (String.eqb owner caller) = true.
Proof.
  intros H. destruct (String.eqb_spec owner caller); [contradiction | reflexivity].
Qed.

Lemma owner_eqb (caller : UserId) : negb (String.eqb caller caller) = false.
Proof. now rewrite String.eqb_refl. Qed.

(** The guard shared by the rate-limited task mutations: authenticate, take a
    token from [bucket], load the task, compare the owner. *)
Lemma guarded_task_mutation {A} (bucket : string) (k : Task.t -> M A)
    (w : World) (caller : UserId) (now : Z) (id : Id) (task : Task.t) :
  dbGet Task._id id (tasks w) = Some task ->
  Task.userId task <> caller ->
  refusedAsForbidden (admits w bucket caller now)
    (authUser <- getAuthUser (Ctx.mk (Some caller) now) ;;
     rateLimit bucket authUser now ;;
     found <- Tasks.getTaskById id ;;
     task <- orThrow found NotFound ;;
     throwIf (negb (String.eqb (Task.userId task) authUser)) Forbidden ;;
     k task) w.
Proof.
  intros Hget Hown.
  unfold refusedAsForbidden, outcome, after, bind, getAuthUser, orThrow, ret; simpl.
  rewrite rateLimit_run.
  destruct (admits w bucket caller now); simpl.
  - unfold Tasks.getTaskById; simpl. rewrite Hget; simpl.
    rewrite (not_owner_eqb Hown); simpl.
    repeat split; congruence.
  - repeat split; congruence.
Qed.

(** The guard of the task read: authenticate, load the task, compare the
    owner. *)
Lemma guarded_task_read {A} (k : Task.t -> M A)
    (w : World) (caller : UserId) (now : Z) (id : Id) (task : Task.t) :
  dbGet Task._id id (tasks w) = Some task ->
  Task.userId task <> caller ->
  refusedAsForbidden true
    (authUser <- getAuthUser (Ctx.mk (Some caller) now) ;;
     found <- Tasks.getTaskById id ;;
     task <- orThrow found NotFound ;;
     throwIf (negb (String.eqb (Task.userId task) authUser)) Forbidden ;;
     k task) w.
Proof.
  intros Hget Hown.
  unfold refusedAsForbidden, outcome, after, bind, getAuthUser, orThrow, ret; simpl.
  unfold Tasks.getTaskById; simpl. rewrite Hget; simpl.
  rewrite (not_owner_eqb Hown); simpl.
  repeat split; congruence.
Qed.

(** The guard of the thread handlers: authenticate, load the thread, compare
    the owner; no token is taken. *)
Lemma guarded_thread_call {A} (k : Thread.t -> M A)
    (w : World) (caller : UserId) (now : Z) (id : Id) (thread : Thread.t) :
  dbGet Thread._id id (threads w) = Some thread ->
  Thread.userId thread <> caller ->
  refusedAsForbidden true
    (authUser <- getAuthUser (Ctx.mk (Some caller) now) ;;
     found <- Threads.getThreadById id ;;
     thread <- orThrow found NotFound ;;
     throwIf (negb (String.eqb (Thread.userId thread) authUser)) Forbidden ;;
     k thread) w.
Proof.
  intros Hget Hown.
  unfold refusedAsForbidden, outcome, after, bind, getAuthUser, orThrow, ret; simpl.
  unfold Threads.getThreadById; simpl. rewrite Hget; simpl.
  rewrite (not_owner_eqb Hown); simpl.
  repeat split; congruence.
Qed.

End Running.

(** ** Facts about the store primitives *)

Section TableFacts.
Variable Doc : Type.
Variable idOf : Doc -> Id.

Lemma dbGet_Some (id : Id) (table : list Doc) (d : Doc) :
  dbGet idOf id table = Some d -> In d table /\ idOf d = id.
Proof.
  unfold dbGet. intros H. apply find_some in H.
  destruct H as [Hin Hid]. apply Nat.eqb_eq in Hid. now split.
Qed.

Lemma unique_by_id (table : list Doc) (d d' : Doc) :
  NoDup (map idOf table) -> In d table -> In d' table -> idOf d = idOf d' -> d = d'.
Proof.
  induction table as [| x table IH]; simpl; intros Hnd Hd Hd' Hid; [contradiction |].
  inversion Hnd as [| ? ? Hnotin Hnd']; subst.
  destruct Hd as [-> | Hd], Hd' as [-> | Hd'].
  - reflexivity.
  - exfalso. apply Hnotin. rewrite Hid. now apply in_map.
  - exfalso. apply Hnotin. rewrite <- Hid. now apply in_map.
  - now apply IH.
Qed.

Lemma dbPatch_ids (id : Id) (f : Doc -> Doc) (table : list Doc) :
  (forall d, idOf (f d) = idOf d) ->
  map idOf (dbPatch idOf id f table) = map idOf table.
Proof.
  intros Hf. unfold dbPatch. rewrite map_map. apply map_ext.
  intros d. destruct (Nat.eqb (idOf d) id); [apply Hf | reflexivity].
Qed.

Lemma dbGet_dbPatch (id : Id) (f : Doc -> Doc) (table : list Doc) :
  (forall d, idOf (f d) = idOf d) ->
  dbGet idOf id (dbPatch idOf id f table) = option_map f (dbGet idOf id table).
Proof.
  intros Hf. unfold dbGet, dbPatch.
  induction table as [| d table IH]; simpl; [reflexivity |].
  destruct (Nat.eqb (idOf d) id) eqn:Hid.
  - rewrite Hf, Hid. reflexivity.
  - rewrite Hid. exact IH.
Qed.

Lemma Forall_dbPatch (Q : Doc -> Prop) (id : Id) (f : Doc -> Doc) (table : list Doc) :
  Forall Q table ->
  (forall d, In d table -> idOf d = id -> Q (f d)) ->
  Forall Q (dbPatch idOf id f table).
Proof.
  intros HQ Hf. unfold dbPatch. apply Forall_forall.
  intros x Hx. apply in_map_iff in Hx. destruct Hx as [d [Hd Hin]].
  destruct (Nat.eqb (idOf d) id) eqn:Hid; subst x.
  - apply Hf; [exact Hin | now apply Nat.eqb_eq].
  - rewrite Forall_forall in HQ. now apply HQ.
Qed.

Lemma Forall_dbDelete (Q : Doc -> Prop) (id : Id) (table : list Doc) :
  Forall Q table -> Forall Q (dbDelete idOf id table).
Proof.
  intros HQ. unfold dbDelete. rewrite Forall_forall in *.
  intros x Hx. apply filter_In in Hx. now apply HQ.
Qed.

Lemma NoDup_dbDelete (id : Id) (table : list Doc) :
  NoDup (map idOf table) -> NoDup (map idOf (dbDelete idOf id table)).
Proof.
  unfold dbDelete. induction table as [| d table IH]; simpl; intros Hnd; [constructor |].
  inversion Hnd as [| ? ? Hnotin Hnd']; subst.
  destruct (negb (Nat.eqb (idOf d) id)); simpl; [| now apply IH].
  constructor; [| now apply IH].
  intros Hin. apply Hnotin. apply in_map_iff in Hin. destruct Hin as [x [Hx Hin]].
  apply filter_In in Hin. rewrite <- Hx. apply in_map. tauto.
Qed.

End TableFacts.

(** ** Ownership *)

Section Ownership.
Context {P : Platform}.

(** C3. On an existing task or thread, every get, update, complete and delete
    by an authenticated caller other than the owner ends with [Forbidden];
    for the three task mutations, which take a rate-limit token first, that is
    the outcome when the limiter lets the call through. None of the seven
    handlers answers [NotFound], succeeds, or changes a table. *)
Theorem non_owner_receives_forbidden (w : World) (caller : UserId) (now : Z) :
  let ctx := Ctx.mk (Some caller) now in
  (forall id task,
      dbGet Task._id id (tasks w) = Some task ->
      Task.userId task <> caller ->
      refusedAsForbidden true (TaskEndpoints.get ctx id) w
      /\ (forall args, UpdateArgs.id args = id ->
            refusedAsForbidden (admits w "updateTask" caller now)
              (TaskEndpoints.update ctx args) w)
      /\ refusedAsForbidden (admits w "updateTask" caller now)
           (TaskEndpoints.complete ctx id) w
      /\ refusedAsForbidden (admits w "deleteTask" caller now)
           (TaskEndpoints.remove ctx id) w)
  /\ (forall threadId thread,
      dbGet Thread._id threadId (threads w) = Some thread ->
      Thread.userId thread <> caller ->
      refusedAsForbidden true (AssistantEndpoints.getThread ctx threadId) w
      /\ (forall args, UpdateThreadArgs.threadId args = threadId ->
            refusedAsForbidden true (AssistantEndpoints.updateThread ctx args) w)
      /\ refusedAsForbidden true (AssistantEndpoints.deleteThread ctx threadId) w).
Proof.
  intros ctx; split.
  - intros id task Hget Hown. split; [| split; [| split]].
    + exact (guarded_task_read _ w now id Hget Hown).
    + intros args Hid. subst id.
      apply refusedAsForbidden_mutation.
      exact (guarded_task_mutation "updateTask" _ w now (UpdateArgs.id args) Hget Hown).
    + apply refusedAsForbidden_mutation.
      exact (guarded_task_mutation "updateTask" _ w now id Hget Hown).
    + apply refusedAsForbidden_mutation.
      exact (guarded_task_mutation "deleteTask" _ w now id Hget Hown).
  - intros threadId thread Hget Hown. split; [| split].
    + exact (guarded_thread_call _ w now threadId Hget Hown).
    + intros args Hid. subst threadId. apply refusedAsForbidden_mutation.
      exact (guarded_thread_call _ w now (UpdateThreadArgs.threadId args) Hget Hown).
    + apply refusedAsForbidden_mutation.
      exact (guarded_thread_call _ w now threadId Hget Hown).
Qed.

End Ownership.

(** Bob asks for Alice's completed task and for her thread. *)
Lemma non_owner_receives_forbidden_witness :
  outcome (TaskEndpoints.get asBob 0) (exampleWorld plenty 0) = Err Forbidden
  /\ outcome (TaskEndpoints.complete asBob 0) (exampleWorld plenty 0) = Err Forbidden
  /\ outcome (AssistantEndpoints.getThread asBob 2) (exampleWorld plenty 0) = Err Forbidden.
Proof.
  destruct (@non_owner_receives_forbidden budgetPlatform (exampleWorld plenty 0) bob noon)
    as [Htask Hthread].
  assert (Hne : alice <> bob) by discriminate.
  destruct (Htask 0 doneTask eq_refl Hne) as [Hget [_ [Hcomplete _]]].
  destruct (Hthread 2 aliceThread eq_refl Hne) as [HgetThread _].
  split; [| split].
  - exact (proj1 Hget eq_refl).
  - exact (proj1 Hcomplete eq_refl).
  - exact (proj1 HgetThread eq_refl).
Defined.

(** ** The order of the steps of a task update *)

Section StepOrder.
Context {P : Platform}.

Import Validation.

(** C7, as the code has it. A task update runs its steps in the order:
    authentication, rate limit, loading the target and comparing the owner,
    and only then the validation of the fields. So an update of a task that
    is absent fails with [NotFound] and one of a task of another owner fails
    with [Forbidden] whatever fields it supplies, and an invalid title is
    reported only to the owner. *)
Theorem update_checks_owner_before_fields (w : World) (ctx : Ctx.t) (args : UpdateArgs.t) :
  let result := outcome (TaskEndpoints.update ctx args) w in
  (Ctx.auth ctx = None -> result = Err Unauthenticated)
  /\ (forall caller,
        Ctx.auth ctx = Some caller ->
        (admits w "updateTask" caller (Ctx.now ctx) = false ->
         exists seconds, result = Err (RateLimited seconds))
        /\ (admits w "updateTask" caller (Ctx.now ctx) = true ->
            (dbGet Task._id (UpdateArgs.id args) (tasks w) = None ->
             result = Err NotFound)
            /\ (forall task,
                  dbGet Task._id (UpdateArgs.id args) (tasks w) = Some task ->
                  (Task.userId task <> caller -> result = Err Forbidden)
                  /\ (Task.userId task = caller ->
                      forall title,
                        UpdateArgs.title args = Some title ->
                        isValidTaskTitle (sanitizeInput title) = false ->
                        result = Err (InvalidInput TaskTitleLength))))).
Proof.
  intros result; subst result.
  unfold outcome, TaskEndpoints.update, mutation, bind, getAuthUser, orThrow, ret.
  split.
  - intros Hauth. now rewrite Hauth.
  - intros caller Hauth. rewrite Hauth; simpl. rewrite rateLimit_run.
    split; intros Hadm; rewrite Hadm; simpl.
    + eexists; reflexivity.
    + unfold Tasks.getTaskById; simpl. split.
      * intros Hget. now rewrite Hget.
      * intros task Hget. rewrite Hget; simpl. split.
        -- intros Hown. now rewrite (not_owner_eqb Hown).
        -- intros Hown title Htitle Hbad. subst caller.
           rewrite owner_eqb; simpl. rewrite Htitle; simpl.
           now rewrite Hbad.
Qed.

End StepOrder.

(** Bob's update of Alice's task with an empty title, and her own. *)
Lemma update_checks_owner_before_fields_witness :
  outcome (TaskEndpoints.update asBob (UpdateArgs.mk 0 (Some []) None None None None))
    (exampleWorld plenty 0) = Err Forbidden
  /\ outcome (TaskEndpoints.update asAlice (UpdateArgs.mk 0 (Some []) None None None None))
       (exampleWorld plenty 0) = Err (InvalidInput TaskTitleLength).
Proof.
  split.
  - destruct (@update_checks_owner_before_fields budgetPlatform (exampleWorld plenty 0)
                asBob (UpdateArgs.mk 0 (Some []) None None None None)) as [_ H].
    destruct (H bob eq_refl) as [_ Hadm].
    destruct (Hadm eq_refl) as [_ Hfound].
    destruct (Hfound doneTask eq_refl) as [Hother _].
    apply Hother. discriminate.
  - destruct (@update_checks_owner_before_fields budgetPlatform (exampleWorld plenty 0)
                asAlice (UpdateArgs.mk 0 (Some []) None None None None)) as [_ H].
    destruct (H alice eq_refl) as [_ Hadm].
    destruct (Hadm eq_refl) as [_ Hfound].
    destruct (Hfound doneTask eq_refl) as [_ Hown].
    exact (Hown eq_refl [] eq_refl eq_refl).
Defined.

(** C7, as stated, fails: an update that supplies an empty title and targets
    a task of another owner is answered [Forbidden], not [InvalidInput]. *)
Lemma update_invalid_title_on_foreign_task :
  let args := UpdateArgs.mk 0 (Some []) None None None None in
  let result := outcome (TaskEndpoints.update asBob args) (exampleWorld plenty 0) in
  Validation.isValidTaskTitle (Validation.sanitizeInput []) = false
  /\ dbGet Task._id 0 (tasks (exampleWorld plenty 0)) = Some doneTask
  /\ Task.userId doneTask <> bob
  /\ result = Err Forbidden
  /\ isInvalidInput result = false.
Proof.
  repeat split; try reflexivity. discriminate.
Qed.

(** ** The cascade over a thread's messages *)

Section Cascade.
Context {P : Platform}.

Lemma deleteEach_run (batch : list Message.t) (w : World) :
  Messages.deleteEach batch w
  = (Ok tt, withJournal (withMessages w (withoutBatch batch (messages w)))
              (journal w ++ deletions batch)).
Proof.
  revert w. induction batch as [| m batch IH]; intros w.
  - destruct w; unfold withJournal, withMessages; simpl. now rewrite app_nil_r.
  - simpl. unfold bind, Messages.deleteMessage; simpl.
    rewrite IH. unfold withJournal, withMessages, logged; simpl.
    now rewrite <- app_assoc.
Qed.

Lemma withoutBatch_filter (batch table : list Message.t) :
  withoutBatch batch table =
  filter (fun d => negb (existsb (fun m => Nat.eqb (Message._id d) (Message._id m)) batch))
    table.
Proof.
  revert table. induction batch as [| m batch IH]; intros table; simpl.
  - induction table as [| d table IHt]; simpl; congruence.
  - rewrite IH. unfold dbDelete. clear IH.
    induction table as [| d table IHt]; simpl; [reflexivity |].
    destruct (Nat.eqb (Message._id d) (Message._id m)); simpl.
    + exact IHt.
    + destruct (existsb _ batch); simpl; congruence.
Qed.

Lemma byThread_withoutBatch (thread : Id) (table : list Message.t) :
  Messages.byThread thread (withoutBatch (Messages.byThread thread table) table) = [].
Proof.
  rewrite withoutBatch_filter.
  unfold Messages.byThread.
  assert (H : forall d, In d table ->
              Nat.eqb (Message.threadId d) thread = true ->
              existsb (fun m => Nat.eqb (Message._id d) (Message._id m))
                (filter (fun m => Nat.eqb (Message.threadId m) thread) table) = true).
  { intros d Hin Hth. apply existsb_exists. exists d. split.
    - apply filter_In. now split.
    - apply Nat.eqb_refl. }
  revert H.
  generalize (filter (fun m => Nat.eqb (Message.threadId m) thread) table) as batch.
  intros batch H.
  induction table as [| d table IH]; simpl; [reflexivity |].
  destruct (existsb _ batch) eqn:Hex; simpl.
  - apply IH. intros d' Hin. apply H. now right.
  - destruct (Nat.eqb (Message.threadId d) thread) eqn:Hth.
    + rewrite (H d (or_introl eq_refl) Hth) in Hex. discriminate.
    + apply IH. intros d' Hin. apply H. now right.
Qed.

(** With distinct ids the loop removes nothing of another thread. *)
Lemma byThread_other_withoutBatch (thread other : Id) (table : list Message.t) :
  NoDup (map Message._id table) ->
  other <> thread ->
  Messages.byThread other (withoutBatch (Messages.byThread thread table) table)
  = Messages.byThread other table.
Proof.
  intros Hnd Hneq. rewrite withoutBatch_filter. unfold Messages.byThread.
  assert (Hkeep : forall d, In d table ->
             Nat.eqb (Message.threadId d) other = true ->
             negb (existsb (fun m => Nat.eqb (Message._id d) (Message._id m))
                     (filter (fun m => Nat.eqb (Message.threadId m) thread) table)) = true).
  { intros d Hin Hth. apply negb_true_iff.
    destruct (existsb _ _) eqn:Hex; [| reflexivity].
    apply existsb_exists in Hex. destruct Hex as [m [Hm Hid]].
    apply filter_In in Hm. destruct Hm as [Hmin Hmth].
    apply Nat.eqb_eq in Hid, Hth, Hmth.
    assert (d = m) by (apply (unique_by_id Message._id table); assumption).
    subst m. congruence. }
  revert Hkeep.
  generalize (filter (fun m => Nat.eqb (Message.threadId m) thread) table) as batch.
  intros batch Hkeep. clear Hnd.
  induction table as [| d table IH]; simpl; [reflexivity |].
  destruct (Nat.eqb (Message.threadId d) other) eqn:Hth.
  - rewrite (Hkeep d (or_introl eq_refl) Hth). simpl. rewrite Hth.
    f_equal. apply IH. intros d' Hin. apply Hkeep. now right.
  - destruct (negb _); simpl; rewrite ?Hth; apply IH; intros d' Hin; apply Hkeep; now right.
Qed.

Lemma deleteMessagesByThread_run (thread : Id) (w : World) :
  Messages.deleteMessagesByThread thread w =
  (Ok (length (Messages.byThread thread (messages w))),
   withJournal
     (withMessages w (withoutBatch (Messages.byThread thread (messages w)) (messages w)))
     (journal w ++ deletions (Messages.byThread thread (messages w)))).
Proof.
  unfold Messages.deleteMessagesByThread, bind, ret.
  now rewrite deleteEach_run.
Qed.

End Cascade.

(** ** Rate limiting of the thread handlers *)

Section ThreadRateLimit.
Context {P : Platform}.

(** Updating and deleting a thread never call the rate limiter: the
    limiter's state is left as it was, the answer is the same whatever that
    state is, and it is never [RateLimited]. *)
Lemma thread_update_delete_ignore_the_limiter
    (w : World) (ctx : Ctx.t) (args : UpdateThreadArgs.t) (threadId : Id) :
  (limiter (after (AssistantEndpoints.updateThread ctx args) w) = limiter w
   /\ (forall l, outcome (AssistantEndpoints.updateThread ctx args) (withLimiter w l)
                 = outcome (AssistantEndpoints.updateThread ctx args) w)
   /\ (forall seconds,
         outcome (AssistantEndpoints.updateThread ctx args) w <> Err (RateLimited seconds)))
  /\ (limiter (after (AssistantEndpoints.deleteThread ctx threadId) w) = limiter w
      /\ (forall l, outcome (AssistantEndpoints.deleteThread ctx threadId) (withLimiter w l)
                    = outcome (AssistantEndpoints.deleteThread ctx threadId) w)
      /\ (forall seconds,
            outcome (AssistantEndpoints.deleteThread ctx threadId) w
            <> Err (RateLimited seconds))).
Proof.
  split.
  - unfold outcome, after, AssistantEndpoints.updateThread, mutation, bind, getAuthUser,
      orThrow, ret, throwIf, throw, Threads.getThreadById, Threads.updateThread.
    destruct (Ctx.auth ctx) as [caller |]; simpl;
      [| repeat split; intros; congruence].
    destruct (dbGet Thread._id (UpdateThreadArgs.threadId args) (threads w)) as [thread |];
      simpl; [| repeat split; intros; congruence].
    destruct (negb (String.eqb (Thread.userId thread) caller)); simpl;
      [repeat split; intros; congruence |].
    destruct (UpdateThreadArgs.title args) as [title |]; simpl.
    + destruct (negb (Validation.isValidThreadTitle (Validation.sanitizeInput title)));
        simpl; repeat split; intros; congruence.
    + repeat split; intros; congruence.
  - unfold outcome, after, AssistantEndpoints.deleteThread, mutation, bind, getAuthUser,
      orThrow, ret, throwIf, throw, Threads.getThreadById, Threads.deleteThread.
    destruct (Ctx.auth ctx) as [caller |]; simpl;
      [| repeat split; intros; congruence].
    destruct (dbGet Thread._id threadId (threads w)) as [thread |];
      simpl; [| repeat split; intros; congruence].
    destruct (negb (String.eqb (Thread.userId thread) caller)); simpl;
      [repeat split; intros; congruence |].
    repeat split; intros; rewrite ?deleteMessagesByThread_run; simpl; congruence.
Qed.

End ThreadRateLimit.

(** C6: every thread update and thread delete is to take a unit from a
    rate-limit bucket of the caller and to fail with [RateLimited] when the
    bucket is exhausted. The two handlers do not: with every bucket of Alice
    exhausted, so that her thread create and her task update are refused as
    rate limited, her thread update and her thread delete still succeed and
    change the store, and the limiter is not touched. *)
Theorem thread_update_delete_with_exhausted_buckets :
  let w := exampleWorld exhausted 3 in
  let rename := UpdateThreadArgs.mk 2 (Some (js "later")) (Some archived) in
  let retitle := UpdateArgs.mk 1 (Some (js "later")) None None None None in
  (forall bucket, admits w bucket alice noon = false)
  /\ outcome (AssistantEndpoints.createThread asAlice None) w = Err (RateLimited 2)
  /\ outcome (TaskEndpoints.update asAlice retitle) w = Err (RateLimited 2)
  /\ isOk (outcome (AssistantEndpoints.updateThread asAlice rename) w) = true
  /\ option_map Thread.status
       (dbGet Thread._id 2 (threads (after (AssistantEndpoints.updateThread asAlice rename) w)))
     = Some archived
  /\ limiter (after (AssistantEndpoints.updateThread asAlice rename) w) = exhausted
  /\ outcome (AssistantEndpoints.deleteThread asAlice 2) w = Ok tt
  /\ threads (after (AssistantEndpoints.deleteThread asAlice 2) w) = []
  /\ limiter (after (AssistantEndpoints.deleteThread asAlice 2) w) = exhausted.
Proof.
  repeat split; reflexivity.
Qed.

(** ** The transition table *)

Section TransitionTable.
Context {P : Platform}.

(** A status-only update by the owner succeeds for every requested status,
    whatever the stored status: the transition table is not consulted. *)
Lemma update_sets_any_status (w : World) (caller : UserId) (now : Z) (id : Id)
    (task : Task.t) (requested : TaskStatus) :
  admits w "updateTask" caller now = true ->
  dbGet Task._id id (tasks w) = Some task ->
  Task.userId task = caller ->
  exists updated,
    outcome (TaskEndpoints.update (Ctx.mk (Some caller) now)
               (UpdateArgs.mk id None None (Some requested) None None)) w
    = Ok (Some updated)
    /\ Task.status updated = requested.
Proof.
  intros Hadm Hget Hown.
  unfold outcome, TaskEndpoints.update, mutation, bind, getAuthUser, orThrow, ret;
    cbn [Ctx.auth Ctx.now UpdateArgs.id UpdateArgs.title UpdateArgs.description
         UpdateArgs.status UpdateArgs.priority UpdateArgs.dueDate].
  rewrite rateLimit_run, Hadm; cbn [fst snd].
  unfold Tasks.getTaskById; cbn [fst snd tasks withLimiter withJournal logged].
  rewrite Hget; cbn [fst snd]. subst caller. rewrite owner_eqb; cbn [throwIf ret fst snd].
  unfold Tasks.updateTask; cbn [fst snd tasks withTasks withLimiter withJournal logged].
  rewrite dbGet_dbPatch by (intros d; reflexivity).
  rewrite Hget; cbn [option_map].
  eexists. split; [reflexivity |].
  unfold TaskEndpoints.statusUpdates.
  destruct requested; destruct (Task.status task); reflexivity.
Qed.

End TransitionTable.

(** C1: the table forbids [completed -> in_progress], and the update handler
    accepts it: Alice's request on her completed task succeeds, the stored
    status becomes [in_progress] and the completion time is cleared. *)
Theorem update_accepts_completed_to_in_progress :
  let w := exampleWorld plenty 0 in
  let args := UpdateArgs.mk 0 None None (Some in_progress) None None in
  dbGet Task._id 0 (tasks w) = Some doneTask
  /\ Task.status doneTask = completed
  /\ transitionAllowed completed in_progress = false
  /\ isOk (outcome (TaskEndpoints.update asAlice args) w) = true
  /\ option_map Task.status
       (dbGet Task._id 0 (tasks (after (TaskEndpoints.update asAlice args) w)))
     = Some in_progress
  /\ tasks (after (TaskEndpoints.update asAlice args) w) <> tasks w.
Proof.
  repeat split; try reflexivity. discriminate.
Qed.

(** ** Deleting a thread *)

Section DeleteThread.
Context {P : Platform}.

(** C4. When the owner deletes a thread that holds N messages, the handler
    succeeds, and the writes it makes are, in this order, the deletions of
    the N messages of the thread and then the deletion of the thread: that is
    what it adds to the journal of the store. So it passes through two
    states: first the one where the N messages of the thread are gone (the
    batch delete reports N, no message of the thread is left, the thread is
    still stored), then the final one, where the thread is gone too and still
    no message refers to it. The messages of the other threads are kept (ids
    being distinct). *)
Theorem deleteThread_cascades
    (w : World) (caller : UserId) (now : Z) (threadId : Id) (thread : Thread.t) :
  dbGet Thread._id threadId (threads w) = Some thread ->
  Thread.userId thread = caller ->
  let afterMessages := after (Messages.deleteMessagesByThread threadId) w in
  let afterThread := after (Threads.deleteThread threadId) afterMessages in
  AssistantEndpoints.deleteThread (Ctx.mk (Some caller) now) threadId w = (Ok tt, afterThread)
  /\ journal (after (AssistantEndpoints.deleteThread (Ctx.mk (Some caller) now) threadId) w)
     = journal w
       ++ deletions (Messages.byThread threadId (messages w))
       ++ [Deleted "threads" threadId]
  /\ outcome (Messages.deleteMessagesByThread threadId) w
     = Ok (length (Messages.byThread threadId (messages w)))
  /\ Messages.byThread threadId (messages afterMessages) = []
  /\ dbGet Thread._id threadId (threads afterMessages) = Some thread
  /\ Messages.byThread threadId (messages afterThread) = []
  /\ dbGet Thread._id threadId (threads afterThread) = None
  /\ (NoDup (map Message._id (messages w)) ->
      forall other, other <> threadId ->
        Messages.byThread other (messages afterThread)
        = Messages.byThread other (messages w)).
Proof.
  intros Hget Hown afterMessages afterThread.
  assert (Hrun : AssistantEndpoints.deleteThread (Ctx.mk (Some caller) now) threadId w
                 = (Ok tt, afterThread)).
  { subst afterThread afterMessages. unfold after.
    unfold AssistantEndpoints.deleteThread, mutation, bind, getAuthUser, orThrow, ret,
      Threads.getThreadById; simpl.
    rewrite Hget; simpl. subst caller. rewrite owner_eqb; simpl.
    rewrite deleteMessagesByThread_run. reflexivity. }
  refine (conj Hrun (conj _ _)).
  { unfold after at 1. rewrite Hrun. subst afterThread afterMessages. unfold after.
    rewrite deleteMessagesByThread_run; simpl. now rewrite <- app_assoc. }
  clear Hrun. subst afterThread afterMessages. unfold after, outcome.
  rewrite deleteMessagesByThread_run; simpl.
  refine (conj _ (conj _ (conj _ (conj _ (conj _ _))))).
  - reflexivity.
  - apply byThread_withoutBatch.
  - exact Hget.
  - apply byThread_withoutBatch.
  - unfold dbGet, dbDelete. clear Hget.
    induction (threads w) as [| d table IH]; simpl; [reflexivity |].
    destruct (Nat.eqb (Thread._id d) threadId) eqn:Hid; simpl; [exact IH |].
    now rewrite Hid.
  - intros Hnd other Hneq. now apply byThread_other_withoutBatch.
Qed.

End DeleteThread.

(** Alice deletes her thread of three messages. *)
Lemma deleteThread_cascades_witness :
  let w := exampleWorld plenty 3 in
  length (Messages.byThread 2 (messages w)) = 3
  /\ outcome (AssistantEndpoints.deleteThread asAlice 2) w = Ok tt
  /\ journal (after (AssistantEndpoints.deleteThread asAlice 2) w)
     = [Deleted "messages" 3; Deleted "messages" 4; Deleted "messages" 5;
        Deleted "threads" 2]
  /\ messages (after (AssistantEndpoints.deleteThread asAlice 2) w) = []
  /\ threads (after (AssistantEndpoints.deleteThread asAlice 2) w) = [].
Proof.
  destruct (@deleteThread_cascades budgetPlatform (exampleWorld plenty 3) alice noon 2
              aliceThread eq_refl eq_refl) as [Hrun [Hjournal _]].
  fold asAlice in Hrun, Hjournal.
  split; [reflexivity |]. split; [unfold outcome; now rewrite Hrun |].
  split; [exact Hjournal |].
  unfold after. rewrite Hrun. split; reflexivity.
Defined.

(** ** The per-thread message limit *)

(** C5: on a thread that holds the maximum number of messages (1000),
    [sendMessage] is to fail with [QuotaExceeded] before anything is stored
    and before the agent is called. The action does not get as far as the
    count: its steps 4 to 8 and 11 hand [ctx.runQuery] and [ctx.runMutation]
    the functions registered in the module, which are no function references,
    and the first of these calls throws. Alice's message to her thread of
    1000 messages passes authentication, the limiter and the content check
    and then fails with the platform's error, not with [QuotaExceeded], just
    as her message to the same thread holding one message does; no message
    is stored and the agent is not called. *)
Theorem sendMessage_on_full_thread_stops_before_the_count :
  let full := exampleWorld plenty 1000 in
  let args := SendMessageArgs.mk 2 (js "one more") in
  length (Messages.byThread 2 (messages full)) = Constants.MAX_MESSAGES_PER_THREAD
  /\ dbGet Thread._id 2 (threads full) = Some aliceThread
  /\ Thread.userId aliceThread = alice
  /\ admits full "sendMessage" alice noon = true
  /\ Validation.isValidMessageContent (Validation.sanitizeInput (js "one more")) = true
  /\ outcome (AssistantEndpoints.sendMessage asAlice args) full = Err NotAFunctionReference
  /\ outcome (AssistantEndpoints.sendMessage asAlice args) full <> Err QuotaExceeded
  /\ outcome (AssistantEndpoints.sendMessage asAlice args) (exampleWorld plenty 1)
     = Err NotAFunctionReference
  /\ messages (after (AssistantEndpoints.sendMessage asAlice args) full) = messages full
  /\ agentCalls (after (AssistantEndpoints.sendMessage asAlice args) full) = [].
Proof.
  repeat split; try (vm_compute; reflexivity). discriminate.
Qed.

(** ** Sanitizing and the length of a title *)

Section Sanitizing.

Import Validation.

Lemma trimStart_length (s : JsString) : length (trimStart s) <= length s.
Proof.
  induction s as [| c s IH]; simpl; [lia |].
  destruct (isWhiteSpace c); simpl; lia.
Qed.

Lemma replaceWhiteSpaceRuns_length (inRun : bool) (s : JsString) :
  length (replaceWhiteSpaceRuns inRun s) <= length s.
Proof.
  revert inRun. induction s as [| c s IH]; intros inRun; simpl; [lia |].
  destruct (isWhiteSpace c); [destruct inRun |]; simpl.
  - specialize (IH true). lia.
  - specialize (IH true). lia.
  - specialize (IH false). lia.
Qed.

Lemma sanitizeInput_length (s : JsString) : length (sanitizeInput s) <= length s.
Proof.
  unfold sanitizeInput, trim.
  pose proof (replaceWhiteSpaceRuns_length false (rev (trimStart (rev (trimStart s))))) as H1.
  rewrite length_rev in H1.
  pose proof (trimStart_length (rev (trimStart s))) as H2.
  rewrite length_rev in H2.
  pose proof (trimStart_length s). lia.
Qed.

Lemma trimStart_noWhiteSpace (s : JsString) : noWhiteSpace s -> trimStart s = s.
Proof.
  intros H. destruct H as [| c s Hc Hs]; simpl; [reflexivity |].
  now rewrite Hc.
Qed.

Lemma replaceWhiteSpaceRuns_noWhiteSpace (inRun : bool) (s : JsString) :
  noWhiteSpace s -> replaceWhiteSpaceRuns inRun s = s.
Proof.
  intros H. revert inRun. induction H as [| c s Hc Hs IH]; intros inRun; simpl.
  - reflexivity.
  - rewrite Hc. now rewrite IH.
Qed.

Lemma sanitizeInput_noWhiteSpace (s : JsString) : noWhiteSpace s -> sanitizeInput s = s.
Proof.
  intros H. unfold sanitizeInput, trim.
  rewrite (trimStart_noWhiteSpace H).
  rewrite trimStart_noWhiteSpace by (apply Forall_rev; exact H).
  rewrite rev_involutive.
  now apply replaceWhiteSpaceRuns_noWhiteSpace.
Qed.

Lemma isValidTaskTitle_bounds (s : JsString) :
  isValidTaskTitle s = true <-> 1 <= length s <= 200.
Proof.
  unfold isValidTaskTitle. rewrite andb_true_iff, Nat.ltb_lt, Nat.leb_le. lia.
Qed.

End Sanitizing.

Section TitleLength.
Context {P : Platform}.

Import Validation Constants.

(** C8, as the code has it. The title is sanitized first and its length is
    checked afterwards. With the other preconditions met, a task create or
    update fails with [InvalidInput] when the sanitized title has length 0 or
    more than 200, and succeeds when that length is between 1 and 200.
    Sanitizing never lengthens a title and leaves a title without white space
    as it is, so for such titles the supplied length decides. *)
Theorem title_length_checked_after_sanitizing (w : World) (caller : UserId) (now : Z) :
  let ctx := Ctx.mk (Some caller) now in
  (forall args,
      let n := length (sanitizeInput (CreateArgs.title args)) in
      admits w "createTask" caller now = true ->
      (n = 0 \/ 200 < n ->
       outcome (TaskEndpoints.create ctx args) w = Err (InvalidInput TaskTitleLength))
      /\ (1 <= n <= 200 ->
          (truthyString (CreateArgs.description args) = true ->
           isValidTaskDescription
             (sanitizeInput (orElse (CreateArgs.description args) [])) = true) ->
          (truthyNumber (CreateArgs.dueDate args) = true ->
           isValidDueDate now (orElse (CreateArgs.dueDate args) (ofZ 0)) = true) ->
          length (filter (fun t => String.eqb (Task.userId t) caller) (tasks w))
            < MAX_TASKS_PER_USER ->
          isOk (outcome (TaskEndpoints.create ctx args) w) = true))
  /\ (forall args task title,
        let n := length (sanitizeInput title) in
        admits w "updateTask" caller now = true ->
        dbGet Task._id (UpdateArgs.id args) (tasks w) = Some task ->
        Task.userId task = caller ->
        UpdateArgs.title args = Some title ->
        (n = 0 \/ 200 < n ->
         outcome (TaskEndpoints.update ctx args) w = Err (InvalidInput TaskTitleLength))
        /\ (1 <= n <= 200 ->
            (forall d, UpdateArgs.description args = Some d ->
                       isValidTaskDescription (sanitizeInput d) = true) ->
            (forall d, UpdateArgs.dueDate args = Some d -> isValidDueDate now d = true) ->
            isOk (outcome (TaskEndpoints.update ctx args) w) = true))
  /\ (forall title, length (sanitizeInput title) <= length title)
  /\ (forall title, noWhiteSpace title -> sanitizeInput title = title).
Proof.
  intros ctx. subst ctx.
  split; [| split; [| split]].
  - intros args n Hadm.
    unfold outcome, TaskEndpoints.create, mutation, bind, getAuthUser, orThrow, ret; cbn [Ctx.auth Ctx.now].
    rewrite rateLimit_run, Hadm; cbn [fst snd].
    split.
    + intros Hbad.
      destruct (isValidTaskTitle (sanitizeInput (CreateArgs.title args))) eqn:Hv.
      * apply isValidTaskTitle_bounds in Hv. subst n. lia.
      * reflexivity.
    + intros Hgood Hdesc Hdue Hquota.
      apply isValidTaskTitle_bounds in Hgood. rewrite Hgood; cbn [negb throwIf ret fst snd].
      destruct (truthyString (CreateArgs.description args)).
      * rewrite (Hdesc eq_refl); cbn [negb throwIf ret fst snd].
        destruct (truthyNumber (CreateArgs.dueDate args)).
        -- rewrite (Hdue eq_refl); cbn [negb andb throwIf ret fst snd].
           unfold Tasks.getTasksByUser; cbn [fst snd tasks withLimiter withJournal logged].
           apply Nat.leb_gt in Hquota. rewrite Hquota. reflexivity.
        -- cbn [negb andb throwIf ret fst snd].
           unfold Tasks.getTasksByUser; cbn [fst snd tasks withLimiter withJournal logged].
           apply Nat.leb_gt in Hquota. rewrite Hquota. reflexivity.
      * cbn [ret fst snd].
        destruct (truthyNumber (CreateArgs.dueDate args)).
        -- rewrite (Hdue eq_refl); cbn [negb andb throwIf ret fst snd].
           unfold Tasks.getTasksByUser; cbn [fst snd tasks withLimiter withJournal logged].
           apply Nat.leb_gt in Hquota. rewrite Hquota. reflexivity.
        -- cbn [negb andb throwIf ret fst snd].
           unfold Tasks.getTasksByUser; cbn [fst snd tasks withLimiter withJournal logged].
           apply Nat.leb_gt in Hquota. rewrite Hquota. reflexivity.
  - intros args task title n Hadm Hget Hown Htitle.
    unfold outcome, TaskEndpoints.update, mutation, bind, getAuthUser, orThrow, ret; cbn [Ctx.auth Ctx.now].
    rewrite rateLimit_run, Hadm; cbn [fst snd].
    unfold Tasks.getTaskById; cbn [fst snd tasks withLimiter withJournal logged].
    rewrite Hget; cbn [fst snd]. subst caller. rewrite owner_eqb; cbn [throwIf ret fst snd].
    rewrite Htitle.
    split.
    + intros Hbad.
      destruct (isValidTaskTitle (sanitizeInput title)) eqn:Hv.
      * apply isValidTaskTitle_bounds in Hv. subst n. lia.
      * reflexivity.
    + intros Hgood Hdesc Hdue.
      apply isValidTaskTitle_bounds in Hgood. rewrite Hgood; cbn [negb throwIf ret fst snd].
      destruct (UpdateArgs.description args) as [d |].
      * rewrite (Hdesc d eq_refl); cbn [negb throwIf ret fst snd].
        destruct (UpdateArgs.dueDate args) as [dd |].
        -- rewrite (Hdue dd eq_refl); reflexivity.
        -- reflexivity.
      * cbn [ret fst snd].
        destruct (UpdateArgs.dueDate args) as [dd |].
        -- rewrite (Hdue dd eq_refl); reflexivity.
        -- reflexivity.
  - exact sanitizeInput_length.
  - exact sanitizeInput_noWhiteSpace.
Qed.

End TitleLength.

(** Alice creates tasks titled "a" and "" . *)
Lemma title_length_checked_after_sanitizing_witness :
  let w := exampleWorld plenty 0 in
  isOk (outcome (TaskEndpoints.create asAlice (CreateArgs.mk (js "a") None None None)) w)
  = true
  /\ outcome (TaskEndpoints.create asAlice (CreateArgs.mk [] None None None)) w
     = Err (InvalidInput TaskTitleLength)
  /\ outcome (TaskEndpoints.update asAlice (UpdateArgs.mk 1 (Some []) None None None None)) w
     = Err (InvalidInput TaskTitleLength).
Proof.
  intros w.
  destruct (@title_length_checked_after_sanitizing budgetPlatform w alice noon)
    as [Hcreate [Hupdate _]].
  split; [| split].
  - destruct (Hcreate (CreateArgs.mk (js "a") None None None) eq_refl) as [_ Hok].
    apply Hok.
    + vm_compute. lia.
    + discriminate.
    + discriminate.
    + vm_compute. lia.
  - destruct (Hcreate (CreateArgs.mk [] None None None) eq_refl) as [Hbad _].
    apply Hbad. left. reflexivity.
  - destruct (Hupdate (UpdateArgs.mk 1 (Some []) None None None None) openTask []
                eq_refl eq_refl eq_refl eq_refl) as [Hbad _].
    apply Hbad. left. reflexivity.
Defined.

(** C8, as stated, fails on titles with white space: the one-character title
    " " is refused, and a title of 201 characters, "a" followed by 200
    spaces, is accepted; the same call with the title "a" succeeds. *)
Lemma title_length_white_space_counterexample :
  let w := exampleWorld plenty 0 in
  let blank := CreateArgs.mk (js " ") None None None in
  let padded := CreateArgs.mk (js "a" ++ repeat 32%N 200) None None None in
  let plain := CreateArgs.mk (js "a") None None None in
  isOk (outcome (TaskEndpoints.create asAlice plain) w) = true
  /\ length (CreateArgs.title blank) = 1
  /\ outcome (TaskEndpoints.create asAlice blank) w = Err (InvalidInput TaskTitleLength)
  /\ length (CreateArgs.title padded) = 201
  /\ isOk (outcome (TaskEndpoints.create asAlice padded) w) = true.
Proof.
  repeat split; vm_compute; reflexivity.
Qed.

(** ** Creation *)

Section Creation.
Context {P : Platform}.

Import Validation Constants.

(** A create either fails and leaves the task table as it was, or appends
    one task, pending and without completion time, and returns its id. *)
Lemma create_cases (w : World) (ctx : Ctx.t) (args : CreateArgs.t) :
  (isOk (outcome (TaskEndpoints.create ctx args) w) = false
   /\ tasks (after (TaskEndpoints.create ctx args) w) = tasks w
   /\ nextId (after (TaskEndpoints.create ctx args) w) = nextId w)
  \/ (exists task,
        outcome (TaskEndpoints.create ctx args) w = Ok (Task._id task)
        /\ tasks (after (TaskEndpoints.create ctx args) w) = tasks w ++ [task]
        /\ Task.status task = pending
        /\ Task.completedAt task = None
        /\ Task._id task = nextId w
        /\ nextId (after (TaskEndpoints.create ctx args) w) = S (nextId w)).
Proof.
  unfold outcome, after, TaskEndpoints.create, mutation, bind, getAuthUser, orThrow, ret.
  destruct (Ctx.auth ctx) as [caller |]; cbn [fst snd]; [| now left].
  rewrite rateLimit_run.
  destruct (admits w "createTask" caller (Ctx.now ctx)); cbn [fst snd]; [| now left].
  destruct (isValidTaskTitle (sanitizeInput (CreateArgs.title args)));
    cbn [negb throwIf throw ret fst snd]; [| now left].
  destruct (truthyString (CreateArgs.description args));
    [destruct (isValidTaskDescription
                 (sanitizeInput (orElse (CreateArgs.description args) [])));
       cbn [negb throwIf throw ret fst snd]; [| now left]
    | cbn [ret fst snd]].
  all: destruct (truthyNumber (CreateArgs.dueDate args) && negb _);
    cbn [throwIf throw ret fst snd]; [now left |].
  all: unfold Tasks.getTasksByUser;
    destruct (MAX_TASKS_PER_USER <=? _); cbn [throwIf throw ret fst snd]; [now left |].
  all: right; eexists; unfold Tasks.createTask;
    cbn [fst snd tasks nextId withTasks withNextId withLimiter withJournal logged];
    split; [| split; [reflexivity | repeat split]]; reflexivity.
Qed.

(** C9. A task that create has stored is the last document of the table,
    carries the id returned, has status [pending] and no completion time,
    whatever the caller supplied; so for it the completion time is present
    exactly when the status is [completed]. *)
Theorem created_task_is_pending (w : World) (ctx : Ctx.t) (args : CreateArgs.t) (id : Id) :
  outcome (TaskEndpoints.create ctx args) w = Ok id ->
  exists task,
    tasks (after (TaskEndpoints.create ctx args) w) = tasks w ++ [task]
    /\ Task._id task = id
    /\ Task.status task = pending
    /\ Task.completedAt task = None
    /\ completedAtIffCompleted task.
Proof.
  intros Hok.
  destruct (create_cases w ctx args) as [[Hfail _] | [task [Hres [Htasks [Hst [Hca _]]]]]].
  - rewrite Hok in Hfail. discriminate.
  - exists task. rewrite Hok in Hres. inversion Hres; subst.
    repeat split; try assumption.
    + intros H. now rewrite Hca in H.
    + intros H. rewrite Hst in H. discriminate.
Qed.

End Creation.

(** Alice creates a task with a description, a priority and a due date. *)
Lemma created_task_is_pending_witness :
  let w := exampleWorld plenty 0 in
  let args := CreateArgs.mk (js "  plan   the week ") (Some (js "notes")) (Some high)
                (Some (ofZ (noon + 1000))) in
  outcome (TaskEndpoints.create asAlice args) w = Ok 3
  /\ exists task,
       tasks (after (TaskEndpoints.create asAlice args) w) = tasks w ++ [task]
       /\ Task._id task = 3
       /\ Task.status task = pending
       /\ Task.completedAt task = None
       /\ completedAtIffCompleted task.
Proof.
  intros w args. split.
  - reflexivity.
  - apply (@created_task_is_pending budgetPlatform w asAlice args 3). reflexivity.
Defined.

(** ** Due dates *)

Section DueDates.
Context {P : Platform}.

Import Validation Constants.

Lemma isValidDueDate_range (now : Z) (dueDate : JsNumber) :
  isValidDueDate now dueDate = true <-> dueDateInRange now dueDate.
Proof.
  unfold isValidDueDate, dueDateInRange, JsNumber.geb, JsNumber.leb, ofZ.
  destruct dueDate as [q | [|] |]; cbn [andb].
  - rewrite andb_true_iff, !Qle_bool_iff. tauto.
  - split; [discriminate | contradiction].
  - split; [discriminate | contradiction].
  - split; [discriminate | contradiction].
Qed.

Lemma truthyNumber_nonzero (d : JsNumber) :
  JsNumber.isZero d = false -> d <> NaN -> truthyNumber (Some d) = true.
Proof.
  intros Hzero Hnan. unfold truthyNumber. rewrite Hzero.
  destruct d; try reflexivity. contradiction.
Qed.

(** C10, as the code has it. A due date other than 0 outside the range from
    24 hours before the current time to 5 years of 365 days after it makes a
    task update fail, and makes a task create fail unless the due date is
    NaN: the call never succeeds and stores nothing, and once the caller is
    authenticated and let through by the limiter (and, for an update, owns
    the task), the failure is [InvalidInput]. A due date inside the range is
    never the reason of a failure. *)
Theorem dueDate_outside_range_rejected (w : World) (ctx : Ctx.t) (dueDate : JsNumber) :
  JsNumber.isZero dueDate = false ->
  (~ dueDateInRange (Ctx.now ctx) dueDate ->
   (dueDate <> NaN ->
    forall args,
       CreateArgs.dueDate args = Some dueDate ->
       isOk (outcome (TaskEndpoints.create ctx args) w) = false
       /\ tasks (after (TaskEndpoints.create ctx args) w) = tasks w
       /\ (forall caller,
             Ctx.auth ctx = Some caller ->
             admits w "createTask" caller (Ctx.now ctx) = true ->
             isInvalidInput (outcome (TaskEndpoints.create ctx args) w) = true))
   /\ (forall args,
         UpdateArgs.dueDate args = Some dueDate ->
         isOk (outcome (TaskEndpoints.update ctx args) w) = false
         /\ tasks (after (TaskEndpoints.update ctx args) w) = tasks w
         /\ (forall caller task,
               Ctx.auth ctx = Some caller ->
               admits w "updateTask" caller (Ctx.now ctx) = true ->
               dbGet Task._id (UpdateArgs.id args) (tasks w) = Some task ->
               Task.userId task = caller ->
               isInvalidInput (outcome (TaskEndpoints.update ctx args) w) = true)))
  /\ (dueDateInRange (Ctx.now ctx) dueDate ->
      (forall args,
          CreateArgs.dueDate args = Some dueDate ->
          outcome (TaskEndpoints.create ctx args) w <> Err (InvalidInput DueDateRange))
      /\ (forall args,
            UpdateArgs.dueDate args = Some dueDate ->
            outcome (TaskEndpoints.update ctx args) w <> Err (InvalidInput DueDateRange))).
Proof.
  intros Hnz. split.
  - intros Hout.
    assert (Hbad : isValidDueDate (Ctx.now ctx) dueDate = false).
    { destruct (isValidDueDate (Ctx.now ctx) dueDate) eqn:Hv; [| reflexivity].
      apply isValidDueDate_range in Hv. contradiction. }
    split.
    + intros Hnan args Hdue.
      unfold outcome, after, TaskEndpoints.create, mutation, bind, getAuthUser, orThrow, ret.
      rewrite Hdue. cbn [orElse]. rewrite (truthyNumber_nonzero Hnz Hnan), Hbad.
      destruct (Ctx.auth ctx) as [caller |]; cbn [fst snd];
        [| repeat split; intros; congruence].
      rewrite rateLimit_run.
      destruct (admits w "createTask" caller (Ctx.now ctx)) eqn:Hadm; cbn [fst snd];
        [| repeat split; intros; try reflexivity; congruence].
      destruct (isValidTaskTitle (sanitizeInput (CreateArgs.title args)));
        cbn [negb throwIf throw ret fst snd]; [| repeat split; intros; reflexivity].
      destruct (truthyString (CreateArgs.description args));
        [destruct (isValidTaskDescription
                     (sanitizeInput (orElse (CreateArgs.description args) [])));
           cbn [negb throwIf throw ret fst snd]; [| repeat split; intros; reflexivity]
        | cbn [ret fst snd]].
      all: cbn [negb andb throwIf throw ret fst snd]; repeat split; intros; reflexivity.
    + intros args Hdue.
      unfold outcome, after, TaskEndpoints.update, mutation, bind, getAuthUser, orThrow, ret.
      rewrite Hdue, Hbad.
      destruct (Ctx.auth ctx) as [caller |]; cbn [fst snd];
        [| repeat split; intros; congruence].
      rewrite rateLimit_run.
      destruct (admits w "updateTask" caller (Ctx.now ctx)) eqn:Hadm; cbn [fst snd];
        [| repeat split; intros; try reflexivity; congruence].
      unfold Tasks.getTaskById; cbn [fst snd tasks withLimiter withJournal logged].
      destruct (dbGet Task._id (UpdateArgs.id args) (tasks w)) as [task |];
        cbn [throw fst snd]; [| repeat split; intros; try reflexivity; congruence].
      destruct (String.eqb (Task.userId task) caller) eqn:Hown;
        cbn [negb throwIf throw ret fst snd];
        [| repeat split; intros; try reflexivity;
           match goal with
           | Ha : Some _ = Some ?c, Ht : Some _ = Some ?t, Ho : Task.userId ?t = ?c |- _ =>
               inversion Ha; inversion Ht; subst; rewrite String.eqb_refl in Hown;
               discriminate
           end].
      destruct (UpdateArgs.title args) as [title |];
        [destruct (isValidTaskTitle (sanitizeInput title));
           cbn [negb throwIf throw ret fst snd]; [| repeat split; intros; reflexivity]
        | cbn [ret fst snd]].
      all: destruct (UpdateArgs.description args) as [description |];
        [destruct (isValidTaskDescription (sanitizeInput description));
           cbn [negb throwIf throw ret fst snd]; [| repeat split; intros; reflexivity]
        | cbn [ret fst snd]].
      all: cbn [negb throwIf throw ret fst snd]; repeat split; intros; reflexivity.
  - intros Hin. apply isValidDueDate_range in Hin.
    split.
    + intros args Hdue.
      unfold outcome, TaskEndpoints.create, mutation, bind, getAuthUser, orThrow, ret.
      rewrite Hdue. cbn [orElse]. rewrite Hin.
      destruct (Ctx.auth ctx) as [caller |]; cbn [fst snd]; [| (cbn [throw fst snd]; congruence)].
      rewrite rateLimit_run.
      destruct (admits w "createTask" caller (Ctx.now ctx)); cbn [fst snd]; [| (cbn [throw fst snd]; congruence)].
      destruct (isValidTaskTitle (sanitizeInput (CreateArgs.title args)));
        cbn [negb throwIf throw ret fst snd]; [| (cbn [throw fst snd]; congruence)].
      destruct (truthyString (CreateArgs.description args));
        [destruct (isValidTaskDescription
                     (sanitizeInput (orElse (CreateArgs.description args) [])));
           cbn [negb throwIf throw ret fst snd]; [| (cbn [throw fst snd]; congruence)]
        | cbn [ret fst snd]].
      all: rewrite andb_false_r; cbn [throwIf throw ret fst snd];
        unfold Tasks.getTasksByUser; cbn [fst snd];
        destruct (MAX_TASKS_PER_USER <=? _); cbn [throwIf throw ret fst snd];
        [(cbn [throw fst snd]; congruence) |]; unfold Tasks.createTask; cbn [fst]; (cbn [throw fst snd]; congruence).
    + intros args Hdue.
      unfold outcome, TaskEndpoints.update, mutation, bind, getAuthUser, orThrow, ret.
      rewrite Hdue, Hin.
      destruct (Ctx.auth ctx) as [caller |]; cbn [fst snd]; [| (cbn [throw fst snd]; congruence)].
      rewrite rateLimit_run.
      destruct (admits w "updateTask" caller (Ctx.now ctx)); cbn [fst snd]; [| (cbn [throw fst snd]; congruence)].
      unfold Tasks.getTaskById; cbn [fst snd tasks withLimiter withJournal logged].
      destruct (dbGet Task._id (UpdateArgs.id args) (tasks w)) as [task |];
        cbn [throw fst snd]; [| (cbn [throw fst snd]; congruence)].
      destruct (String.eqb (Task.userId task) caller);
        cbn [negb throwIf throw ret fst snd]; [| (cbn [throw fst snd]; congruence)].
      destruct (UpdateArgs.title args) as [title |];
        [destruct (isValidTaskTitle (sanitizeInput title));
           cbn [negb throwIf throw ret fst snd]; [| (cbn [throw fst snd]; congruence)]
        | cbn [ret fst snd]].
      all: destruct (UpdateArgs.description args) as [description |];
        [destruct (isValidTaskDescription (sanitizeInput description));
           cbn [negb throwIf throw ret fst snd]; [| (cbn [throw fst snd]; congruence)]
        | cbn [ret fst snd]].
      all: cbn [negb throwIf throw ret fst snd]; unfold Tasks.updateTask; cbn [fst];
        (cbn [throw fst snd]; congruence).
Qed.

End DueDates.


(** ** Completion time and status *)

Section Completion.
Context {P : Platform}.

Import Validation Constants.

Lemma applyUpdates_id (now : Z) (u : TaskUpdates.t) (t : Task.t) :
  Task._id (Tasks.applyUpdates now u t) = Task._id t.
Proof. reflexivity. Qed.

(** An update either fails and leaves the task table as it was, or patches
    the task it loaded with an object whose status is the requested one and
    whose [completedAt] key is the one [statusUpdates] decides. *)
Lemma update_cases (w : World) (ctx : Ctx.t) (args : UpdateArgs.t) :
  (isOk (outcome (TaskEndpoints.update ctx args) w) = false
   /\ tasks (after (TaskEndpoints.update ctx args) w) = tasks w
   /\ nextId (after (TaskEndpoints.update ctx args) w) = nextId w)
  \/ (exists task updates,
        dbGet Task._id (UpdateArgs.id args) (tasks w) = Some task
        /\ tasks (after (TaskEndpoints.update ctx args) w)
           = dbPatch Task._id (UpdateArgs.id args)
               (Tasks.applyUpdates (Ctx.now ctx) updates) (tasks w)
        /\ outcome (TaskEndpoints.update ctx args) w
           = Ok (dbGet Task._id (UpdateArgs.id args)
                   (tasks (after (TaskEndpoints.update ctx args) w)))
        /\ nextId (after (TaskEndpoints.update ctx args) w) = nextId w
        /\ TaskUpdates.status updates = UpdateArgs.status args
        /\ TaskUpdates.completedAt updates
           = TaskUpdates.completedAt
               (TaskEndpoints.statusUpdates (Ctx.now ctx) task (UpdateArgs.status args)
                  TaskEndpoints.noUpdates)).
Proof.
  unfold outcome, after, TaskEndpoints.update, mutation, bind, getAuthUser, orThrow, ret.
  destruct (Ctx.auth ctx) as [caller |]; cbn [fst snd]; [| now left].
  rewrite rateLimit_run.
  destruct (admits w "updateTask" caller (Ctx.now ctx)); cbn [fst snd]; [| now left].
  unfold Tasks.getTaskById; cbn [fst snd tasks withLimiter withJournal logged].
  destruct (dbGet Task._id (UpdateArgs.id args) (tasks w)) as [task |] eqn:Hget;
    cbn [throw fst snd]; [| now left].
  destruct (negb (String.eqb (Task.userId task) caller));
    cbn [throwIf throw ret fst snd]; [now left |].
  destruct (UpdateArgs.title args) as [title |];
    [destruct (isValidTaskTitle (sanitizeInput title));
       cbn [negb throwIf throw ret fst snd]; [| now left]
    | cbn [ret fst snd]].
  all: destruct (UpdateArgs.description args) as [description |];
    [destruct (isValidTaskDescription (sanitizeInput description));
       cbn [negb throwIf throw ret fst snd]; [| now left]
    | cbn [ret fst snd]].
  all: destruct (UpdateArgs.dueDate args) as [dueDate |];
    [destruct (isValidDueDate (Ctx.now ctx) dueDate);
       cbn [negb throwIf throw ret fst snd]; [| now left]
    | cbn [ret fst snd]].
  all: right; exists task; eexists; unfold Tasks.updateTask;
    cbn [fst snd tasks nextId withTasks withLimiter withJournal logged];
    split; [reflexivity |]; split; [reflexivity |]; split; [reflexivity |];
    split; [reflexivity |];
    unfold TaskEndpoints.statusUpdates;
    destruct (UpdateArgs.status args) as [[] |]; destruct (Task.status task);
    destruct (UpdateArgs.priority args); split; reflexivity.
Qed.

Lemma complete_cases (w : World) (ctx : Ctx.t) (id : Id) :
  (isOk (outcome (TaskEndpoints.complete ctx id) w) = false
   /\ tasks (after (TaskEndpoints.complete ctx id) w) = tasks w
   /\ nextId (after (TaskEndpoints.complete ctx id) w) = nextId w)
  \/ (exists task,
        dbGet Task._id id (tasks w) = Some task
        /\ tasks (after (TaskEndpoints.complete ctx id) w)
           = dbPatch Task._id id
               (Tasks.applyUpdates (Ctx.now ctx)
                  (TaskUpdates.mk None None (Some completed) None None
                     (Some (Some (Ctx.now ctx)))))
               (tasks w)
        /\ outcome (TaskEndpoints.complete ctx id) w
           = Ok (dbGet Task._id id (tasks (after (TaskEndpoints.complete ctx id) w)))
        /\ nextId (after (TaskEndpoints.complete ctx id) w) = nextId w).
Proof.
  unfold outcome, after, TaskEndpoints.complete, mutation, bind, getAuthUser, orThrow, ret.
  destruct (Ctx.auth ctx) as [caller |]; cbn [fst snd]; [| now left].
  rewrite rateLimit_run.
  destruct (admits w "updateTask" caller (Ctx.now ctx)); cbn [fst snd]; [| now left].
  unfold Tasks.getTaskById; cbn [fst snd tasks withLimiter withJournal logged].
  destruct (dbGet Task._id id (tasks w)) as [task |] eqn:Hget;
    cbn [throw fst snd]; [| now left].
  destruct (negb (String.eqb (Task.userId task) caller));
    cbn [throwIf throw ret fst snd]; [now left |].
  right. exists task. unfold Tasks.markTaskCompleted, Tasks.updateTask.
  cbn [fst snd tasks nextId withTasks withLimiter withJournal logged].
  repeat split; reflexivity.
Qed.

Lemma remove_cases (w : World) (ctx : Ctx.t) (id : Id) :
  (tasks (after (TaskEndpoints.remove ctx id) w) = tasks w
   \/ tasks (after (TaskEndpoints.remove ctx id) w) = dbDelete Task._id id (tasks w))
  /\ nextId (after (TaskEndpoints.remove ctx id) w) = nextId w.
Proof.
  unfold after, TaskEndpoints.remove, mutation, bind, getAuthUser, orThrow, ret.
  destruct (Ctx.auth ctx) as [caller |]; cbn [fst snd]; [| now split; [left |]].
  rewrite rateLimit_run.
  destruct (admits w "deleteTask" caller (Ctx.now ctx)); cbn [fst snd];
    [| now split; [left |]].
  unfold Tasks.getTaskById; cbn [fst snd tasks withLimiter withJournal logged].
  destruct (dbGet Task._id id (tasks w)) as [task |];
    cbn [throw fst snd]; [| now split; [left |]].
  destruct (negb (String.eqb (Task.userId task) caller));
    cbn [throwIf throw ret fst snd]; [now split; [left |] |].
  unfold Tasks.deleteTask; cbn [fst snd tasks nextId withTasks withLimiter withJournal logged].
  split; [right |]; reflexivity.
Qed.

(** The thread and message handlers leave the task table alone and never
    lower the id counter. *)
Lemma createThread_tasks (w : World) (ctx : Ctx.t) (title : option JsString) :
  tasks (after (AssistantEndpoints.createThread ctx title) w) = tasks w
  /\ nextId w <= nextId (after (AssistantEndpoints.createThread ctx title) w).
Proof.
  unfold after, AssistantEndpoints.createThread, mutation, bind, getAuthUser, orThrow, ret.
  destruct (Ctx.auth ctx) as [caller |]; cbn [fst snd]; [| now split].
  rewrite rateLimit_run.
  destruct (admits w "createThread" caller (Ctx.now ctx)); cbn [fst snd]; [| now split].
  unfold Threads.getThreadsByUser; cbn [fst snd].
  destruct (MAX_THREADS_PER_USER <=? _); cbn [throwIf throw ret fst snd]; [now split |].
  destruct (truthyString title);
    [destruct (isValidThreadTitle (sanitizeInput (orElse title [])));
       cbn [negb throwIf throw ret fst snd]; [| now split]
    | cbn [ret fst snd]].
  all: unfold Threads.createThread;
    cbn [fst snd tasks nextId withThreads withNextId withLimiter withJournal logged]; split;
    [reflexivity | apply Nat.le_succ_diag_r].
Qed.

Lemma updateThread_tasks (w : World) (ctx : Ctx.t) (args : UpdateThreadArgs.t) :
  tasks (after (AssistantEndpoints.updateThread ctx args) w) = tasks w
  /\ nextId w <= nextId (after (AssistantEndpoints.updateThread ctx args) w).
Proof.
  unfold after, AssistantEndpoints.updateThread, mutation, bind, getAuthUser, orThrow, ret.
  destruct (Ctx.auth ctx) as [caller |]; cbn [fst snd]; [| now split].
  unfold Threads.getThreadById; cbn [fst snd].
  destruct (dbGet Thread._id (UpdateThreadArgs.threadId args) (threads w)) as [thread |];
    cbn [throw fst snd]; [| now split].
  destruct (negb (String.eqb (Thread.userId thread) caller));
    cbn [throwIf throw ret fst snd]; [now split |].
  destruct (UpdateThreadArgs.title args) as [title |];
    [destruct (isValidThreadTitle (sanitizeInput title));
       cbn [negb throwIf throw ret fst snd]; [| now split]
    | cbn [ret fst snd]].
  all: unfold Threads.updateThread; cbn [fst snd tasks nextId withThreads withJournal logged]; now split.
Qed.

Lemma deleteThread_tasks (w : World) (ctx : Ctx.t) (threadId : Id) :
  tasks (after (AssistantEndpoints.deleteThread ctx threadId) w) = tasks w
  /\ nextId w <= nextId (after (AssistantEndpoints.deleteThread ctx threadId) w).
Proof.
  unfold after, AssistantEndpoints.deleteThread, mutation, bind, getAuthUser, orThrow, ret.
  destruct (Ctx.auth ctx) as [caller |]; cbn [fst snd]; [| now split].
  unfold Threads.getThreadById; cbn [fst snd].
  destruct (dbGet Thread._id threadId (threads w)) as [thread |];
    cbn [throw fst snd]; [| now split].
  destruct (negb (String.eqb (Thread.userId thread) caller));
    cbn [throwIf throw ret fst snd]; [now split |].
  rewrite deleteMessagesByThread_run. unfold Threads.deleteThread.
  cbn [fst snd tasks nextId withThreads withMessages withJournal logged]. now split.
Qed.

Lemma sendMessage_tasks (w : World) (ctx : Ctx.t) (args : SendMessageArgs.t) :
  tasks (after (AssistantEndpoints.sendMessage ctx args) w) = tasks w
  /\ nextId w <= nextId (after (AssistantEndpoints.sendMessage ctx args) w).
Proof.
  unfold after. rewrite sendMessage_run.
  destruct (Ctx.auth ctx) as [caller |]; cbn [snd]; [| now split].
  destruct (ok _); [destruct (isValidMessageContent _) |]; now split.
Qed.

End Completion.

Section Invariant.
Context {P : Platform}.

(** The patch an update builds keeps the completion time in step with the
    status of the task whose stored status it has read. *)
Lemma statusUpdates_keeps (now : Z) (task : Task.t) (requested : option TaskStatus)
    (updates : TaskUpdates.t) :
  TaskUpdates.status updates = requested ->
  TaskUpdates.completedAt updates
  = TaskUpdates.completedAt
      (TaskEndpoints.statusUpdates now task requested TaskEndpoints.noUpdates) ->
  completedAtIffCompleted task ->
  completedAtIffCompleted (Tasks.applyUpdates now updates task).
Proof.
  unfold completedAtIffCompleted, Tasks.applyUpdates, TaskEndpoints.statusUpdates.
  intros Hst Hca [Hto Hfrom]; cbn [Task.completedAt Task.status].
  rewrite Hst, Hca. clear Hst Hca.
  destruct requested as [[] |]; destruct (Task.status task) eqn:Hs;
    cbn [TaskStatus_eqb andb negb orElse TaskUpdates.completedAt
         TaskEndpoints.setCompletedAt TaskEndpoints.setStatus TaskEndpoints.noUpdates];
    split; intros H; try congruence; try discriminate;
    try (apply Hto in H; discriminate); try (now apply Hfrom).
Qed.

Lemma storeInvariant_same_ids (w w' : World) :
  storeInvariant w ->
  Forall completedAtIffCompleted (tasks w') ->
  map Task._id (tasks w') = map Task._id (tasks w) ->
  nextId w <= nextId w' ->
  storeInvariant w'.
Proof.
  intros [_ [Hnd Hlt]] Hall Hids Hnext. unfold storeInvariant. rewrite Hids.
  split; [exact Hall | split; [exact Hnd |]].
  eapply Forall_impl; [| exact Hlt]. intros id Hid. cbn beta in *. lia.
Qed.

Lemma serve_keeps_invariant (w : World) (ctx : Ctx.t) (r : Request) :
  storeInvariant w -> storeInvariant (serve ctx r w).
Proof.
  intros Hinv. pose proof Hinv as [Hall [Hnd Hlt]].
  destruct r as [args | args | id | id | title | args | threadId | args]; cbn [serve].
  - destruct (create_cases w ctx args)
      as [[_ [Ht Hn]] | [task [_ [Ht [Hst [Hca [Hid Hn]]]]]]].
    + apply storeInvariant_same_ids with (w := w); [exact Hinv | ..]; rewrite ?Ht, ?Hn; auto.
    + unfold storeInvariant. rewrite Ht, Hn, map_app. cbn [map]. rewrite Hid.
      split; [| split].
      * apply Forall_app. split; [exact Hall |].
        constructor; [| constructor]. unfold completedAtIffCompleted.
        rewrite Hst, Hca. split; intros H; [congruence | discriminate].
      * apply NoDup_app; [exact Hnd | constructor; [intros [] | constructor] |].
        intros id Hin [Heq | []]. subst id.
        rewrite Forall_forall in Hlt. specialize (Hlt _ Hin). lia.
      * apply Forall_app. split.
        -- eapply Forall_impl; [| exact Hlt]. intros id Hid'. cbn beta in *. lia.
        -- constructor; [lia | constructor].
  - destruct (update_cases w ctx args)
      as [[_ [Ht Hn]] | [task [updates [Hget [Ht [_ [Hn [Hst Hca]]]]]]]].
    + apply storeInvariant_same_ids with (w := w); [exact Hinv | ..]; rewrite ?Ht, ?Hn; auto.
    + apply storeInvariant_same_ids with (w := w); [exact Hinv | ..]; rewrite ?Ht, ?Hn; auto.
      * apply Forall_dbPatch; [exact Hall |].
        intros d Hin Hid.
        destruct (dbGet_Some _ _ _ Hget) as [Hin' Hid'].
        assert (d = task) by (apply (unique_by_id Task._id (tasks w)); congruence).
        subst d. apply statusUpdates_keeps with (requested := UpdateArgs.status args);
          [exact Hst | exact Hca |].
        rewrite Forall_forall in Hall. now apply Hall.
      * apply dbPatch_ids. intros d. reflexivity.
  - destruct (complete_cases w ctx id) as [[_ [Ht Hn]] | [task [Hget [Ht [_ Hn]]]]].
    + apply storeInvariant_same_ids with (w := w); [exact Hinv | ..]; rewrite ?Ht, ?Hn; auto.
    + apply storeInvariant_same_ids with (w := w); [exact Hinv | ..]; rewrite ?Ht, ?Hn; auto.
      * apply Forall_dbPatch; [exact Hall |].
        intros d _ _. unfold completedAtIffCompleted. cbn.
        split; intros H; [reflexivity | discriminate].
      * apply dbPatch_ids. intros d. reflexivity.
  - destruct (remove_cases w ctx id) as [[Ht | Ht] Hn].
    + apply storeInvariant_same_ids with (w := w); [exact Hinv | ..]; rewrite ?Ht, ?Hn; auto.
    + unfold storeInvariant. rewrite Ht, Hn. split; [| split].
      * now apply Forall_dbDelete.
      * now apply NoDup_dbDelete.
      * apply Forall_forall. intros x Hx. rewrite Forall_forall in Hlt. apply Hlt.
        apply in_map_iff in Hx. destruct Hx as [d [Hd Hin]].
        apply filter_In in Hin. subst x. apply in_map. tauto.
  - destruct (createThread_tasks w ctx title) as [Ht Hn].
    apply storeInvariant_same_ids with (w := w); [exact Hinv | ..]; rewrite ?Ht; auto.
  - destruct (updateThread_tasks w ctx args) as [Ht Hn].
    apply storeInvariant_same_ids with (w := w); [exact Hinv | ..]; rewrite ?Ht; auto.
  - destruct (deleteThread_tasks w ctx threadId) as [Ht Hn].
    apply storeInvariant_same_ids with (w := w); [exact Hinv | ..]; rewrite ?Ht; auto.
  - destruct (sendMessage_tasks w ctx args) as [Ht Hn].
    apply storeInvariant_same_ids with (w := w); [exact Hinv | ..]; rewrite ?Ht; auto.
Qed.

Lemma reachable_invariant (w : World) : reachable w -> storeInvariant w.
Proof.
  induction 1 as [l | w ctx r _ IH].
  - unfold storeInvariant, emptyWorld; cbn. repeat split; constructor.
  - now apply serve_keeps_invariant.
Qed.

End Invariant.

Section CompletionTime.
Context {P : Platform}.

(** C2. In every world the service can reach, and after a create, an update
    or a complete served there, each task has a completion time exactly when
    its status is [completed]. A successful update decides on the status the
    task had in the store when the handler loaded it: a request for
    [completed] on a task stored with another status stamps the current
    time, a request for another status on a task stored as [completed]
    clears the time, and otherwise the time is kept. A successful complete
    leaves the task [completed] and stamped. *)
Theorem completedAt_iff_completed (w : World) (ctx : Ctx.t) :
  reachable w ->
  Forall completedAtIffCompleted (tasks w)
  /\ (forall args,
        Forall completedAtIffCompleted (tasks (after (TaskEndpoints.create ctx args) w)))
  /\ (forall args,
        Forall completedAtIffCompleted (tasks (after (TaskEndpoints.update ctx args) w)))
  /\ (forall id,
        Forall completedAtIffCompleted (tasks (after (TaskEndpoints.complete ctx id) w)))
  /\ (forall args task,
        dbGet Task._id (UpdateArgs.id args) (tasks w) = Some task ->
        isOk (outcome (TaskEndpoints.update ctx args) w) = true ->
        exists updated,
          outcome (TaskEndpoints.update ctx args) w = Ok (Some updated)
          /\ dbGet Task._id (UpdateArgs.id args)
               (tasks (after (TaskEndpoints.update ctx args) w)) = Some updated
          /\ (UpdateArgs.status args = Some completed ->
              Task.status task <> completed ->
              Task.completedAt updated = Some (Ctx.now ctx))
          /\ (forall s,
                UpdateArgs.status args = Some s -> s <> completed ->
                Task.status task = completed ->
                Task.completedAt updated = None)
          /\ (UpdateArgs.status args = Some completed ->
              Task.status task = completed ->
              Task.completedAt updated = Task.completedAt task)
          /\ (forall s,
                UpdateArgs.status args = Some s -> s <> completed ->
                Task.status task <> completed ->
                Task.completedAt updated = Task.completedAt task)
          /\ (UpdateArgs.status args = None ->
              Task.completedAt updated = Task.completedAt task
              /\ Task.status updated = Task.status task))
  /\ (forall id task,
        dbGet Task._id id (tasks w) = Some task ->
        isOk (outcome (TaskEndpoints.complete ctx id) w) = true ->
        exists updated,
          outcome (TaskEndpoints.complete ctx id) w = Ok (Some updated)
          /\ dbGet Task._id id (tasks (after (TaskEndpoints.complete ctx id) w))
             = Some updated
          /\ Task.status updated = completed
          /\ Task.completedAt updated = Some (Ctx.now ctx)).
Proof.
  intros Hreach.
  pose proof (reachable_invariant Hreach) as Hinv.
  split; [exact (proj1 Hinv) |].
  split; [intros args; exact (proj1 (serve_keeps_invariant ctx (CreateTask args) Hinv)) |].
  split; [intros args; exact (proj1 (serve_keeps_invariant ctx (UpdateTask args) Hinv)) |].
  split; [intros id; exact (proj1 (serve_keeps_invariant ctx (CompleteTask id) Hinv)) |].
  split.
  - intros args task Hget Hok.
    destruct (update_cases w ctx args)
      as [[Hfail _] | [task' [updates [Hget' [Ht [Hres [_ [Hst Hca]]]]]]]].
    + rewrite Hok in Hfail. discriminate.
    + rewrite Hget in Hget'. inversion Hget'; subst task'. clear Hget'.
      rewrite Ht in Hres.
      rewrite dbGet_dbPatch in Hres by (intros d; reflexivity).
      rewrite Hget in Hres. cbn [option_map] in Hres.
      exists (Tasks.applyUpdates (Ctx.now ctx) updates task).
      split; [exact Hres |].
      split.
      { rewrite Ht, dbGet_dbPatch by (intros d; reflexivity). now rewrite Hget. }
      unfold Tasks.applyUpdates; cbn [Task.completedAt Task.status].
      rewrite Hca, Hst. unfold TaskEndpoints.statusUpdates.
      refine (conj _ (conj _ (conj _ (conj _ _)))).
      * intros Hreq Hstored. rewrite Hreq.
        destruct (Task.status task); [reflexivity | reflexivity | congruence].
      * intros s Hreq Hs Hstored. rewrite Hreq, Hstored.
        destruct s; [reflexivity | reflexivity | congruence].
      * intros Hreq Hstored. rewrite Hreq, Hstored. reflexivity.
      * intros s Hreq Hs Hstored. rewrite Hreq.
        destruct s; destruct (Task.status task); try reflexivity; congruence.
      * intros Hreq. rewrite Hreq. split; reflexivity.
  - intros id task Hget Hok.
    destruct (complete_cases w ctx id) as [[Hfail _] | [task' [Hget' [Ht [Hres _]]]]].
    + rewrite Hok in Hfail. discriminate.
    + rewrite Ht in Hres.
      rewrite dbGet_dbPatch in Hres by (intros d; reflexivity).
      rewrite Hget in Hres. cbn [option_map] in Hres.
      eexists. split; [exact Hres |].
      split.
      { rewrite Ht, dbGet_dbPatch by (intros d; reflexivity). now rewrite Hget. }
      split; reflexivity.
Qed.

End CompletionTime.

(** From the empty store Alice creates a task, completes it and reopens it. *)
Lemma completedAt_iff_completed_witness :
  let w0 := @emptyWorld budgetPlatform plenty in
  let w1 := serve asAlice (CreateTask (CreateArgs.mk (js "draft") None None None)) w0 in
  let w2 := serve asAlice (CompleteTask 0) w1 in
  let reopen := UpdateArgs.mk 0 None None (Some pending) None None in
  let w3 := after (TaskEndpoints.update asAlice reopen) w2 in
  reachable w2
  /\ map Task.completedAt (tasks w2) = [Some noon]
  /\ Forall completedAtIffCompleted (tasks w2)
  /\ map Task.completedAt (tasks w3) = [None]
  /\ Forall completedAtIffCompleted (tasks w3).
Proof.
  intros w0 w1 w2 reopen w3.
  assert (Hreach : reachable w2) by (repeat constructor).
  destruct (@completedAt_iff_completed budgetPlatform w2 asAlice Hreach)
    as [Hnow [_ [Hupdate _]]].
  split; [exact Hreach |].
  split; [reflexivity |].
  split; [exact Hnow |].
  split; [reflexivity |].
  exact (Hupdate reopen).
Defined.

(** Alice asks for a due date six years ahead, on a create and on an update. *)
Lemma dueDate_outside_range_rejected_witness :
  let w := exampleWorld plenty 0 in
  let late := ofZ (noon + 6 * 365 * 24 * 60 * 60 * 1000) in
  JsNumber.isZero late = false
  /\ ~ dueDateInRange noon late
  /\ isInvalidInput
       (outcome (TaskEndpoints.create asAlice (CreateArgs.mk (js "a") None None (Some late))) w)
     = true
  /\ isInvalidInput
       (outcome (TaskEndpoints.update asAlice (UpdateArgs.mk 1 None None None None (Some late)))
          w)
     = true.
Proof.
  intros w late.
  assert (Hnz : JsNumber.isZero late = false) by reflexivity.
  assert (Hout : ~ dueDateInRange (Ctx.now asAlice) late).
  { unfold dueDateInRange, late, ofZ, asAlice, noon; cbn [Ctx.now].
    intros [_ Hle]. revert Hle. rewrite <- Zle_Qle. lia. }
  assert (Hnan : late <> NaN) by discriminate.
  destruct (@dueDate_outside_range_rejected budgetPlatform w asAlice late Hnz)
    as [Hrejected _].
  destruct (Hrejected Hout) as [Hcreate Hupdate].
  split; [exact Hnz |]. split; [exact Hout |]. split.
  - destruct (Hcreate Hnan (CreateArgs.mk (js "a") None None (Some late)) eq_refl)
      as [_ [_ Hinvalid]].
    exact (Hinvalid alice eq_refl eq_refl).
  - destruct (Hupdate (UpdateArgs.mk 1 None None None None (Some late)) eq_refl)
      as [_ [_ Hinvalid]].
    exact (Hinvalid alice openTask eq_refl eq_refl eq_refl eq_refl).
Defined.

(** C10, as stated, fails: NaN is a due date other than 0 and lies in no
    range, yet a create that supplies it is not refused; the task is stored
    with NaN as its due date. *)
Lemma create_stores_NaN_due_date :
  let w := exampleWorld plenty 0 in
  let args := CreateArgs.mk (js "a") None None (Some NaN) in
  JsNumber.isZero NaN = false
  /\ ~ dueDateInRange noon NaN
  /\ outcome (TaskEndpoints.create asAlice args) w = Ok 3
  /\ isInvalidInput (outcome (TaskEndpoints.create asAlice args) w) = false
  /\ option_map Task.dueDate
       (dbGet Task._id 3 (tasks (after (TaskEndpoints.create asAlice args) w)))
     = Some (Some NaN).
Proof.
  repeat split; try reflexivity. intros H. exact H.
Qed.

(** * Further properties *)

(** ** Sanitizing twice *)

Section SanitizeTwice.
Import Validation.

Lemma isWhiteSpace_space : isWhiteSpace 32%N = true.
Proof. reflexivity. Qed.

Lemma replaceWhiteSpaceRuns_twice (inRun : bool) (s : JsString) :
  replaceWhiteSpaceRuns inRun (replaceWhiteSpaceRuns inRun s) = replaceWhiteSpaceRuns inRun s.
Proof.
  revert inRun. induction s as [| c s IH]; intros inRun; simpl; [reflexivity |].
  destruct (isWhiteSpace c) eqn:Hc.
  - destruct inRun.
    + apply IH.
    + cbn [replaceWhiteSpaceRuns]. rewrite isWhiteSpace_space. f_equal. apply IH.
  - simpl. rewrite Hc. f_equal. apply IH.
Qed.

(** [trimStart] drops a prefix of white space and stops at the first other
    code unit. *)
Lemma trimStart_split (s : JsString) :
  exists prefix, s = prefix ++ trimStart s /\ allWhiteSpace prefix.
Proof.
  induction s as [| c s [prefix [Hs Hp]]]; simpl.
  - exists []. split; [reflexivity | constructor].
  - destruct (isWhiteSpace c) eqn:Hc.
    + exists (c :: prefix). split; [simpl; congruence | now constructor].
    + exists []. split; [reflexivity | constructor].
Qed.

Lemma trimStart_head (s : JsString) :
  match trimStart s with
  | [] => True
  | c :: _ => isWhiteSpace c = false
  end.
Proof.
  induction s as [| c s IH]; simpl; [exact I |].
  destruct (isWhiteSpace c) eqn:Hc; [exact IH | exact Hc].
Qed.

Lemma trimStart_clean (s : JsString) :
  match s with [] => True | c :: _ => isWhiteSpace c = false end -> trimStart s = s.
Proof.
  destruct s as [| c s]; simpl; [reflexivity |]. intros H. now rewrite H.
Qed.

Lemma trim_trimmed (s : JsString) : trimmed s -> trim s = s.
Proof.
  intros [Hhead Hlast]. unfold trim.
  rewrite (trimStart_clean s Hhead), (trimStart_clean (rev s) Hlast).
  apply rev_involutive.
Qed.

Lemma trimmed_trim (s : JsString) : trimmed (trim s).
Proof.
  unfold trimmed, trim. rewrite rev_involutive.
  split; [| apply trimStart_head].
  pose proof (trimStart_head s) as Hu.
  destruct (trimStart_split (rev (trimStart s))) as [prefix [Hsplit Hp]].
  remember (trimStart (rev (trimStart s))) as v eqn:Hv.
  remember (trimStart s) as u eqn:Hu'.
  assert (Hrev : u = rev v ++ rev prefix).
  { rewrite <- (rev_involutive u), Hsplit, rev_app_distr. reflexivity. }
  destruct (rev v) as [| c rv] eqn:Hrv; [exact I |].
  rewrite Hrev in Hu. exact Hu.
Qed.

Lemma replaceWhiteSpaceRuns_snoc (inRun : bool) (s : JsString) (c : N) :
  isWhiteSpace c = false ->
  replaceWhiteSpaceRuns inRun (s ++ [c]) = replaceWhiteSpaceRuns inRun s ++ [c].
Proof.
  intros Hc. revert inRun. induction s as [| d s IH]; intros inRun; simpl.
  - now rewrite Hc.
  - destruct (isWhiteSpace d); [destruct inRun |]; simpl; now rewrite IH.
Qed.

Lemma trimmed_replaceWhiteSpaceRuns (s : JsString) :
  trimmed s -> trimmed (replaceWhiteSpaceRuns false s).
Proof.
  intros [Hhead Hlast]. split.
  - destruct s as [| c s]; simpl; [exact I |]. now rewrite Hhead.
  - destruct (rev s) as [| c rs] eqn:Hrev.
    + apply (f_equal (@rev N)) in Hrev. rewrite rev_involutive in Hrev. subst s. exact I.
    + apply (f_equal (@rev N)) in Hrev. rewrite rev_involutive in Hrev. simpl in Hrev.
      subst s. rewrite replaceWhiteSpaceRuns_snoc by exact Hlast.
      rewrite rev_app_distr. exact Hlast.
Qed.

End SanitizeTwice.

(** ** Invariants through the handler monad *)

Section Keeping.
Context {P : Platform}.
Variable Inv : World -> Prop.
Hypothesis Inv_limiter : forall w l, Inv w -> Inv (withLimiter w l).
Hypothesis Inv_agent : forall w cs, Inv w -> Inv (withAgentCalls w cs).

Lemma keeps_ret {A} (a : A) (Q : A -> Prop) : Q a -> keeps Inv (ret a) Q.
Proof. intros HQ w Hw. split; [exact Hw |]. intros b Hb. inversion Hb. now subst. Qed.

Lemma keeps_throw {A} (e : Error) (Q : A -> Prop) : keeps Inv (throw e) Q.
Proof. intros w Hw. split; [exact Hw |]. intros b Hb. discriminate. Qed.

Lemma keeps_bind {A B} (c : M A) (k : A -> M B) (Q : A -> Prop) (R : B -> Prop) :
  keeps Inv c Q -> (forall a, Q a -> keeps Inv (k a) R) -> keeps Inv (bind c k) R.
Proof.
  intros Hc Hk w Hw. destruct (Hc w Hw) as [Hinv HQ].
  unfold after, outcome, bind in *.
  destruct (c w) as [[a | e] w']; cbn [fst snd] in *.
  - apply (Hk a (HQ a eq_refl) w' Hinv).
  - split; [exact Hinv |]. intros b Hb. discriminate.
Qed.

Lemma keeps_weaken {A} (c : M A) (Q Q' : A -> Prop) :
  keeps Inv c Q -> (forall a, Q a -> Q' a) -> keeps Inv c Q'.
Proof.
  intros Hc HQ w Hw. destruct (Hc w Hw) as [Hinv Hq]. split; [exact Hinv |].
  intros a Ha. apply HQ. now apply Hq.
Qed.

Lemma keeps_throwIf (cond : bool) (e : Error) :
  keeps Inv (throwIf cond e) (fun _ => cond = false).
Proof.
  destruct cond; cbn [throwIf]; [apply keeps_throw | now apply keeps_ret].
Qed.

Lemma keeps_orThrow {A} (x : option A) (e : Error) :
  keeps Inv (orThrow x e) (fun a => x = Some a).
Proof.
  destruct x; cbn [orThrow]; [now apply keeps_ret | apply keeps_throw].
Qed.

Lemma keeps_getAuthUser (ctx : Ctx.t) :
  keeps Inv (getAuthUser ctx) (fun caller => Ctx.auth ctx = Some caller).
Proof. apply keeps_orThrow. Qed.

Lemma keeps_rateLimit (name : string) (key : UserId) (now : Z) :
  keeps Inv (rateLimit name key now) (fun _ => True).
Proof.
  intros w Hw. unfold after, outcome, rateLimit.
  destruct (limit (limiter w) name key now) as [st l].
  destruct (ok st); cbn [fst snd]; split; auto.
Qed.

Lemma keeps_callAgent (prompt : list Turn) :
  keeps Inv (callAgent prompt) (fun _ => True).
Proof.
  intros w Hw. unfold after, outcome, callAgent.
  destruct (generate prompt); cbn [fst snd]; split; auto.
Qed.

(** A mutation keeps what its handler keeps: it leaves either the world of
    the handler or the world it started from. *)
Lemma keeps_mutation {A} (handler : M A) (Q : A -> Prop) :
  keeps Inv handler Q -> keeps Inv (mutation handler) Q.
Proof.
  intros Hc w Hw. destruct (Hc w Hw) as [Hinv HQ].
  rewrite mutation_outcome, mutation_after.
  split; [| exact HQ]. destruct (isOk (outcome handler w)); assumption.
Qed.

Lemma keeps_runQuery {Args A} (f : Registered Args A) (args : Args) (Q : A -> Prop) :
  keeps Inv (runQuery f args) Q.
Proof. apply keeps_throw. Qed.

Lemma keeps_runMutation {Args A} (f : Registered Args A) (args : Args) (Q : A -> Prop) :
  keeps Inv (runMutation f args) Q.
Proof. apply keeps_throw. Qed.

(** A computation that only reads. *)
Lemma keeps_read {A} (f : World -> A) :
  keeps Inv (fun w => (Ok (f w), w)) (fun _ => True).
Proof. intros w Hw. split; [exact Hw | trivial]. Qed.

End Keeping.

(** ** Distinct ids *)

Section WellFormed.
Context {P : Platform}.

Lemma fresh_append (ids : list Id) (n : Id) :
  NoDup ids -> Forall (fun id => id < n) ids ->
  NoDup (ids ++ [n]) /\ Forall (fun id => id < S n) (ids ++ [n]).
Proof.
  intros Hnd Hlt. split.
  - apply NoDup_app; [exact Hnd | constructor; [intros [] | constructor] |].
    intros id Hin [Heq | []]. subst id.
    rewrite Forall_forall in Hlt. specialize (Hlt _ Hin). lia.
  - apply Forall_app. split.
    + eapply Forall_impl; [| exact Hlt]. intros id Hid. cbn beta in *. lia.
    + constructor; [lia | constructor].
Qed.

Lemma below_next (ids : list Id) (n : Id) :
  Forall (fun id => id < n) ids -> Forall (fun id => id < S n) ids.
Proof. intros H. eapply Forall_impl; [| exact H]. intros id Hid. cbn beta in *. lia. Qed.

Lemma below_dbDelete {Doc} (idOf : Doc -> Id) (id n : Id) (table : list Doc) :
  Forall (fun i => i < n) (map idOf table) ->
  Forall (fun i => i < n) (map idOf (dbDelete idOf id table)).
Proof.
  intros H. apply Forall_forall. intros x Hx. rewrite Forall_forall in H. apply H.
  apply in_map_iff in Hx. destruct Hx as [d [Hd Hin]].
  apply filter_In in Hin. subst x. apply in_map. tauto.
Qed.

Lemma wellFormed_limiter (w : World) (l : Limiter) : wellFormed w -> wellFormed (withLimiter w l).
Proof. exact (fun H => H). Qed.

Lemma wellFormed_agent (w : World) (cs : list (list Turn)) :
  wellFormed w -> wellFormed (withAgentCalls w cs).
Proof. exact (fun H => H). Qed.

Lemma wf_createTask (now : Z) (args : Tasks.NewTask) :
  keeps wellFormed (Tasks.createTask now args) (fun _ => True).
Proof.
  intros w [Ht [Hth [Hm [Hlt [Hlth Hlm]]]]]. split; [| trivial].
  unfold after, Tasks.createTask, wellFormed; cbn.
  rewrite map_app; cbn [map Task._id].
  destruct (fresh_append Ht Hlt) as [Hnd Hlt'].
  repeat split; auto using below_next.
Qed.

Lemma wf_createThread (now : Z) (args : Threads.NewThread) :
  keeps wellFormed (Threads.createThread now args) (fun _ => True).
Proof.
  intros w [Ht [Hth [Hm [Hlt [Hlth Hlm]]]]]. split; [| trivial].
  unfold after, Threads.createThread, wellFormed; cbn.
  rewrite map_app; cbn [map Thread._id].
  destruct (fresh_append Hth Hlth) as [Hnd Hlt'].
  repeat split; auto using below_next.
Qed.

Lemma wf_createMessage (now : Z) (args : Messages.NewMessage) :
  keeps wellFormed (Messages.createMessage now args) (fun _ => True).
Proof.
  intros w [Ht [Hth [Hm [Hlt [Hlth Hlm]]]]]. split; [| trivial].
  unfold after, Messages.createMessage, wellFormed; cbn.
  rewrite map_app; cbn [map Message._id].
  destruct (fresh_append Hm Hlm) as [Hnd Hlt'].
  repeat split; auto using below_next.
Qed.

Lemma wf_updateTask (now : Z) (id : Id) (updates : TaskUpdates.t) :
  keeps wellFormed (Tasks.updateTask now id updates) (fun _ => True).
Proof.
  intros w Hw. split; [| trivial].
  unfold after, Tasks.updateTask, wellFormed in *; cbn.
  rewrite dbPatch_ids by (intros d; reflexivity). exact Hw.
Qed.

Lemma wf_updateThread (now : Z) (id : Id) (updates : ThreadUpdates.t) :
  keeps wellFormed (Threads.updateThread now id updates) (fun _ => True).
Proof.
  intros w Hw. split; [| trivial].
  unfold after, Threads.updateThread, wellFormed in *; cbn.
  rewrite dbPatch_ids by (intros d; reflexivity). exact Hw.
Qed.

Lemma wf_deleteTask (id : Id) : keeps wellFormed (Tasks.deleteTask id) (fun _ => True).
Proof.
  intros w [Ht [Hth [Hm [Hlt [Hlth Hlm]]]]]. split; [| trivial].
  unfold after, Tasks.deleteTask, wellFormed; cbn.
  repeat split; auto using NoDup_dbDelete, below_dbDelete.
Qed.

Lemma wf_deleteThread (id : Id) : keeps wellFormed (Threads.deleteThread id) (fun _ => True).
Proof.
  intros w [Ht [Hth [Hm [Hlt [Hlth Hlm]]]]]. split; [| trivial].
  unfold after, Threads.deleteThread, wellFormed; cbn.
  repeat split; auto using NoDup_dbDelete, below_dbDelete.
Qed.

Lemma wf_withoutBatch (batch : list Message.t) (w : World) :
  wellFormed w -> wellFormed (withMessages w (withoutBatch batch (messages w))).
Proof.
  intros [Ht [Hth [Hm [Hlt [Hlth Hlm]]]]]. unfold wellFormed; cbn.
  assert (H : NoDup (map Message._id (withoutBatch batch (messages w)))
              /\ Forall (fun i => i < nextId w)
                   (map Message._id (withoutBatch batch (messages w)))).
  { unfold withoutBatch. revert Hm Hlm. generalize (messages w) as table.
    induction batch as [| m batch IH]; intros table Hm Hlm; cbn [fold_left]; [now split |].
    apply IH; auto using NoDup_dbDelete, below_dbDelete. }
  destruct H. repeat split; assumption.
Qed.

Lemma wf_deleteMessagesByThread (thread : Id) :
  keeps wellFormed (Messages.deleteMessagesByThread thread) (fun _ => True).
Proof.
  intros w Hw. split; [| trivial].
  unfold after. rewrite deleteMessagesByThread_run; cbn [snd].
  now apply wf_withoutBatch.
Qed.

End WellFormed.

Section KeepingPlain.
Context {P : Platform}.
Variable Inv : World -> Prop.
Hypothesis Inv_limiter : forall w l, Inv w -> Inv (withLimiter w l).
Hypothesis Inv_agent : forall w cs, Inv w -> Inv (withAgentCalls w cs).

Lemma keeps_forget {A} (c : M A) (Q : A -> Prop) :
  keeps Inv c Q -> keeps Inv c (fun _ => True).
Proof. intros H. eapply keeps_weaken; [exact H | trivial]. Qed.

Lemma keeps_bind_plain {A B} (c : M A) (k : A -> M B) (R : B -> Prop) :
  keeps Inv c (fun _ => True) -> (forall a, keeps Inv (k a) R) -> keeps Inv (bind c k) R.
Proof. intros Hc Hk. eapply keeps_bind; [exact Hc |]. intros a _. apply Hk. Qed.

Lemma keeps_step_plain {A} (c : M A) :
  (forall w, snd (c w) = w \/ (exists l, snd (c w) = withLimiter w l)
             \/ (exists cs, snd (c w) = withAgentCalls w cs)) ->
  keeps Inv c (fun _ => True).
Proof.
  intros H w Hw. split; [| trivial]. unfold after.
  destruct (H w) as [-> | [[l ->] | [cs ->]]]; auto.
Qed.

End KeepingPlain.

(** Steps that leave the tables and the counter alone. *)
Ltac quiet_step :=
  apply keeps_step_plain; [assumption || auto | assumption || auto |];
  let w := fresh "w" in
  intros w;
  first
    [ left; reflexivity
    | left;
      unfold getAuthUser, orThrow, throwIf, throw, ret, Tasks.getTaskById,
        Tasks.getTasksByUser, Threads.getThreadById, Threads.getThreadsByUser,
        Messages.getMessageById, Messages.getMessagesByThread,
        Messages.getRecentMessagesByThread, Messages.countMessagesInThread, bind, ret;
      repeat match goal with
             | |- context [match ?x with _ => _ end] => destruct x
             end;
      reflexivity
    | right; left; unfold rateLimit;
      match goal with
      | |- context [limit ?l ?n ?k ?t] => destruct (limit l n k t) as [[[] ?] ?]
      end; eexists; reflexivity
    | right; right; unfold callAgent;
      match goal with
      | |- context [generate ?p] => destruct (generate p)
      end; eexists; reflexivity ].

Ltac keep_going write :=
  cbv zeta;
  lazymatch goal with
  | |- keeps _ (bind _ _) _ =>
      eapply keeps_bind_plain; [keep_going write | intros ?; keep_going write]
  | |- keeps _ (match ?x with _ => _ end) _ => destruct x; keep_going write
  | |- keeps _ _ _ => first [ solve [write] | solve [quiet_step] | idtac ]
  end.

Section HandlersWellFormed.
Context {P : Platform}.

Ltac wf_write :=
  first [ apply wf_createTask | apply wf_updateTask | apply wf_deleteTask
        | apply wf_createThread | apply wf_updateThread | apply wf_deleteThread
        | apply wf_createMessage | apply wf_deleteMessagesByThread
        ].

Lemma serve_keeps_wellFormed (w : World) (ctx : Ctx.t) (r : Request) :
  wellFormed w -> wellFormed (serve ctx r w).
Proof.
  intros Hw.
  assert (Hl := wellFormed_limiter). assert (Ha := wellFormed_agent).
  destruct r; cbn [serve];
    match goal with
    | |- wellFormed (after ?c w) =>
        assert (Hk : keeps wellFormed c (fun _ => True));
        [| exact (proj1 (Hk w Hw))]
    end.
  - unfold TaskEndpoints.create. apply keeps_mutation. keep_going wf_write.
  - unfold TaskEndpoints.update. apply keeps_mutation. keep_going wf_write.
  - unfold TaskEndpoints.complete, Tasks.markTaskCompleted. apply keeps_mutation.
    keep_going wf_write.
  - unfold TaskEndpoints.remove. apply keeps_mutation. keep_going wf_write.
  - unfold AssistantEndpoints.createThread. apply keeps_mutation. keep_going wf_write.
  - unfold AssistantEndpoints.updateThread. apply keeps_mutation. keep_going wf_write.
  - unfold AssistantEndpoints.deleteThread. apply keeps_mutation. keep_going wf_write.
  - unfold AssistantEndpoints.sendMessage. keep_going wf_write.
Qed.

Lemma reachable_wellFormed (w : World) : reachable w -> wellFormed w.
Proof.
  induction 1 as [l | w ctx r _ IH].
  - unfold wellFormed, emptyWorld; cbn. repeat split; constructor.
  - now apply serve_keeps_wellFormed.
Qed.

End HandlersWellFormed.

(** ** What sanitizing guarantees *)

Section SanitizeShape.
Import Validation.

Lemma replaceWhiteSpaceRuns_onlySpaces (inRun : bool) (s : JsString) :
  onlySpaces (replaceWhiteSpaceRuns inRun s).
Proof.
  revert inRun. induction s as [| c s IH]; intros inRun; cbn [replaceWhiteSpaceRuns].
  - constructor.
  - destruct (isWhiteSpace c) eqn:Hc; [destruct inRun |].
    + apply IH.
    + constructor; [reflexivity | apply IH].
    + constructor; [congruence | apply IH].
Qed.

Lemma replaceWhiteSpaceRuns_noAdjacent (inRun : bool) (s : JsString) :
  noAdjacentWhiteSpace (replaceWhiteSpaceRuns inRun s)
  /\ (inRun = true ->
      match replaceWhiteSpaceRuns inRun s with
      | [] => True
      | c :: _ => isWhiteSpace c = false
      end).
Proof.
  revert inRun. induction s as [| c s IH]; intros inRun; cbn [replaceWhiteSpaceRuns].
  - now split.
  - destruct (isWhiteSpace c) eqn:Hc; [destruct inRun |].
    + apply IH.
    + split; [| discriminate].
      destruct (IH true) as [Hno Hhead]. specialize (Hhead eq_refl).
      destruct (replaceWhiteSpaceRuns true s) as [| d rest]; cbn; [exact I |].
      split; [| exact Hno]. rewrite Hhead. now rewrite ?andb_false_r.
    + split; [| intros _; exact Hc].
      destruct (IH false) as [Hno _].
      destruct (replaceWhiteSpaceRuns false s) as [| d rest]; cbn; [exact I |].
      split; [| exact Hno]. now rewrite Hc.
Qed.

Lemma allWhiteSpace_trimStart (s : JsString) : allWhiteSpace s -> trimStart s = [].
Proof.
  induction 1 as [| c s Hc _ IH]; cbn [trimStart]; [reflexivity |]. now rewrite Hc.
Qed.

Lemma trimStart_nil (s : JsString) : trimStart s = [] -> allWhiteSpace s.
Proof.
  intros H. destruct (trimStart_split s) as [prefix [Hs Hp]].
  rewrite H, app_nil_r in Hs. now subst.
Qed.

Lemma replaceWhiteSpaceRuns_nil (s : JsString) :
  replaceWhiteSpaceRuns false s = [] -> s = [].
Proof.
  destruct s as [| c s]; cbn [replaceWhiteSpaceRuns]; [reflexivity |].
  destruct (isWhiteSpace c); discriminate.
Qed.

Lemma sanitizeInput_twice (s : JsString) :
  sanitizeInput (sanitizeInput s) = sanitizeInput s.
Proof.
  unfold sanitizeInput.
  rewrite (trim_trimmed (trimmed_replaceWhiteSpaceRuns (trimmed_trim s))).
  apply replaceWhiteSpaceRuns_twice.
Qed.

Lemma replaceWhiteSpaceRuns_fixed (inRun : bool) (s : JsString) :
  onlySpaces s -> noAdjacentWhiteSpace s ->
  (inRun = true -> match s with [] => True | c :: _ => isWhiteSpace c = false end) ->
  replaceWhiteSpaceRuns inRun s = s.
Proof.
  revert inRun. induction s as [| c s IH]; intros inRun Honly Hadj Hhead;
    cbn [replaceWhiteSpaceRuns]; [reflexivity |].
  inversion Honly as [| ? ? Hc Honly']; subst.
  assert (Hadj' : noAdjacentWhiteSpace s).
  { destruct s; [exact I | exact (proj2 Hadj)]. }
  destruct (isWhiteSpace c) eqn:Hws.
  - destruct inRun; [specialize (Hhead eq_refl); congruence |].
    rewrite (Hc eq_refl). f_equal. apply IH; auto.
    intros _. destruct s as [| d s]; [exact I |].
    destruct Hadj as [Hpair _]. rewrite Hws in Hpair. exact Hpair.
  - f_equal. apply IH; auto. discriminate.
Qed.

(** X1. Whatever the input, the sanitized string has no white space at
    either end, holds no white space but single spaces, and sanitizing it
    again changes nothing. *)
Theorem sanitizeInput_normalizes (s : JsString) :
  trimmed (sanitizeInput s)
  /\ onlySpaces (sanitizeInput s)
  /\ noAdjacentWhiteSpace (sanitizeInput s)
  /\ sanitizeInput (sanitizeInput s) = sanitizeInput s.
Proof.
  split; [| split; [| split]].
  - apply trimmed_replaceWhiteSpaceRuns, trimmed_trim.
  - apply replaceWhiteSpaceRuns_onlySpaces.
  - apply replaceWhiteSpaceRuns_noAdjacent.
  - apply sanitizeInput_twice.
Qed.

(** X2. The strings sanitizing leaves as they are, are exactly the trimmed
    strings whose white space is single spaces. *)
Theorem sanitizeInput_fixed_points (s : JsString) :
  sanitizeInput s = s
  <-> trimmed s /\ onlySpaces s /\ noAdjacentWhiteSpace s.
Proof.
  split.
  - intros H. rewrite <- H. split; [| split].
    + apply trimmed_replaceWhiteSpaceRuns, trimmed_trim.
    + apply replaceWhiteSpaceRuns_onlySpaces.
    + apply replaceWhiteSpaceRuns_noAdjacent.
  - intros [Htrim [Honly Hadj]]. unfold sanitizeInput.
    rewrite (trim_trimmed Htrim).
    apply replaceWhiteSpaceRuns_fixed; auto. discriminate.
Qed.

(** X3. Sanitizing yields the empty string exactly for the inputs made of
    white space only (the empty input among them). *)
Theorem sanitizeInput_empty_iff_blank (s : JsString) :
  sanitizeInput s = [] <-> allWhiteSpace s.
Proof.
  unfold sanitizeInput, trim. split.
  - intros H. apply replaceWhiteSpaceRuns_nil in H.
    apply (f_equal (@rev N)) in H. rewrite rev_involutive in H. cbn [rev] in H.
    apply trimStart_nil in H.
    assert (Hall : allWhiteSpace (trimStart s)).
    { unfold allWhiteSpace in *. rewrite <- (rev_involutive (trimStart s)).
      now apply Forall_rev. }
    pose proof (trimStart_head s) as Hhead.
    destruct (trimStart s) as [| c u] eqn:Hu.
    + now apply trimStart_nil.
    + inversion Hall; subst. congruence.
  - intros H. now rewrite (allWhiteSpace_trimStart H).
Qed.

End SanitizeShape.

(** "a b" is left as it is. *)
Lemma sanitizeInput_fixed_points_witness :
  Validation.sanitizeInput (js "a b") = js "a b".
Proof.
  apply (proj2 (sanitizeInput_fixed_points (js "a b"))).
  split; [| split].
  - split; vm_compute; reflexivity.
  - repeat constructor; vm_compute; intros H; try reflexivity; discriminate H.
  - repeat split; vm_compute; reflexivity.
Defined.

(** A space, a tab and a line feed sanitize to the empty string. *)
Lemma sanitizeInput_empty_iff_blank_witness :
  Validation.sanitizeInput [32%N; 9%N; 10%N] = [].
Proof.
  apply (proj2 (sanitizeInput_empty_iff_blank [32%N; 9%N; 10%N])).
  repeat constructor.
Defined.

(** Unfold a handler down to the store and split on every test it makes. *)
Ltac unfold_handlers :=
  unfold outcome, after,
    TaskEndpoints.create, TaskEndpoints.list, TaskEndpoints.get, TaskEndpoints.update,
    TaskEndpoints.complete, TaskEndpoints.remove,
    AssistantEndpoints.createThread, AssistantEndpoints.listThreads,
    AssistantEndpoints.getThread, AssistantEndpoints.updateThread,
    AssistantEndpoints.deleteThread, mutation, AssistantEndpoints.sendMessage,
    DashboardEndpoints.summary, DashboardEndpoints.recent,
    Dashboard.loadSummary, Dashboard.loadRecent,
    Tasks.createTask, Tasks.getTaskById, Tasks.getTasksByUser, Tasks.markTaskCompleted,
    Tasks.updateTask, Tasks.deleteTask,
    Threads.createThread, Threads.getThreadById, Threads.getThreadsByUser,
    Threads.updateThread, Threads.deleteThread,
    Messages.countMessagesInThread, Messages.createMessage, Messages.getMessageById,
    Messages.getMessagesByThread, Messages.getRecentMessagesByThread,
    runQuery, runMutation, callAgent, getAuthUser, orThrow, throwIf, throw, bind, ret.

Ltac reduce_world :=
  cbn [fst snd tasks threads messages nextId limiter agentCalls withTasks withThreads
       withMessages withNextId withLimiter withAgentCalls Ctx.auth Ctx.now withJournal logged].

(** Run a handler: take the tests it makes one by one, innermost first. *)
Ltac split_tests :=
  repeat (reduce_world;
          first
            [ rewrite rateLimit_run
            | rewrite deleteMessagesByThread_run
            | match goal with
              | |- context [match ?x with _ => _ end] =>
                  lazymatch x with
                  | context [match _ with _ => _ end] => fail
                  | _ => destruct x eqn:?
                  end
              end ]);
  reduce_world.

(** ** Authentication and the rate limit, handler by handler *)

Section Gate.
Context {P : Platform}.

(** X4. A call without an authenticated user is answered [Unauthenticated] by
    every handler, and leaves the whole world as it was: no table, no
    rate-limit bucket and no agent call is touched. *)
Theorem unauthenticated_call_changes_nothing (w : World) (ctx : Ctx.t) :
  Ctx.auth ctx = None ->
  (forall args, TaskEndpoints.create ctx args w = (Err Unauthenticated, w))
  /\ TaskEndpoints.list ctx w = (Err Unauthenticated, w)
  /\ (forall id, TaskEndpoints.get ctx id w = (Err Unauthenticated, w))
  /\ (forall args, TaskEndpoints.update ctx args w = (Err Unauthenticated, w))
  /\ (forall id, TaskEndpoints.complete ctx id w = (Err Unauthenticated, w))
  /\ (forall id, TaskEndpoints.remove ctx id w = (Err Unauthenticated, w))
  /\ (forall title, AssistantEndpoints.createThread ctx title w = (Err Unauthenticated, w))
  /\ AssistantEndpoints.listThreads ctx w = (Err Unauthenticated, w)
  /\ (forall id, AssistantEndpoints.getThread ctx id w = (Err Unauthenticated, w))
  /\ (forall args, AssistantEndpoints.updateThread ctx args w = (Err Unauthenticated, w))
  /\ (forall id, AssistantEndpoints.deleteThread ctx id w = (Err Unauthenticated, w))
  /\ (forall args, AssistantEndpoints.sendMessage ctx args w = (Err Unauthenticated, w))
  /\ DashboardEndpoints.summary ctx w = (Err Unauthenticated, w)
  /\ (forall limit, DashboardEndpoints.recent ctx limit w = (Err Unauthenticated, w)).
Proof.
  intros Hauth.
  repeat match goal with |- _ /\ _ => split end; intros;
    unfold_handlers; rewrite Hauth; reflexivity.
Qed.

Lemma ceilSeconds_rounds_up (x : Z) :
  (1000 * (ceilSeconds x - 1) < x <= 1000 * ceilSeconds x)%Z.
Proof.
  unfold ceilSeconds.
  pose proof (Z.div_mod (- x) 1000 ltac:(lia)) as Hdm.
  pose proof (Z.mod_pos_bound (- x) 1000 ltac:(lia)) as Hb. lia.
Qed.

(** X5. When the limiter refuses the bucket of a handler, the handler fails
    with [RateLimited], carrying the limiter's retry delay rounded up to whole
    seconds, and neither a table nor the agent is touched. The buckets are:
    createTask for create, updateTask for update and for complete,
    deleteTask for remove, createThread and sendMessage for the handlers of
    these names. *)
Theorem rate_limited_call_is_refused (w : World) (caller : UserId) (now : Z) (bucket : string) :
  admits w bucket caller now = false ->
  let ctx := Ctx.mk (Some caller) now in
  let wait := retryAfter (fst (limit (limiter w) bucket caller now)) in
  (1000 * (ceilSeconds wait - 1) < wait <= 1000 * ceilSeconds wait)%Z
  /\ (bucket = "createTask"%string ->
      forall args, rateLimitedWith wait (TaskEndpoints.create ctx args) w)
  /\ (bucket = "updateTask"%string ->
      (forall args, rateLimitedWith wait (TaskEndpoints.update ctx args) w)
      /\ (forall id, rateLimitedWith wait (TaskEndpoints.complete ctx id) w))
  /\ (bucket = "deleteTask"%string ->
      forall id, rateLimitedWith wait (TaskEndpoints.remove ctx id) w)
  /\ (bucket = "createThread"%string ->
      forall title, rateLimitedWith wait (AssistantEndpoints.createThread ctx title) w)
  /\ (bucket = "sendMessage"%string ->
      forall args, rateLimitedWith wait (AssistantEndpoints.sendMessage ctx args) w).
Proof.
  intros Hadm ctx wait. subst ctx wait.
  split; [apply ceilSeconds_rounds_up |].
  unfold rateLimitedWith, sameTables, agentSilent.
  repeat match goal with |- _ /\ _ => split end; intros ->; try split; intros;
    unfold_handlers; cbn [Ctx.auth Ctx.now fst snd]; rewrite rateLimit_run, Hadm;
    cbn [fst snd]; repeat split.
Qed.

(** X6. The rate limiter's token and the transaction. The five rate-limited
    mutations ask the limiter once, on their own bucket with the caller as
    key, and the token stays taken only when the call succeeds: a call that
    fails, for whatever reason, leaves the whole world as it was. The action
    [sendMessage] is no transaction: it never succeeds, and the limiter stays
    in the state its request on the bucket sendMessage produced. Updating and
    deleting a thread leave the limiter alone, and the reading handlers leave
    the whole world as it was. *)
Theorem token_follows_the_transaction (w : World) (caller : UserId) (now : Z) :
  let ctx := Ctx.mk (Some caller) now in
  (forall args, chargedOnSuccess "createTask" caller now (TaskEndpoints.create ctx args) w)
  /\ (forall args, chargedOnSuccess "updateTask" caller now (TaskEndpoints.update ctx args) w)
  /\ (forall id, chargedOnSuccess "updateTask" caller now (TaskEndpoints.complete ctx id) w)
  /\ (forall id, chargedOnSuccess "deleteTask" caller now (TaskEndpoints.remove ctx id) w)
  /\ (forall title,
        chargedOnSuccess "createThread" caller now
          (AssistantEndpoints.createThread ctx title) w)
  /\ (forall args,
        isOk (outcome (AssistantEndpoints.sendMessage ctx args) w) = false
        /\ after (AssistantEndpoints.sendMessage ctx args) w
           = withLimiter w (snd (limit (limiter w) "sendMessage" caller now)))
  /\ (forall args,
        limiter (after (AssistantEndpoints.updateThread ctx args) w) = limiter w
        /\ (isOk (outcome (AssistantEndpoints.updateThread ctx args) w) = false ->
            after (AssistantEndpoints.updateThread ctx args) w = w))
  /\ (forall id,
        limiter (after (AssistantEndpoints.deleteThread ctx id) w) = limiter w
        /\ (isOk (outcome (AssistantEndpoints.deleteThread ctx id) w) = false ->
            after (AssistantEndpoints.deleteThread ctx id) w = w))
  /\ after (TaskEndpoints.list ctx) w = w
  /\ (forall id, after (TaskEndpoints.get ctx id) w = w)
  /\ after (AssistantEndpoints.listThreads ctx) w = w
  /\ (forall id, after (AssistantEndpoints.getThread ctx id) w = w)
  /\ after (DashboardEndpoints.summary ctx) w = w
  /\ (forall limit, after (DashboardEndpoints.recent ctx limit) w = w).
Proof.
  intros ctx. subst ctx. unfold chargedOnSuccess.
  repeat match goal with |- _ /\ _ => split end; intros;
    unfold_handlers; cbn [Ctx.auth Ctx.now fst snd]; rewrite ?rateLimit_run;
    split_tests; cbn [isOk]; repeat split; intros; reduce_world;
    try reflexivity; try discriminate.
Qed.

End Gate.

(** An anonymous caller, in the world of the story. *)
Lemma unauthenticated_call_changes_nothing_witness :
  let anonymous := Ctx.mk None noon in
  TaskEndpoints.remove anonymous 0 storyWorld = (Err Unauthenticated, storyWorld)
  /\ AssistantEndpoints.sendMessage anonymous (SendMessageArgs.mk 1 (js "hi")) storyWorld
     = (Err Unauthenticated, storyWorld).
Proof.
  intros anonymous.
  destruct (@unauthenticated_call_changes_nothing budgetPlatform storyWorld anonymous eq_refl)
    as [_ [_ [_ [_ [_ [Hremove [_ [_ [_ [_ [_ [Hsend _]]]]]]]]]]]].
  split; [apply Hremove | apply Hsend].
Defined.

(** Alice's create with a blank title gives the token back, her create with
    a title keeps it, and so does her message, which fails. *)
Lemma token_follows_the_transaction_witness :
  let w := exampleWorld plenty 0 in
  let blank := CreateArgs.mk (js "   ") None None None in
  let draft := CreateArgs.mk (js "draft") None None None in
  let hello := SendMessageArgs.mk 2 (js "hello") in
  after (TaskEndpoints.create asAlice blank) w = w
  /\ limiter (after (TaskEndpoints.create asAlice draft) w)
     = snd (spend "createTask" alice plenty)
  /\ isOk (outcome (AssistantEndpoints.sendMessage asAlice hello) w) = false
  /\ limiter (after (AssistantEndpoints.sendMessage asAlice hello) w)
     = snd (spend "sendMessage" alice plenty).
Proof.
  intros w blank draft hello.
  destruct (@token_follows_the_transaction budgetPlatform w alice noon)
    as [Hcreate [_ [_ [_ [_ [Hsend _]]]]]].
  split; [exact (proj2 (Hcreate blank) eq_refl) |].
  split; [exact (proj1 (Hcreate draft) eq_refl) |].
  destruct (Hsend hello) as [Hfails Hafter].
  split; [exact Hfails |]. fold asAlice in Hafter. rewrite Hafter. reflexivity.
Defined.

(** With nothing left in her bucket, Alice is told to wait the 1500 ms of the
    limiter, rounded up to 2 seconds. *)
Lemma rate_limited_call_is_refused_witness :
  let w := exampleWorld exhausted 0 in
  let args := CreateArgs.mk (js "draft") None None None in
  outcome (TaskEndpoints.create asAlice args) w = Err (RateLimited 2)
  /\ sameTables w (after (TaskEndpoints.create asAlice args) w).
Proof.
  intros w args.
  destruct (@rate_limited_call_is_refused budgetPlatform w alice noon "createTask" eq_refl)
    as [_ [Hcreate _]].
  destruct (Hcreate eq_refl args) as [Hout [Hsame _]].
  split; [exact Hout | exact Hsame].
Defined.

(** ** More facts about the store primitives *)

Section MoreTableFacts.
Variable Doc : Type.
Variable idOf : Doc -> Id.

Lemma dbGet_dbDelete_same (id : Id) (table : list Doc) :
  dbGet idOf id (dbDelete idOf id table) = None.
Proof.
  unfold dbGet, dbDelete. induction table as [| d table IH]; cbn; [reflexivity |].
  destruct (Nat.eqb (idOf d) id) eqn:Hid; cbn; [exact IH | now rewrite Hid].
Qed.

Lemma dbGet_dbDelete_other (id other : Id) (table : list Doc) :
  other <> id -> dbGet idOf other (dbDelete idOf id table) = dbGet idOf other table.
Proof.
  intros Hneq. unfold dbGet, dbDelete. induction table as [| d table IH]; cbn; [reflexivity |].
  destruct (Nat.eqb (idOf d) id) eqn:Hid; cbn.
  - apply Nat.eqb_eq in Hid.
    destruct (Nat.eqb (idOf d) other) eqn:Ho; [apply Nat.eqb_eq in Ho; congruence | exact IH].
  - destruct (Nat.eqb (idOf d) other); [reflexivity | exact IH].
Qed.

Lemma dbGet_dbPatch_other (id other : Id) (f : Doc -> Doc) (table : list Doc) :
  (forall d, idOf (f d) = idOf d) ->
  other <> id -> dbGet idOf other (dbPatch idOf id f table) = dbGet idOf other table.
Proof.
  intros Hf Hneq. unfold dbGet, dbPatch.
  induction table as [| d table IH]; cbn; [reflexivity |].
  destruct (Nat.eqb (idOf d) id) eqn:Hid.
  - rewrite Hf. apply Nat.eqb_eq in Hid.
    destruct (Nat.eqb (idOf d) other) eqn:Ho; [apply Nat.eqb_eq in Ho; congruence | exact IH].
  - destruct (Nat.eqb (idOf d) other); [reflexivity | exact IH].
Qed.

Lemma dbGet_app_found (id : Id) (table more : list Doc) (d : Doc) :
  dbGet idOf id table = Some d -> dbGet idOf id (table ++ more) = Some d.
Proof.
  unfold dbGet. induction table as [| x table IH]; cbn; [discriminate |].
  destruct (Nat.eqb (idOf x) id); [trivial | exact IH].
Qed.

Lemma dbGet_app_fresh (id : Id) (table : list Doc) (d : Doc) :
  idOf d = id ->
  Forall (fun i => i < id) (map idOf table) ->
  dbGet idOf id (table ++ [d]) = Some d.
Proof.
  intros Hd. unfold dbGet. induction table as [| x table IH]; cbn; intros H.
  - now rewrite Hd, Nat.eqb_refl.
  - inversion H as [| ? ? Hx Hrest]; subst.
    destruct (Nat.eqb (idOf x) (idOf d)) eqn:Hid; [apply Nat.eqb_eq in Hid; lia | now apply IH].
Qed.

Lemma dbGet_fresh_none (id : Id) (table : list Doc) :
  Forall (fun i => i < id) (map idOf table) -> dbGet idOf id table = None.
Proof.
  unfold dbGet. induction table as [| x table IH]; cbn; intros H; [reflexivity |].
  inversion H as [| ? ? Hx Hrest]; subst.
  destruct (Nat.eqb (idOf x) id) eqn:Hid; [apply Nat.eqb_eq in Hid; lia | now apply IH].
Qed.

End MoreTableFacts.

Section TaskLifeCycle.
Context {P : Platform}.
Import Validation Constants.

(** The caller whom the ownership test has let through. *)
Lemma owner_of_eqb (owner caller : UserId) :
  negb (String.eqb owner caller) = false -> owner = caller.
Proof. intros H. apply negb_false_iff in H. now apply String.eqb_eq. Qed.

(** X7. Deleting a task: for an id that is not stored the owner-side call
    fails with [NotFound] and changes no table; for a task of the caller it
    succeeds, the id is then absent, every other id resolves as before, the
    table is shorter, and threads and messages are left alone. *)
Theorem remove_deletes_only_target (w : World) (caller : UserId) (now : Z) (id : Id) :
  admits w "deleteTask" caller now = true ->
  let ctx := Ctx.mk (Some caller) now in
  let w' := after (TaskEndpoints.remove ctx id) w in
  (dbGet Task._id id (tasks w) = None ->
   outcome (TaskEndpoints.remove ctx id) w = Err NotFound /\ sameTables w w')
  /\ (forall task,
        dbGet Task._id id (tasks w) = Some task ->
        Task.userId task = caller ->
        outcome (TaskEndpoints.remove ctx id) w = Ok tt
        /\ dbGet Task._id id (tasks w') = None
        /\ (forall other, other <> id ->
                          dbGet Task._id other (tasks w') = dbGet Task._id other (tasks w))
        /\ length (tasks w') < length (tasks w)
        /\ threads w' = threads w
        /\ messages w' = messages w).
Proof.
  intros Hadm ctx w'. subst ctx w'. unfold sameTables. unfold_handlers.
  cbn [Ctx.auth Ctx.now fst snd]. rewrite rateLimit_run, Hadm. cbn [fst snd tasks withLimiter withJournal logged].
  split.
  - intros Hget. rewrite Hget. cbn. repeat split.
  - intros task Hget Hown. rewrite Hget. subst caller. rewrite owner_eqb.
    cbn [fst snd tasks threads messages withTasks withLimiter withJournal logged].
    refine (conj eq_refl (conj _ (conj _ (conj _ (conj eq_refl eq_refl))))).
    + apply dbGet_dbDelete_same.
    + intros other Hneq. now apply dbGet_dbDelete_other.
    + destruct (dbGet_Some _ _ _ Hget) as [Hin Hid].
      unfold dbDelete. clear Hget.
      induction (tasks w) as [| d table IH]; [contradiction |].
      cbn [filter length]. destruct Hin as [-> | Hin].
      * rewrite Hid, Nat.eqb_refl. cbn [negb].
        pose proof (filter_length_le (fun d => negb (Nat.eqb (Task._id d) id)) table). lia.
      * specialize (IH Hin). destruct (negb _); cbn [length]; lia.
Qed.

End TaskLifeCycle.

(** Alice deletes her task 0 of the story; Bob's task 2 stays. *)
Lemma remove_deletes_only_target_witness :
  let w' := after (TaskEndpoints.remove asAlice 0) storyWorld in
  outcome (TaskEndpoints.remove asAlice 0) storyWorld = Ok tt
  /\ dbGet Task._id 0 (tasks w') = None
  /\ option_map Task.userId (dbGet Task._id 2 (tasks w')) = Some bob.
Proof.
  intros w'.
  destruct (@remove_deletes_only_target budgetPlatform storyWorld alice noon 0 eq_refl)
    as [_ Hfound].
  assert (Hget : exists task, dbGet Task._id 0 (tasks storyWorld) = Some task
                              /\ Task.userId task = alice).
  { vm_compute. eexists. split; reflexivity. }
  destruct Hget as [task [Hget Hown]].
  destruct (Hfound task Hget Hown) as [Hout [Hgone [Hothers _]]].
  split; [exact Hout |]. split; [exact Hgone |].
  pose proof (Hothers 2 ltac:(discriminate)) as Hkept.
  fold asAlice in Hkept. fold w' in Hkept. rewrite Hkept. reflexivity.
Defined.

(** ** Creating a task *)

Section CreateTask.
Context {P : Platform}.
Import Validation Constants.


(** X9. What a successful create stores: one task appended to the table, with
    the returned id, owned by the caller, titled with the sanitized title (1
    to 200 code units), described by the sanitized description or by none when
    the description is absent or empty, with the priority and due date given;
    the caller was below the quota, and threads and messages are left alone. *)
Theorem create_stores_sanitized_fields
    (w : World) (ctx : Ctx.t) (args : CreateArgs.t) (id : Id) :
  outcome (TaskEndpoints.create ctx args) w = Ok id ->
  exists task,
    tasks (after (TaskEndpoints.create ctx args) w) = tasks w ++ [task]
    /\ threads (after (TaskEndpoints.create ctx args) w) = threads w
    /\ messages (after (TaskEndpoints.create ctx args) w) = messages w
    /\ Task._id task = id
    /\ Ctx.auth ctx = Some (Task.userId task)
    /\ Task.title task = sanitizeInput (CreateArgs.title args)
    /\ 1 <= length (Task.title task) <= 200
    /\ Task.description task
       = (if truthyString (CreateArgs.description args)
          then Some (sanitizeInput (orElse (CreateArgs.description args) []))
          else None)
    /\ (forall d, Task.description task = Some d -> length d <= 5000)
    /\ Task.priority task = CreateArgs.priority args
    /\ Task.dueDate task = CreateArgs.dueDate args
    /\ length (filter (fun t => String.eqb (Task.userId t) (Task.userId task)) (tasks w))
       < MAX_TASKS_PER_USER.
Proof.
  unfold_handlers.
  destruct (Ctx.auth ctx) as [caller |]; cbn [fst snd]; [| discriminate].
  rewrite rateLimit_run.
  destruct (admits w "createTask" caller (Ctx.now ctx)); cbn [fst snd]; [| discriminate].
  destruct (isValidTaskTitle (sanitizeInput (CreateArgs.title args))) eqn:Htitle;
    cbn [negb fst snd]; [| discriminate].
  apply isValidTaskTitle_bounds in Htitle.
  destruct (truthyString (CreateArgs.description args)) eqn:Htruthy;
    [destruct (isValidTaskDescription _) eqn:Hdesc; cbn [negb fst snd]; [| discriminate] |].
  all: destruct (truthyNumber (CreateArgs.dueDate args) && _); cbn [fst snd];
    [discriminate |].
  all: cbn [tasks withLimiter withJournal logged];
    destruct (MAX_TASKS_PER_USER <=? _) eqn:Hquota; cbn [fst snd]; [discriminate |].
  all: apply Nat.leb_gt in Hquota.
  all: intros Hok; inversion Hok; subst id; eexists;
    cbn [tasks threads messages withTasks withNextId withLimiter withJournal logged];
    split; [reflexivity |]; cbn [Task._id Task.userId Task.title Task.description
                                   Task.priority Task.dueDate Tasks.userId Tasks.title
                                   Tasks.description Tasks.priority Tasks.dueDate];
    repeat split; try assumption; try lia.
  - intros d Hd. inversion Hd; subst d.
    unfold isValidTaskDescription in Hdesc. now apply Nat.leb_le in Hdesc.
  - intros d Hd. discriminate.
Qed.

End CreateTask.


(** Alice creates a task with a padded title and an empty description. *)
Lemma create_stores_sanitized_fields_witness :
  let args := CreateArgs.mk (js "  buy   milk ") (Some []) (Some high) None in
  exists task,
    tasks (after (TaskEndpoints.create asAlice args) storyWorld) = tasks storyWorld ++ [task]
    /\ Task._id task = 3
    /\ Task.title task = js "buy milk"
    /\ Task.description task = None
    /\ Task.priority task = Some high.
Proof.
  intros args.
  assert (Hok : outcome (TaskEndpoints.create asAlice args) storyWorld = Ok 3).
  { vm_compute. reflexivity. }
  destruct (@create_stores_sanitized_fields budgetPlatform storyWorld asAlice args 3 Hok)
    as [task [Htasks [_ [_ [Hid [_ [Htitle [_ [Hdesc [_ [Hprio _]]]]]]]]]]].
  exists task.
  split; [exact Htasks |]. split; [exact Hid |].
  split; [rewrite Htitle; vm_compute; reflexivity |].
  split; [rewrite Hdesc; reflexivity | exact Hprio].
Defined.

(** ** Stored fields *)

Section StoredFields.
Context {P : Platform}.
Import Validation Constants.

Lemma statusUpdates_title (now : Z) (task : Task.t) (requested : option TaskStatus)
    (u : TaskUpdates.t) :
  TaskUpdates.title (TaskEndpoints.statusUpdates now task requested u) = TaskUpdates.title u
  /\ TaskUpdates.description (TaskEndpoints.statusUpdates now task requested u)
     = TaskUpdates.description u.
Proof.
  unfold TaskEndpoints.statusUpdates.
  destruct requested as [s |]; [| now split].
  destruct (TaskStatus_eqb s completed && negb (TaskStatus_eqb (Task.status task) completed));
    destruct (negb (TaskStatus_eqb s completed) && TaskStatus_eqb (Task.status task) completed);
    now split.
Qed.

Lemma valid_title (s : JsString) :
  negb (isValidTaskTitle (sanitizeInput s)) = false ->
  1 <= length (sanitizeInput s) <= 200
  /\ sanitizeInput (sanitizeInput s) = sanitizeInput s.
Proof.
  intros H. apply negb_false_iff, isValidTaskTitle_bounds in H.
  split; [exact H | apply sanitizeInput_twice].
Qed.

Lemma valid_description (s : JsString) :
  negb (isValidTaskDescription (sanitizeInput s)) = false ->
  length (sanitizeInput s) <= 5000
  /\ sanitizeInput (sanitizeInput s) = sanitizeInput s.
Proof.
  intros H. apply negb_false_iff in H. unfold isValidTaskDescription in H.
  apply Nat.leb_le in H. split; [exact H | apply sanitizeInput_twice].
Qed.

Lemma valid_thread_title (s : JsString) :
  negb (isValidThreadTitle (sanitizeInput s)) = false ->
  1 <= length (sanitizeInput s) <= 100
  /\ sanitizeInput (sanitizeInput s) = sanitizeInput s.
Proof.
  intros H. apply negb_false_iff in H. unfold isValidThreadTitle in H.
  rewrite andb_true_iff, Nat.ltb_lt, Nat.leb_le in H.
  split; [lia | apply sanitizeInput_twice].
Qed.

Ltac use_checks :=
  repeat match goal with
         | H : negb (isValidTaskTitle (sanitizeInput _)) = false |- _ =>
             apply valid_title in H
         | H : negb (isValidTaskDescription (sanitizeInput _)) = false |- _ =>
             apply valid_description in H
         | H : negb (isValidThreadTitle (sanitizeInput _)) = false |- _ =>
             apply valid_thread_title in H
         end.

Ltac patched_task_valid Htasks :=
  apply Forall_dbPatch; [exact Htasks |];
  let d := fresh "d" in
  let Hin := fresh "Hin" in
  intros d Hin _;
  rewrite Forall_forall in Htasks; specialize (Htasks d Hin);
  unfold taskFieldsValid, Tasks.applyUpdates in *;
  cbn [Task.title Task.description TaskEndpoints.setPriority TaskEndpoints.setDueDate
       TaskUpdates.title TaskUpdates.description] in *;
  rewrite ?(proj1 (statusUpdates_title _ _ _ _)), ?(proj2 (statusUpdates_title _ _ _ _));
  cbn [TaskEndpoints.setTitle TaskEndpoints.setDescription TaskEndpoints.noUpdates
       TaskUpdates.title TaskUpdates.description orElse] in *;
  destruct Htasks as [Hlen [Hsan Hdesc]];
  split; [tauto | split; [tauto |]];
  let x := fresh "x" in
  let Hx := fresh "Hx" in
  intros x Hx; first [now apply Hdesc | inversion Hx; subst; tauto].

Ltac patched_thread_valid Hthreads :=
  apply Forall_dbPatch; [exact Hthreads |];
  let d := fresh "d" in
  let Hin := fresh "Hin" in
  intros d Hin _;
  rewrite Forall_forall in Hthreads; specialize (Hthreads d Hin);
  unfold threadFieldsValid, Threads.applyUpdates in *;
  cbn [Thread.title ThreadUpdates.title ThreadUpdates.status] in *;
  let x := fresh "x" in
  let Hx := fresh "Hx" in
  intros x Hx; first [now apply Hthreads | inversion Hx; subst; tauto].

Ltac new_thread_valid Hthreads :=
  apply Forall_app; split; [exact Hthreads |]; constructor; [| constructor];
  unfold threadFieldsValid; cbn [Thread.title Threads.title];
  let x := fresh "x" in
  let Hx := fresh "Hx" in
  intros x Hx; first [discriminate | inversion Hx; subst; tauto].

Lemma serve_keeps_fields (w : World) (ctx : Ctx.t) (r : Request) :
  storedFieldsValid w -> storedFieldsValid (serve ctx r w).
Proof.
  intros [Htasks Hthreads]. unfold storedFieldsValid.
  destruct r; cbn [serve]; unfold_handlers.
  - split_tests; use_checks; (split; [| exact Hthreads]); try exact Htasks.
    all: apply Forall_app; split; [exact Htasks |]; constructor; [| constructor].
    all: unfold taskFieldsValid;
      cbn [Task.title Task.description Tasks.title Tasks.description].
    all: split; [tauto | split; [tauto |]]; intros d Hd;
      first [discriminate | inversion Hd; subst; tauto].
  - split_tests; use_checks; (split; [| exact Hthreads]); try exact Htasks.
    all: patched_task_valid Htasks.
  - split_tests; (split; [| exact Hthreads]); try exact Htasks.
    all: patched_task_valid Htasks.
  - split_tests; (split; [| exact Hthreads]); try exact Htasks.
    all: apply Forall_dbDelete; exact Htasks.
  - split_tests; use_checks; (split; [exact Htasks |]); try exact Hthreads.
    all: new_thread_valid Hthreads.
  - split_tests; use_checks; (split; [exact Htasks |]); try exact Hthreads.
    all: patched_thread_valid Hthreads.
  - split_tests; (split; [exact Htasks |]); try exact Hthreads.
    all: apply Forall_dbDelete; exact Hthreads.
  - split_tests; split; assumption.
Qed.

(** X10. In every world the service reaches, and after any further request,
    each stored task has a sanitized title of 1 to 200 code units and a
    sanitized description of at most 5000, and each stored thread title is
    sanitized and of 1 to 100 code units. *)
Theorem stored_fields_stay_valid (w : World) :
  reachable w ->
  storedFieldsValid w /\ (forall ctx r, storedFieldsValid (serve ctx r w)).
Proof.
  intros Hreach.
  assert (Hnow : storedFieldsValid w).
  { induction Hreach as [l | w ctx r _ IH].
    - split; constructor.
    - now apply serve_keeps_fields. }
  split; [exact Hnow |]. intros ctx r. now apply serve_keeps_fields.
Qed.

End StoredFields.

(** The world of the story, and the same after Alice renames her task. *)
Lemma stored_fields_stay_valid_witness :
  let rename := UpdateTask (UpdateArgs.mk 0 (Some (js " final  draft ")) None None None None) in
  storedFieldsValid storyWorld
  /\ storedFieldsValid (serve asAlice rename storyWorld).
Proof.
  intros rename.
  assert (Hreach : reachable storyWorld).
  { unfold storyWorld. repeat apply reachable_serve. apply reachable_empty. }
  destruct (@stored_fields_stay_valid budgetPlatform storyWorld Hreach) as [Hnow Hnext].
  split; [exact Hnow | exact (Hnext asAlice rename)].
Defined.

(** ** Reading back what was created *)

Section CreateThenGet.
Context {P : Platform}.
Import Validation Constants.

(** X11. Create, then get: in a reachable world the id a create returns was
    not in use, and a get of that id by the same caller returns the task just
    stored, while a get by any other user is answered [Forbidden]. *)
Theorem create_then_get (w : World) (ctx : Ctx.t) (args : CreateArgs.t) (id : Id) :
  reachable w ->
  outcome (TaskEndpoints.create ctx args) w = Ok id ->
  let w' := after (TaskEndpoints.create ctx args) w in
  dbGet Task._id id (tasks w) = None
  /\ exists task,
       outcome (TaskEndpoints.get ctx id) w' = Ok task
       /\ Task._id task = id
       /\ Ctx.auth ctx = Some (Task.userId task)
       /\ Task.title task = sanitizeInput (CreateArgs.title args)
       /\ Task.status task = pending
       /\ (forall other now,
             other <> Task.userId task ->
             outcome (TaskEndpoints.get (Ctx.mk (Some other) now) id) w' = Err Forbidden).
Proof.
  intros Hreach. destruct (reachable_wellFormed Hreach) as [_ [_ [_ [Hlt _]]]].
  intros Hok w'. subst w'. revert Hok.
  unfold_handlers.
  destruct (Ctx.auth ctx) as [caller |]; cbn [fst snd]; [| discriminate].
  rewrite rateLimit_run.
  destruct (admits w "createTask" caller (Ctx.now ctx)); cbn [fst snd]; [| discriminate].
  destruct (negb (isValidTaskTitle _)); cbn [fst snd]; [discriminate |].
  destruct (truthyString (CreateArgs.description args));
    [destruct (negb (isValidTaskDescription _)); cbn [fst snd]; [discriminate |] |].
  all: destruct (truthyNumber (CreateArgs.dueDate args) && _); cbn [fst snd];
    [discriminate |].
  all: cbn [tasks withLimiter withJournal logged];
    destruct (MAX_TASKS_PER_USER <=? _); cbn [fst snd]; [discriminate |].
  all: intros Hok; inversion Hok; subst id;
    cbn [fst snd tasks nextId withTasks withNextId withLimiter withJournal logged].
  all: split; [now apply dbGet_fresh_none |].
  all: eexists;
    match goal with
    | |- context [dbGet Task._id ?i (?table ++ [?d])] =>
        rewrite (@dbGet_app_fresh _ Task._id i table d eq_refl Hlt)
    end; cbn [fst snd Task.userId]; rewrite owner_eqb; cbn [fst snd];
    refine (conj eq_refl (conj eq_refl (conj eq_refl (conj eq_refl (conj eq_refl _)))));
    intros other now Hneq; cbn [fst snd Task.userId Tasks.userId Ctx.auth Ctx.now
                                tasks withTasks withNextId withLimiter withJournal logged] in *.
  all: match goal with
       | |- context [dbGet Task._id ?i (?table ++ [?d])] =>
           rewrite (@dbGet_app_fresh _ Task._id i table d eq_refl Hlt)
       end; cbn [fst snd Task.userId].
  all: rewrite (not_owner_eqb (not_eq_sym Hneq)); reflexivity.
Qed.

(** X12. The due date 0. Create tests the due date for truthiness before
    validating it, so a create with due date 0 skips the range check and
    stores 0; update validates every due date it is given, so (later than 24
    hours after the epoch) it refuses 0 as [InvalidInput]. *)
Theorem zero_due_date_on_create_and_update (w : World) (caller : UserId) (now : Z) :
  let ctx := Ctx.mk (Some caller) now in
  (forall args,
      admits w "createTask" caller now = true ->
      isValidTaskTitle (sanitizeInput (CreateArgs.title args)) = true ->
      CreateArgs.description args = None ->
      CreateArgs.dueDate args = Some (ofZ 0) ->
      length (filter (fun t => String.eqb (Task.userId t) caller) (tasks w))
        < MAX_TASKS_PER_USER ->
      exists task,
        outcome (TaskEndpoints.create ctx args) w = Ok (Task._id task)
        /\ tasks (after (TaskEndpoints.create ctx args) w) = tasks w ++ [task]
        /\ Task.dueDate task = Some (ofZ 0))
  /\ (forall args task,
        admits w "updateTask" caller now = true ->
        dbGet Task._id (UpdateArgs.id args) (tasks w) = Some task ->
        Task.userId task = caller ->
        UpdateArgs.title args = None ->
        UpdateArgs.description args = None ->
        UpdateArgs.dueDate args = Some (ofZ 0) ->
        (24 * 60 * 60 * 1000 < now)%Z ->
        outcome (TaskEndpoints.update ctx args) w = Err (InvalidInput DueDateRange)
        /\ sameTables w (after (TaskEndpoints.update ctx args) w)).
Proof.
  intros ctx. subst ctx. split.
  - intros args Hadm Htitle Hdesc Hdue Hquota. apply Nat.leb_gt in Hquota.
    unfold_handlers. cbn [Ctx.auth Ctx.now fst snd].
    rewrite rateLimit_run, Hadm, Htitle, Hdesc, Hdue.
    change (truthyNumber (Some (ofZ 0))) with false.
    cbn [fst snd negb truthyString andb tasks withLimiter withJournal logged].
    rewrite Hquota. cbn [fst snd tasks withTasks withNextId withLimiter withJournal logged].
    eexists. split; [| split]; [| reflexivity |]; reflexivity.
  - intros args task Hadm Hget Hown Htitle Hdesc Hdue Hnow.
    unfold sameTables. unfold_handlers. cbn [Ctx.auth Ctx.now fst snd].
    rewrite rateLimit_run, Hadm. cbn [fst snd tasks withLimiter withJournal logged].
    rewrite Hget. subst caller. rewrite owner_eqb, Htitle, Hdesc, Hdue.
    cbn [fst snd].
    assert (Hbad : isValidDueDate now (ofZ 0) = false).
    { unfold isValidDueDate, JsNumber.geb, JsNumber.leb, ofZ.
      apply andb_false_iff. left.
      destruct (Qle_bool _ _) eqn:Hle; [| reflexivity].
      apply Qle_bool_iff in Hle. rewrite <- Zle_Qle in Hle. lia. }
    rewrite Hbad. cbn. repeat split.
Qed.

End CreateThenGet.

(** Alice creates a task in the world of the story; she can read it, Bob
    cannot. *)
Lemma create_then_get_witness :
  let args := CreateArgs.mk (js "review") None None None in
  let w' := after (TaskEndpoints.create asAlice args) storyWorld in
  dbGet Task._id 3 (tasks storyWorld) = None
  /\ (exists task, outcome (TaskEndpoints.get asAlice 3) w' = Ok task
                   /\ Task.title task = js "review")
  /\ outcome (TaskEndpoints.get asBob 3) w' = Err Forbidden.
Proof.
  intros args w'.
  assert (Hreach : reachable storyWorld).
  { unfold storyWorld. repeat apply reachable_serve. apply reachable_empty. }
  assert (Hok : outcome (TaskEndpoints.create asAlice args) storyWorld = Ok 3).
  { vm_compute. reflexivity. }
  destruct (@create_then_get budgetPlatform storyWorld asAlice args 3 Hreach Hok)
    as [Hfresh [task [Hget [_ [Hauth [Htitle [_ Hothers]]]]]]].
  split; [exact Hfresh |]. split.
  - exists task. split; [exact Hget |]. rewrite Htitle. vm_compute. reflexivity.
  - apply Hothers. intros Heq. rewrite <- Heq in Hauth. discriminate Hauth.
Defined.

(** Alice gives the due date 0, on a create and on an update of her task 1. *)
Lemma zero_due_date_on_create_and_update_witness :
  let w := exampleWorld plenty 0 in
  let new := CreateArgs.mk (js "someday") None None (Some (ofZ 0)) in
  let change := UpdateArgs.mk 1 None None None None (Some (ofZ 0)) in
  (exists task, outcome (TaskEndpoints.create asAlice new) w = Ok (Task._id task)
                /\ Task.dueDate task = Some (ofZ 0))
  /\ outcome (TaskEndpoints.update asAlice change) w = Err (InvalidInput DueDateRange).
Proof.
  intros w new change.
  destruct (@zero_due_date_on_create_and_update budgetPlatform w alice noon)
    as [Hcreate Hupdate].
  split.
  - assert (Hbelow : length (filter (fun t => String.eqb (Task.userId t) alice) (tasks w))
                     < Constants.MAX_TASKS_PER_USER).
    { apply Nat.ltb_lt. vm_compute. reflexivity. }
    destruct (Hcreate new eq_refl eq_refl eq_refl eq_refl Hbelow) as [task [Hout [_ Hdue]]].
    exists task. split; [exact Hout | exact Hdue].
  - assert (Hlate : (24 * 60 * 60 * 1000 < noon)%Z) by (unfold noon; lia).
    exact (proj1 (Hupdate change openTask eq_refl eq_refl eq_refl eq_refl eq_refl eq_refl Hlate)).
Defined.

(** ** Other users' data *)

Section Isolation.
Context {P : Platform}.
Import Validation Constants.

Lemma In_withoutBatch (thread : Id) (table : list Message.t) (m : Message.t) :
  NoDup (map Message._id table) ->
  In m table ->
  Message.threadId m <> thread ->
  In m (withoutBatch (Messages.byThread thread table) table).
Proof.
  intros Hnd Hin Hneq. rewrite withoutBatch_filter. apply filter_In. split; [exact Hin |].
  apply negb_true_iff. destruct (existsb _ _) eqn:Hex; [| reflexivity].
  apply existsb_exists in Hex. destruct Hex as [b [Hb Hid]].
  apply filter_In in Hb. destruct Hb as [Hbin Hbth].
  apply Nat.eqb_eq in Hid, Hbth.
  assert (m = b) by (apply (unique_by_id Message._id table); assumption).
  subst b. contradiction.
Qed.

(** The document the handler has loaded and found to be the caller's is not
    the one of another owner. *)
Ltac not_the_target Hget Hauth :=
  let E := fresh "E" in
  intros E;
  repeat match goal with
         | Ho : dbGet _ _ _ = Some _ |- _ =>
             first [rewrite E in Ho | rewrite <- E in Ho];
             rewrite Hget in Ho; inversion Ho; subst; clear Ho
         end;
  repeat match goal with
         | Hb : negb (String.eqb _ _) = false |- _ => apply owner_of_eqb in Hb
         end;
  congruence.

(** X13. No request changes what belongs to someone else: a task or a thread
    whose owner is not the authenticated caller resolves to the same document
    after the request, and (in a store whose ids are distinct, as they are in
    every store the service reaches) a message of such a thread is still
    stored. *)
Theorem other_users_data_untouched (w : World) (ctx : Ctx.t) (r : Request) :
  (forall id task,
      dbGet Task._id id (tasks w) = Some task ->
      Ctx.auth ctx <> Some (Task.userId task) ->
      dbGet Task._id id (tasks (serve ctx r w)) = Some task)
  /\ (forall id thread,
        dbGet Thread._id id (threads w) = Some thread ->
        Ctx.auth ctx <> Some (Thread.userId thread) ->
        dbGet Thread._id id (threads (serve ctx r w)) = Some thread)
  /\ (wellFormed w ->
      forall m thread,
        In m (messages w) ->
        dbGet Thread._id (Message.threadId m) (threads w) = Some thread ->
        Ctx.auth ctx <> Some (Thread.userId thread) ->
        In m (messages (serve ctx r w))).
Proof.
  split; [| split].
  - intros id task Hget Hauth.
    destruct r; cbn [serve]; unfold_handlers; split_tests; try exact Hget.
    all: first
      [ now apply dbGet_app_found
      | rewrite dbGet_dbPatch_other;
        [exact Hget | intros d; reflexivity | not_the_target Hget Hauth]
      | rewrite dbGet_dbDelete_other; [exact Hget | not_the_target Hget Hauth] ].
  - intros id thread Hget Hauth.
    destruct r; cbn [serve]; unfold_handlers; split_tests; try exact Hget.
    all: first
      [ now apply dbGet_app_found
      | rewrite dbGet_dbPatch_other;
        [exact Hget | intros d; reflexivity | not_the_target Hget Hauth]
      | rewrite dbGet_dbDelete_other; [exact Hget | not_the_target Hget Hauth] ].
  - intros [_ [_ [Hnd _]]] m thread Hin Hget Hauth.
    destruct r; cbn [serve]; unfold_handlers; split_tests; try exact Hin.
    all: first
      [ apply In_withoutBatch; [exact Hnd | exact Hin | not_the_target Hget Hauth]
      | repeat (apply in_or_app; left); exact Hin ].
Qed.

End Isolation.

(** Bob asks to delete Alice's thread 2: her thread and its two messages
    stay. *)
Lemma other_users_data_untouched_witness :
  let w := exampleWorld plenty 2 in
  let w' := serve asBob (DeleteThread 2) w in
  dbGet Thread._id 2 (threads w') = Some aliceThread
  /\ In (messageOf 0) (messages w')
  /\ In (messageOf 1) (messages w').
Proof.
  intros w w'.
  assert (Hwf : wellFormed w).
  { unfold wellFormed. vm_compute.
    repeat split;
      repeat (constructor; [cbn; intuition discriminate |]);
      repeat constructor. }
  destruct (@other_users_data_untouched budgetPlatform w asBob (DeleteThread 2))
    as [_ [Hthreads Hmessages]].
  assert (Hother : Ctx.auth asBob <> Some (Thread.userId aliceThread)) by discriminate.
  split; [exact (Hthreads 2 aliceThread eq_refl Hother) |].
  split.
  - apply (Hmessages Hwf (messageOf 0) aliceThread); [left | |]; auto.
  - apply (Hmessages Hwf (messageOf 1) aliceThread); [right; left | |]; auto.
Defined.

(** ** The message store *)

Section MessageStore.
Context {P : Platform}.
Import Validation Constants.

Lemma rev_firstn_rev {A} (n : nat) (l : list A) : rev (firstn n (rev l)) = lastN n l.
Proof. unfold lastN. rewrite firstn_rev. apply rev_involutive. Qed.

Lemma byThread_app (thread : Id) (table more : list Message.t) :
  Messages.byThread thread (table ++ more)
  = Messages.byThread thread table ++ Messages.byThread thread more.
Proof. apply filter_app. Qed.

(** X14. [getRecentMessagesByThread] returns the last [limit] messages of the
    thread, oldest first: a suffix of the thread's messages of length
    min(limit, count), and all of them when the thread holds no more than
    [limit]. It changes nothing. *)
Theorem recent_messages_are_the_last (w : World) (thread : Id) (limit : nat) :
  let stored := Messages.byThread thread (messages w) in
  Messages.getRecentMessagesByThread thread limit w = (Ok (lastN limit stored), w)
  /\ length (lastN limit stored) = Nat.min limit (length stored)
  /\ (exists older, stored = older ++ lastN limit stored)
  /\ (length stored <= limit -> lastN limit stored = stored).
Proof.
  intros stored. unfold Messages.getRecentMessagesByThread. fold stored.
  rewrite rev_firstn_rev. unfold lastN.
  split; [reflexivity |]. split; [| split].
  - rewrite length_skipn. lia.
  - exists (firstn (length stored - limit) stored). symmetry. apply firstn_skipn.
  - intros Hle. replace (length stored - limit) with 0 by lia. reflexivity.
Qed.

(** X15. Storing a message, then reading: in a store whose ids are distinct
    and below the counter (as they are in every store the service reaches)
    the new id was not in use; afterwards it resolves to the message with the fields given
    and the creation time, every message stored before resolves as before, the
    message is the last of its thread and of no other, and the count of its
    thread has grown by one. *)
Theorem createMessage_then_read (w : World) (now : Z) (args : Messages.NewMessage) :
  wellFormed w ->
  let message := Message.mk (nextId w) (Messages.threadId args) (Messages.userId args)
                   (Messages.role args) (Messages.content args) now in
  let w' := after (Messages.createMessage now args) w in
  outcome (Messages.createMessage now args) w = Ok (nextId w)
  /\ outcome (Messages.getMessageById (nextId w)) w = Ok None
  /\ outcome (Messages.getMessageById (nextId w)) w' = Ok (Some message)
  /\ (forall id m, outcome (Messages.getMessageById id) w = Ok (Some m) ->
                   outcome (Messages.getMessageById id) w' = Ok (Some m))
  /\ (forall thread,
        outcome (Messages.getMessagesByThread thread) w'
        = Ok (Messages.byThread thread (messages w)
              ++ (if Nat.eqb thread (Messages.threadId args) then [message] else [])))
  /\ outcome (Messages.countMessagesInThread (Messages.threadId args)) w'
     = Ok (S (length (Messages.byThread (Messages.threadId args) (messages w)))).
Proof.
  intros [_ [_ [_ [_ [_ Hlt]]]]] message w'. subst w'.
  unfold outcome, after, Messages.createMessage, Messages.getMessageById,
    Messages.countMessagesInThread, Messages.getMessagesByThread, bind, ret.
  cbn [fst snd messages withMessages withNextId withJournal logged]. fold message.
  refine (conj eq_refl (conj _ (conj _ (conj _ (conj _ _))))).
  - f_equal. now apply dbGet_fresh_none.
  - f_equal. now apply dbGet_app_fresh.
  - intros id m Hm. inversion Hm as [Hget]. f_equal. rewrite Hget.
    now apply dbGet_app_found.
  - intros thread. f_equal. rewrite byThread_app. f_equal.
    unfold Messages.byThread. cbn [filter message Message.threadId].
    rewrite (Nat.eqb_sym thread). now destruct (Nat.eqb _ thread).
  - f_equal. rewrite byThread_app, length_app.
    unfold Messages.byThread at 2. cbn [filter message Message.threadId].
    rewrite Nat.eqb_refl. cbn [length]. lia.
Qed.

(** X16. In a store whose ids are distinct (as they are in every store the
    service reaches) [deleteMessagesByThread] removes exactly the messages of
    the thread, keeps the others in their order, and returns the
    number of messages removed; tasks and threads are left alone. *)
Theorem deleteMessagesByThread_removes_exactly (w : World) (thread : Id) :
  wellFormed w ->
  let w' := after (Messages.deleteMessagesByThread thread) w in
  messages w' = filter (fun m => negb (Nat.eqb (Message.threadId m) thread)) (messages w)
  /\ outcome (Messages.deleteMessagesByThread thread) w
     = Ok (length (messages w) - length (messages w'))
  /\ length (messages w') <= length (messages w)
  /\ tasks w' = tasks w
  /\ threads w' = threads w.
Proof.
  intros [_ [_ [Hnd _]]] w'. subst w'.
  unfold outcome, after. rewrite deleteMessagesByThread_run.
  cbn [fst snd messages tasks threads withMessages withJournal logged].
  assert (Hexact : withoutBatch (Messages.byThread thread (messages w)) (messages w)
                   = filter (fun m => negb (Nat.eqb (Message.threadId m) thread)) (messages w)).
  { rewrite withoutBatch_filter. apply filter_ext_in. intros d Hin. f_equal.
    destruct (Nat.eqb (Message.threadId d) thread) eqn:Hth.
    - apply existsb_exists. exists d. split; [| apply Nat.eqb_refl].
      apply filter_In. now split.
    - destruct (existsb _ _) eqn:Hex; [| reflexivity].
      apply existsb_exists in Hex. destruct Hex as [b [Hb Hid]].
      apply filter_In in Hb. destruct Hb as [Hbin Hbth].
      apply Nat.eqb_eq in Hid.
      assert (d = b) by (apply (unique_by_id Message._id (messages w)); assumption).
      subst b. congruence. }
  rewrite Hexact.
  pose proof (filter_length (fun m => Nat.eqb (Message.threadId m) thread) (messages w))
    as Hlen.
  unfold Messages.byThread.
  refine (conj eq_refl (conj _ (conj _ (conj eq_refl eq_refl)))).
  - f_equal. lia.
  - lia.
Qed.

End MessageStore.

(** A thread of three messages, read with the limit 10. *)
Lemma recent_messages_are_the_last_witness :
  let w := exampleWorld plenty 3 in
  Messages.getRecentMessagesByThread 2 10 w = (Ok (map messageOf [0; 1; 2]), w).
Proof.
  intros w.
  destruct (@recent_messages_are_the_last budgetPlatform w 2 10) as [Hread [_ [_ Hall]]].
  rewrite Hread, Hall.
  - reflexivity.
  - apply Nat.leb_le. vm_compute. reflexivity.
Defined.

(** A third message stored in Alice's thread. *)
Lemma createMessage_then_read_witness :
  let w := exampleWorld plenty 2 in
  let args := Messages.Build_NewMessage 2 alice user (js "and then?") in
  let w' := after (Messages.createMessage noon args) w in
  outcome (Messages.createMessage noon args) w = Ok 5
  /\ outcome (Messages.getMessageById 5) w = Ok None
  /\ outcome (Messages.getMessageById 5) w'
     = Ok (Some (Message.mk 5 2 alice user (js "and then?") noon))
  /\ outcome (Messages.countMessagesInThread 2) w' = Ok 3.
Proof.
  intros w args w'.
  assert (Hwf : wellFormed w).
  { unfold wellFormed. vm_compute.
    repeat split;
      repeat (constructor; [cbn; intuition discriminate |]);
      repeat constructor. }
  destruct (@createMessage_then_read budgetPlatform w noon args Hwf)
    as [Hid [Hbefore [Hafter [_ [_ Hcount]]]]].
  split; [exact Hid |]. split; [exact Hbefore |]. split; [exact Hafter |].
  exact Hcount.
Defined.

(** The two messages of Alice's thread are removed. *)
Lemma deleteMessagesByThread_removes_exactly_witness :
  let w := exampleWorld plenty 2 in
  messages (after (Messages.deleteMessagesByThread 2) w) = []
  /\ outcome (Messages.deleteMessagesByThread 2) w = Ok 2.
Proof.
  intros w.
  assert (Hwf : wellFormed w).
  { unfold wellFormed. vm_compute.
    repeat split;
      repeat (constructor; [cbn; intuition discriminate |]);
      repeat constructor. }
  destruct (@deleteMessagesByThread_removes_exactly budgetPlatform w 2 Hwf)
    as [Hleft [Hcount _]].
  split.
  - rewrite Hleft. vm_compute. reflexivity.
  - rewrite Hcount, Hleft. vm_compute. reflexivity.
Defined.

(** ** Sending a message *)

Section SendMessage.
Context {P : Platform}.
Import Validation Constants.

Lemma isValidMessageContent_bounds (content : JsString) :
  isValidMessageContent content = true <-> 1 <= length content <= 10000.
Proof.
  unfold isValidMessageContent. rewrite andb_true_iff, Nat.ltb_lt, Nat.leb_le. lia.
Qed.

(** X17. How [sendMessage] ends. It checks the caller, then the limiter, then
    the length of the sanitized content (1 to 10000); a call that passes the
    three fails at its first [ctx.runQuery] with the platform's error,
    whether or not the thread exists, is the caller's, or is full. So the
    action never succeeds, never writes to the store and never calls the
    agent; and, being no transaction, every call that reaches the limiter
    leaves it in the state its request on the bucket sendMessage produced. *)
Theorem sendMessage_stops_at_its_first_query
    (w : World) (ctx : Ctx.t) (args : SendMessageArgs.t) :
  let result := outcome (AssistantEndpoints.sendMessage ctx args) w in
  let w' := after (AssistantEndpoints.sendMessage ctx args) w in
  let content := sanitizeInput (SendMessageArgs.content args) in
  (Ctx.auth ctx = None -> result = Err Unauthenticated /\ w' = w)
  /\ (forall caller,
        Ctx.auth ctx = Some caller ->
        (admits w "sendMessage" caller (Ctx.now ctx) = false ->
         exists seconds, result = Err (RateLimited seconds))
        /\ (admits w "sendMessage" caller (Ctx.now ctx) = true ->
            (length content = 0 \/ 10000 < length content ->
             result = Err (InvalidInput MessageContentLength))
            /\ (1 <= length content <= 10000 -> result = Err NotAFunctionReference))
        /\ w' = withLimiter w (snd (limit (limiter w) "sendMessage" caller (Ctx.now ctx))))
  /\ isOk result = false
  /\ sameTables w w'
  /\ agentSilent w w'
  /\ journal w' = journal w.
Proof.
  intros result w' content. subst result w' content.
  unfold outcome, after, sameTables, agentSilent, admits. rewrite sendMessage_run.
  split; [intros Hauth; rewrite Hauth; now split |].
  split.
  - intros caller Hauth. rewrite Hauth. cbv zeta.
    destruct (ok (fst (limit (limiter w) "sendMessage" caller (Ctx.now ctx)))).
    + destruct (isValidMessageContent (sanitizeInput (SendMessageArgs.content args)))
        eqn:Hvalid; cbn [fst snd]; (split; [discriminate |]); (split; [| reflexivity]);
        intros _; split; intros Hlen; try reflexivity.
      * apply isValidMessageContent_bounds in Hvalid. lia.
      * apply isValidMessageContent_bounds in Hlen. congruence.
    + cbn [fst snd]. split; [intros _; eexists; reflexivity |].
      split; [discriminate | reflexivity].
  - destruct (Ctx.auth ctx) as [caller |]; cbv zeta; [| repeat split].
    destruct (ok _); [destruct (isValidMessageContent _) |]; repeat split.
Qed.

End SendMessage.

(** Bob writes to a thread that does not exist and Alice to her own: both
    are answered alike, and each has spent a token. *)
Lemma sendMessage_stops_at_its_first_query_witness :
  let w := exampleWorld plenty 1 in
  let toNowhere := SendMessageArgs.mk 7 (js "hello") in
  let toHerThread := SendMessageArgs.mk 2 (js "hello") in
  dbGet Thread._id 7 (threads w) = None
  /\ outcome (AssistantEndpoints.sendMessage asBob toNowhere) w = Err NotAFunctionReference
  /\ outcome (AssistantEndpoints.sendMessage asAlice toHerThread) w = Err NotAFunctionReference
  /\ messages (after (AssistantEndpoints.sendMessage asAlice toHerThread) w) = messages w
  /\ limiter (after (AssistantEndpoints.sendMessage asAlice toHerThread) w) <> limiter w.
Proof.
  intros w toNowhere toHerThread.
  destruct (@sendMessage_stops_at_its_first_query budgetPlatform w asBob toNowhere)
    as [_ [Hbob _]].
  destruct (@sendMessage_stops_at_its_first_query budgetPlatform w asAlice toHerThread)
    as [_ [Halice [_ [[_ [_ Hmessages]] _]]]].
  destruct (Hbob bob eq_refl) as [_ [Hbob' _]].
  destruct (Halice alice eq_refl) as [_ [Halice' Hafter]].
  assert (Hlen : 1 <= length (Validation.sanitizeInput (js "hello")) <= 10000).
  { vm_compute. split; repeat constructor. }
  split; [reflexivity |].
  split; [exact (proj2 (Hbob' eq_refl) Hlen) |].
  split; [exact (proj2 (Halice' eq_refl) Hlen) |].
  split; [exact Hmessages |].
  rewrite Hafter. vm_compute. discriminate.
Defined.

(** ** Threads and the dashboard *)

Section Threads.
Context {P : Platform}.
Import Validation Constants.

(** X19. Creating a thread, once the limiter has let the call through: at the
    quota of 50 threads the call fails with [QuotaExceeded] whatever the
    title, for the quota is tested before the title; below it, an absent or
    empty title gives an untitled thread, and any other title is sanitized
    and must then have 1 to 100 code units. The thread stored is active and
    the caller's. An update, unlike a create, refuses the empty title. *)
Theorem createThread_checks (w : World) (caller : UserId) (now : Z) (title : option JsString) :
  admits w "createThread" caller now = true ->
  let ctx := Ctx.mk (Some caller) now in
  let owned := filter (fun t => String.eqb (Thread.userId t) caller) (threads w) in
  let result := outcome (AssistantEndpoints.createThread ctx title) w in
  let w' := after (AssistantEndpoints.createThread ctx title) w in
  let stored (name : option JsString) :=
    result = Ok (nextId w)
    /\ exists thread,
         threads w' = threads w ++ [thread]
         /\ Thread._id thread = nextId w
         /\ Thread.userId thread = caller
         /\ Thread.title thread = name
         /\ Thread.status thread = active in
  (MAX_THREADS_PER_USER <= length owned ->
   result = Err QuotaExceeded /\ sameTables w w')
  /\ (length owned < MAX_THREADS_PER_USER ->
      (title = None \/ title = Some [] -> stored None)
      /\ (forall s,
            title = Some s -> s <> [] ->
            (length (sanitizeInput s) = 0 \/ 100 < length (sanitizeInput s) ->
             result = Err (InvalidInput ThreadTitleLength) /\ sameTables w w')
            /\ (1 <= length (sanitizeInput s) <= 100 -> stored (Some (sanitizeInput s)))))
  /\ (forall args thread,
        dbGet Thread._id (UpdateThreadArgs.threadId args) (threads w) = Some thread ->
        Thread.userId thread = caller ->
        UpdateThreadArgs.title args = Some [] ->
        outcome (AssistantEndpoints.updateThread ctx args) w
        = Err (InvalidInput ThreadTitleLength)).
Proof.
  intros Hadm ctx owned result w' stored. subst stored w' result owned ctx.
  unfold sameTables. unfold_handlers. reduce_world.
  rewrite rateLimit_run, Hadm. reduce_world.
  split; [| split].
  - intros Hfull. apply Nat.leb_le in Hfull. rewrite Hfull. cbn. repeat split.
  - intros Hroom. apply Nat.leb_gt in Hroom. rewrite Hroom. reduce_world. split.
    + intros [-> | ->]; cbn [truthyString]; reduce_world.
      all: (split; [reflexivity |]); eexists; (split; [reflexivity |]); repeat split.
    + intros s -> Hs. destruct s as [| c s]; [contradiction |]. cbn [truthyString orElse].
      split.
      * intros Hbad.
        destruct (isValidThreadTitle (sanitizeInput (c :: s))) eqn:Hv.
        -- unfold isValidThreadTitle in Hv.
           rewrite andb_true_iff, Nat.ltb_lt, Nat.leb_le in Hv. lia.
        -- cbn. repeat split.
      * intros Hgood.
        assert (Hv : isValidThreadTitle (sanitizeInput (c :: s)) = true).
        { unfold isValidThreadTitle. rewrite andb_true_iff, Nat.ltb_lt, Nat.leb_le. lia. }
        rewrite Hv. cbn [negb]. reduce_world.
        split; [reflexivity |]. eexists. split; [reflexivity |]. repeat split.
  - intros args thread Hget Hown Htitle. rewrite Hget. reduce_world.
    subst caller. rewrite owner_eqb, Htitle. reflexivity.
Qed.

End Threads.

(** Alice opens a second thread in the world of the story, with a padded
    title. *)
Lemma createThread_checks_witness :
  let title := Some (js " ideas ") in
  let w' := after (AssistantEndpoints.createThread asAlice title) storyWorld in
  outcome (AssistantEndpoints.createThread asAlice title) storyWorld = Ok 3
  /\ exists thread,
       threads w' = threads storyWorld ++ [thread]
       /\ Thread.title thread = Some (js "ideas")
       /\ Thread.status thread = active.
Proof.
  intros title w'.
  destruct (@createThread_checks budgetPlatform storyWorld alice noon title eq_refl)
    as [_ [Hbelow _]].
  assert (Hroom : length (filter (fun t => String.eqb (Thread.userId t) alice)
                            (threads storyWorld))
                  < Constants.MAX_THREADS_PER_USER).
  { apply Nat.ltb_lt. vm_compute. reflexivity. }
  destruct (Hbelow Hroom) as [_ Htitled].
  assert (Hne : js " ideas " <> []) by (vm_compute; discriminate).
  destruct (Htitled (js " ideas ") eq_refl Hne) as [_ Hstored].
  assert (Hlen : 1 <= length (Validation.sanitizeInput (js " ideas ")) <= 100).
  { vm_compute. split; repeat constructor. }
  destruct (Hstored Hlen) as [Hout [thread [Hthreads [_ [_ [Htitle Hstatus]]]]]].
  split; [exact Hout |].
  exists thread. split; [exact Hthreads |]. split; [| exact Hstatus].
  rewrite Htitle. vm_compute. reflexivity.
Defined.

Section DashboardFacts.
Context {P : Platform}.

Lemma count_owners {Doc} (owner : Doc -> UserId) (caller : UserId) (records : list Doc) :
  length (filter (fun o => String.eqb o caller) (map owner records))
  = length (filter (fun r => String.eqb (owner r) caller) records).
Proof.
  induction records as [| r records IH]; cbn; [reflexivity |].
  destruct (String.eqb (owner r) caller); cbn; congruence.
Qed.

Lemma statuses_partition (l : list Task.t) :
  length (filter (fun t => TaskStatus_eqb (Task.status t) pending) l)
  + length (filter (fun t => TaskStatus_eqb (Task.status t) in_progress) l)
  + length (filter (fun t => TaskStatus_eqb (Task.status t) completed) l)
  = length l.
Proof.
  induction l as [| t l IH]; cbn; [reflexivity |].
  destruct (Task.status t); cbn; lia.
Qed.

(** X20. [loadSummary] changes nothing and reports the three tables in the
    order tasks, threads, messages, with the total equal to the sum of the
    three counts. For a non-empty user id the counts are those of the user's
    documents and the status breakdown adds up to the user's task count;
    without a user id, or with the empty one, the counts are those of the
    whole tables and there is no breakdown. *)
Theorem loadSummary_counts (w : World) (userId : option UserId) :
  let ownTasks u := filter (fun t => String.eqb (Task.userId t) u) (tasks w) in
  let ownThreads u := filter (fun t => String.eqb (Thread.userId t) u) (threads w) in
  let ownMessages u := filter (fun m => String.eqb (Message.userId m) u) (messages w) in
  exists s,
    Dashboard.loadSummary userId w = (Ok s, w)
    /\ map fst (Summary.perTable s) = Dashboard.TABLES
    /\ Summary.totalRecords s = list_sum (map snd (Summary.perTable s))
    /\ (forall u,
          userId = Some u -> u <> EmptyString ->
          map snd (Summary.perTable s)
          = [length (ownTasks u); length (ownThreads u); length (ownMessages u)]
          /\ exists stats,
               Summary.taskStats s = Some stats
               /\ TaskStats.pending stats + TaskStats.in_progress stats
                  + TaskStats.completed stats
                  = length (ownTasks u))
    /\ (userId = None \/ userId = Some EmptyString ->
        map snd (Summary.perTable s)
        = [length (tasks w); length (threads w); length (messages w)]
        /\ Summary.taskStats s = None).
Proof.
  intros ownTasks ownThreads ownMessages. eexists.
  split; [reflexivity |].
  cbn [Summary.perTable Summary.totalRecords Summary.taskStats Dashboard.TABLES map fst snd
       Dashboard.collectOwners String.eqb Ascii.eqb Bool.eqb fold_left list_sum].
  split; [reflexivity |]. split; [unfold list_sum; cbn [fold_right]; lia |]. split.
  - intros u -> Hu. destruct u as [| c u]; [contradiction |].
    cbn [Dashboard.truthyUser orElse]. rewrite !count_owners.
    split; [reflexivity |]. eexists. split; [reflexivity |].
    cbn [TaskStats.pending TaskStats.in_progress TaskStats.completed].
    apply statuses_partition.
  - intros [-> | ->]; cbn [Dashboard.truthyUser]; rewrite !length_map; split; reflexivity.
Qed.

(** X21. [recent] returns the caller's most recently created tasks, newest
    first: at most [limit] of them (5 when no limit is given), all owned by
    the caller, and it changes nothing. *)
Theorem recent_tasks_newest_first
    (w : World) (ctx : Ctx.t) (caller : UserId) (limit : option nat) :
  Ctx.auth ctx = Some caller ->
  let own := filter (fun t => String.eqb (Task.userId t) caller) (tasks w) in
  let n := orElse limit 5 in
  DashboardEndpoints.recent ctx limit w = (Ok (rev (lastN n own)), w)
  /\ length (lastN n own) = Nat.min n (length own)
  /\ (exists older, own = older ++ lastN n own)
  /\ Forall (fun t => Task.userId t = caller) (lastN n own).
Proof.
  intros Hauth own n. unfold_handlers. rewrite Hauth. reduce_world. fold own. fold n.
  rewrite firstn_rev. fold (lastN n own).
  split; [reflexivity |]. unfold lastN. split; [| split].
  - rewrite length_skipn. lia.
  - exists (firstn (length own - n) own). symmetry. apply firstn_skipn.
  - apply Forall_forall. intros t Hin.
    assert (Hin' : In t own).
    { rewrite <- (firstn_skipn (length own - n) own). apply in_or_app. now right. }
    apply filter_In in Hin'. now apply String.eqb_eq.
Qed.

End DashboardFacts.

(** The summary of Alice over her two tasks, her thread and its two
    messages. *)
Lemma loadSummary_counts_witness :
  let w := exampleWorld plenty 2 in
  exists s,
    outcome (Dashboard.loadSummary (Some alice)) w = Ok s
    /\ map fst (Summary.perTable s) = ["tasks"; "threads"; "messages"]%string
    /\ map snd (Summary.perTable s) = [2; 1; 2]
    /\ Summary.totalRecords s = 5.
Proof.
  intros w.
  destruct (@loadSummary_counts budgetPlatform w (Some alice))
    as [s [Hload [Hkeys [Htotal [Hscoped _]]]]].
  assert (Hne : alice <> EmptyString) by discriminate.
  destruct (Hscoped alice eq_refl Hne) as [Hcounts _].
  assert (Hnumbers : map snd (Summary.perTable s) = [2; 1; 2]).
  { rewrite Hcounts. vm_compute. reflexivity. }
  exists s. split; [unfold outcome; rewrite Hload; reflexivity |].
  split; [exact Hkeys |]. split; [exact Hnumbers |].
  rewrite Htotal, Hnumbers. reflexivity.
Defined.

(** Alice's two tasks, the newer first. *)
Lemma recent_tasks_newest_first_witness :
  DashboardEndpoints.recent asAlice None (exampleWorld plenty 0)
  = (Ok [openTask; doneTask], exampleWorld plenty 0).
Proof.
  destruct (@recent_tasks_newest_first budgetPlatform (exampleWorld plenty 0) asAlice alice
              None eq_refl)
    as [Hread _].
  exact Hread.
Defined.
